(** * budsctl: plugin loading, device matching and target resolution

    A shallow embedding of the core of budsctl (Python) and the
    properties its specification states of it.

    - [budsctl/core/model.py]          the records;
    - [budsctl/core/errors.py]         the exception classes;
    - [budsctl/core/device_match.py]   [match_score],
                                       [best_plugin_for_device];
    - [budsctl/core/plugin_loader.py]  [_normalize_hex], [UniqueKeyLoader]
                                       and [_construct_mapping],
                                       [_read_yaml], [load_plugins];
    - [budsctl/core/service.py]        [resolve_target], [feature_values],
                                       [feature_catalog], [set_feature],
                                       [_discover_devices].

    Conventions.
    - A Python [str] is a [string]; the text handled here (MAC addresses,
      hex payloads, identifiers, command output) is ASCII, and the case and
      white-space functions act on the ASCII range as Python's do there.
    - A Python [dict] with string keys is an association list in insertion
      order: assigning to a key already present replaces the value where
      it stands, assigning to a new key appends.
    - A function that may raise returns a [result]; [Raise] ends the
      computation, as the exception does.
    - [bytes] is a [list byte]; an [int] is a [Z]; a [float] timeout is a
      rational, and is only passed along.
    - What the program gets from outside is an argument of the function
      that uses it: the list of devices for [resolve_target], the answer
      of the transports for [set_feature], the outcome of each command for
      [_discover_devices], the reading and building of a document for
      [load_plugins], the resolver table and scalar constructors of
      [yaml.SafeLoader] for the YAML loader. *)

From Stdlib Require Import Bool List Arith ZArith NArith Lia.
From Stdlib Require Import Strings.Ascii Strings.String Strings.Byte QArith.
From Stdlib Require Import Sorted Permutation Orders Mergesort.
Import ListNotations.

Local Open Scope list_scope.
Local Open Scope string_scope.

#[local] Set Warnings "-register-all".

(* ================================================================== *)
(** * Part I: the program *)
(* ================================================================== *)

(** ** Python strings *)

(** The order of [str]: lexicographic, by code point. *)
Module StringOrder <: TotalLeBool.
Definition t : Type := string.
Definition leb : t -> t -> bool := String.leb.
Theorem leb_total (a1 a2 : t) : leb a1 a2 = true \/ leb a2 a1 = true.
Proof. apply String.leb_total. Qed.
End StringOrder.

Module StringSort := Sort StringOrder.

Module PyStr.

Definition code (c : ascii) : nat := nat_of_ascii c.

Definition in_range (lo hi : nat) (c : ascii) : bool :=
  (lo <=? code c)%nat && (code c <=? hi)%nat.

(** ['A'..'Z'] and ['a'..'z'] *)
Definition is_upper (c : ascii) : bool := in_range 65 90 c.
Definition is_lower (c : ascii) : bool := in_range 97 122 c.

Definition to_lower (c : ascii) : ascii :=
  if is_upper c then ascii_of_nat (code c + 32) else c.

Definition to_upper (c : ascii) : ascii :=
  if is_lower c then ascii_of_nat (code c - 32) else c.

Fixpoint map (f : ascii -> ascii) (s : string) : string :=
  match s with
  | EmptyString => EmptyString
  | String c s' => String (f c) (map f s')
  end.

(** [str.lower()], [str.upper()] *)
Definition lower (s : string) : string := map to_lower s.
Definition upper (s : string) : string := map to_upper s.

(** [str.isspace()] on one ASCII character: TAB, LF, VT, FF, CR,
    FS, GS, RS, US and the space. *)
Definition is_space (c : ascii) : bool :=
  in_range 9 13 c || in_range 28 32 c.

Fixpoint lstrip (s : string) : string :=
  match s with
  | EmptyString => EmptyString
  | String c s' => if is_space c then lstrip s' else s
  end.

Fixpoint rstrip (s : string) : string :=
  match s with
  | EmptyString => EmptyString
  | String c s' =>
      match rstrip s' with
      | EmptyString => if is_space c then EmptyString else String c EmptyString
      | r => String c r
      end
  end.

(** [str.strip()] *)
Definition strip (s : string) : string := rstrip (lstrip s).

(** [s.replace(" ", "")] *)
Fixpoint remove_spaces (s : string) : string :=
  match s with
  | EmptyString => EmptyString
  | String c s' =>
      if Ascii.eqb c " "%char then remove_spaces s'
      else String c (remove_spaces s')
  end.

(** [s.startswith(p)] *)
Fixpoint startswith (s p : string) {struct p} : bool :=
  match p, s with
  | EmptyString, _ => true
  | String _ _, EmptyString => false
  | String a p', String b s' => Ascii.eqb a b && startswith s' p'
  end.

(** [needle in hay] *)
Fixpoint contains (needle hay : string) : bool :=
  startswith hay needle ||
  match hay with
  | EmptyString => false
  | String _ hay' => contains needle hay'
  end.

(** [sep.join(parts)] *)
Fixpoint join (sep : string) (parts : list string) : string :=
  match parts with
  | [] => EmptyString
  | [p] => p
  | p :: rest => p ++ sep ++ join sep rest
  end.

(** [sorted(keys)]: Python's sort is a stable merge sort that orders
    [str] by code point. *)
Definition sorted (l : list string) : list string := StringSort.sort l.

(** The first [n] characters, and the rest. *)
Fixpoint take (n : nat) (s : string) : string :=
  match n, s with
  | S n', String c s' => String c (take n' s')
  | _, _ => EmptyString
  end.

Fixpoint drop (n : nat) (s : string) : string :=
  match n, s with
  | S n', String _ s' => drop n' s'
  | _, _ => s
  end.

(** Line boundaries of [str.splitlines()] in the ASCII range: LF, VT,
    FF, CR, FS, GS, RS; CR LF is one boundary. *)
Definition is_linebreak (c : ascii) : bool :=
  in_range 10 13 c || in_range 28 30 c.

Fixpoint splitlines (s : string) : list string :=
  match s with
  | EmptyString => []
  | String c s' =>
      if is_linebreak c then
        match s' with
        | String c' s'' =>
            if Ascii.eqb c (ascii_of_nat 13) && Ascii.eqb c' (ascii_of_nat 10)
            then EmptyString :: splitlines s''
            else EmptyString :: splitlines s'
        | EmptyString => [EmptyString]
        end
      else
        match splitlines s' with
        | [] => [String c EmptyString]
        | l :: ls => String c l :: ls
        end
  end.

(** An optional string argument under [if arg:]: [None] and the empty
    string are falsy; a truthy argument is its string. *)
Definition given (arg : option string) : option string :=
  match arg with
  | None => None
  | Some s => if String.eqb s EmptyString then None else Some s
  end.

End PyStr.

(** ** Python dictionaries with string keys *)

Module PyDict.

Definition t (V : Type) : Type := list (string * V).

Section WithValue.
Context {V : Type}.

(** [d.get(k)] *)
Fixpoint get (d : t V) (k : string) : option V :=
  match d with
  | [] => None
  | (k', v) :: d' => if String.eqb k k' then Some v else get d' k
  end.

(** [k in d] *)
Definition mem (k : string) (d : t V) : bool :=
  match get d k with Some _ => true | None => false end.

(** [d[k] = v] *)
Fixpoint set (d : t V) (k : string) (v : V) : t V :=
  match d with
  | [] => [(k, v)]
  | (k', v') :: d' =>
      if String.eqb k k' then (k', v) :: d' else (k', v') :: set d' k v
  end.

Definition keys (d : t V) : list string := List.map fst d.
Definition values (d : t V) : list V := List.map snd d.
Definition items (d : t V) : list (string * V) := d.

End WithValue.

End PyDict.

(** ** Exceptions ([budsctl/core/errors.py]) *)

Inductive exn : Type :=
| PluginValidationError (msg : string)
| PluginLoadError (msg : string)
| DeviceSelectionError (msg : string)
| DeviceDiscoveryError (msg : string)
| FeatureResolutionError (msg : string)
| TransportConnectError (msg : string)
| TransportSendError (msg : string)
| TransportTimeoutError (msg : string)
| TypeError (msg : string)
| ValueError (msg : string)
| KeyError (msg : string)
| OSError (msg : string)
| YAMLError (msg : string).

Inductive result (A : Type) : Type :=
| Ok (a : A)
| Raise (e : exn).
Arguments Ok {A} a.
Arguments Raise {A} e.

Definition bind {A B : Type} (r : result A) (k : A -> result B) : result B :=
  match r with
  | Ok a => k a
  | Raise e => Raise e
  end.

Notation "x <- c ;; k" := (bind c (fun x => k))
  (at level 61, c at next level, right associativity).

(** ** The data model ([budsctl/core/model.py]) *)

Record MatchRules : Type := mkMatchRules {
  name_contains : list string;
  mac_prefix : list string
}.

Record TransportSpec : Type := mkTransportSpec {
  type : string;
  channel : option Z;
  service_uuid : option string;
  write_char_uuid : option string;
  notify_char_uuid : option string;
  write_with_response : bool;
  timeout_s : Q
}.

Record EnumFeature : Type := mkEnumFeature {
  feature_type : string;
  values : PyDict.t (list byte)
}.

Record Plugin : Type := mkPlugin {
  id : string;
  name : string;
  match_ : MatchRules;
  transport : TransportSpec;
  features : PyDict.t EnumFeature
}.

Record DetectedDevice : Type := mkDetectedDevice {
  mac : string;
  device_name : string
}.

Record ResolvedTarget : Type := mkResolvedTarget {
  device : DetectedDevice;
  plugin : Plugin
}.

Record SendResult : Type := mkSendResult {
  target : ResolvedTarget;
  feature : string;
  value : string;
  payload_hex : string;
  response_hex : option string
}.

(** ** Device matching ([budsctl/core/device_match.py]) *)

Module DeviceMatch.

Definition _mac_prefix_match (device_mac : string) (plugin : Plugin) : bool :=
  let upper_mac := PyStr.upper device_mac in
  existsb (fun prefix => PyStr.startswith upper_mac prefix)
          (mac_prefix (match_ plugin)).

Definition _name_contains_match (device_name : string) (plugin : Plugin) : bool :=
  let lower_name := PyStr.lower device_name in
  existsb (fun token => PyStr.contains (PyStr.lower token) lower_name)
          (name_contains (match_ plugin)).

Definition match_score (device : DetectedDevice) (plugin : Plugin) : Z :=
  let mac_match := _mac_prefix_match (mac device) plugin in
  let name_match := _name_contains_match (device_name device) plugin in
  if mac_match && name_match then 3
  else if mac_match then 2
  else if name_match then 1
  else 0.

(** The loop of [best_plugin_for_device], with its two variables. *)
Fixpoint best_loop (device : DetectedDevice) (plugins : list Plugin)
         (best : option Plugin) (best_score : Z) : option Plugin :=
  match plugins with
  | [] => best
  | plugin :: rest =>
      let score := match_score device plugin in
      if (score >? best_score)%Z
      then best_loop device rest (Some plugin) score
      else best_loop device rest best best_score
  end.

Definition best_plugin_for_device (device : DetectedDevice)
           (plugins : PyDict.t Plugin) : option Plugin :=
  best_loop device (PyDict.values plugins) None 0%Z.

End DeviceMatch.

(** ** Byte strings *)

Module PyBytes.

Definition byte_of_N (n : N) : byte := byte_of_ascii (ascii_of_N n).
Definition N_of_byte (b : byte) : N := N_of_ascii (ascii_of_byte b).

(** The value of a hexadecimal digit, either case. *)
Definition hex_val (c : ascii) : option N :=
  if PyStr.in_range 48 57 c then Some (N_of_ascii c - 48)%N
  else if PyStr.in_range 97 102 c then Some (N_of_ascii c - 87)%N
  else if PyStr.in_range 65 70 c then Some (N_of_ascii c - 55)%N
  else None.

(** The lowercase digit of a value below 16. *)
Definition hex_digit (n : N) : ascii :=
  if (n <? 10)%N then ascii_of_N (n + 48) else ascii_of_N (n + 87).

(** ASCII white space as [bytes.fromhex] skips it: space, TAB, LF, VT,
    FF, CR. *)
Definition is_ascii_space (c : ascii) : bool :=
  PyStr.in_range 9 13 c || Ascii.eqb c " "%char.

(** [bytes.fromhex(s)]: pairs of hexadecimal digits, white space between
    the pairs skipped, [ValueError] on anything else. *)
Fixpoint fromhex (s : string) : result (list byte) :=
  match s with
  | EmptyString => Ok []
  | String c s' =>
      if is_ascii_space c then fromhex s'
      else
        match s' with
        | EmptyString =>
            Raise (ValueError "non-hexadecimal number found in fromhex() arg")
        | String c' s'' =>
            match hex_val c, hex_val c' with
            | Some h, Some l =>
                rest <- fromhex s'' ;;
                Ok (byte_of_N (16 * h + l) :: rest)
            | _, _ =>
                Raise (ValueError "non-hexadecimal number found in fromhex() arg")
            end
        end
  end.

(** [b.hex()] *)
Fixpoint hex (b : list byte) : string :=
  match b with
  | [] => EmptyString
  | x :: b' =>
      String (hex_digit (N_of_byte x / 16))
        (String (hex_digit (N_of_byte x mod 16)) (hex b'))
  end.

End PyBytes.

(** ** Plugin loading ([budsctl/core/plugin_loader.py]) *)

Module PluginLoader.

Definition _MAX_PAYLOAD_BYTES : nat := 512.

(** A character of the class [[0-9a-f]]. *)
Definition is_hex_lower (c : ascii) : bool :=
  PyStr.in_range 48 57 c || PyStr.in_range 97 102 c.

(** The rest of a match of [[0-9a-f]+$]: digits up to the end of the
    string, where [$] also matches just before a final newline. *)
Fixpoint hex_re_tail (s : string) : bool :=
  match s with
  | EmptyString => true
  | String c s' =>
      if is_hex_lower c then hex_re_tail s'
      else Ascii.eqb c (ascii_of_nat 10) && String.eqb s' EmptyString
  end.

(** [_HEX_RE.match(s)] for [_HEX_RE = re.compile(r"^[0-9a-f]+$")]. *)
Definition _HEX_RE_match (s : string) : bool :=
  match s with
  | EmptyString => false
  | String c s' => is_hex_lower c && hex_re_tail s'
  end.

Definition _normalize_hex (value : string) (context : string) : result (list byte) :=
  let normalized := PyStr.remove_spaces (PyStr.lower (PyStr.strip value)) in
  if (String.length normalized =? 0)%nat then
    Raise (PluginValidationError (context ++ " must not be empty"))
  else if negb (String.length normalized mod 2 =? 0)%nat then
    Raise (PluginValidationError (context ++ " must have even-length hex"))
  else if negb (_HEX_RE_match normalized) then
    Raise (PluginValidationError (context ++ " must contain only [0-9a-f]"))
  else
    payload <- PyBytes.fromhex normalized ;;
    if (_MAX_PAYLOAD_BYTES <? List.length payload)%nat then
      Raise (PluginValidationError
               (context ++ " exceeds max payload size 512 bytes"))
    else Ok payload.

Definition _normalize_mac_prefix (prefix : string) : string :=
  PyStr.upper (PyStr.strip prefix).

Record LoadedPlugins : Type := mkLoadedPlugins {
  plugins : PyDict.t Plugin;
  warnings : list string
}.

(** [load_plugins], over the two lists of paths it enumerates: the
    packaged documents sorted by file name, then the user's documents
    directory by directory.  Reading and parsing a document
    ([_read_yaml]) and validating it against the schema and building the
    plugin ([_build_plugin]) are taken as given. *)
Section Load.
Context {path doc : Type}.
Variable _read_yaml : path -> result doc.
Variable _build_plugin : doc -> path -> result Plugin.

(** The first loop: packaged documents. *)
Fixpoint load_packaged (paths : list path) (plugins : PyDict.t Plugin)
  : result (PyDict.t Plugin) :=
  match paths with
  | [] => Ok plugins
  | p :: rest =>
      doc <- _read_yaml p ;;
      plugin <- _build_plugin doc p ;;
      load_packaged rest (PyDict.set plugins (id plugin) plugin)
  end.

(** The second loop: user documents. *)
Fixpoint load_user (paths : list path) (plugins : PyDict.t Plugin)
         (warnings : list string) : result LoadedPlugins :=
  match paths with
  | [] => Ok (mkLoadedPlugins plugins warnings)
  | p :: rest =>
      doc <- _read_yaml p ;;
      plugin <- _build_plugin doc p ;;
      let warnings :=
        if PyDict.mem (id plugin) plugins then
          let warning :=
            "User plugin '" ++ id plugin ++ "' overrides packaged plugin" in
          (warnings ++ [warning])%list
        else warnings in
      load_user rest (PyDict.set plugins (id plugin) plugin) warnings
  end.

Definition load_plugins (packaged_paths user_paths : list path)
  : result LoadedPlugins :=
  plugins <- load_packaged packaged_paths [] ;;
  load_user user_paths plugins [].

End Load.

End PluginLoader.

(** ** The YAML loader ([UniqueKeyLoader] of [budsctl/core/plugin_loader.py])

    PyYAML turns the text of a document into a tree of nodes, gives every
    scalar a tag - the one written, or the one its implicit resolvers find
    for a plain scalar - and builds the Python object of each node with
    the constructor registered for its tag.  [UniqueKeyLoader] is
    [yaml.SafeLoader] with the implicit resolvers of the boolean tag
    removed and [_construct_mapping] registered for mappings. *)

Module Yaml.

Definition BOOL_TAG : string := "tag:yaml.org,2002:bool".
Definition NULL_TAG : string := "tag:yaml.org,2002:null".
Definition STR_TAG : string := "tag:yaml.org,2002:str".

(** A document as parsed: a scalar has its text, whether it was written
    plain (unquoted), and its tag if one was written. *)
Inductive document : Type :=
| Scalar (tag : option string) (plain : bool) (value : string)
| Sequence (items : list document)
| Mapping (pairs : list (document * document)).

(** The composed nodes: every scalar has its tag. *)
Inductive node : Type :=
| ScalarNode (tag value : string)
| SequenceNode (value : list node)
| MappingNode (value : list (node * node)).

(** The objects built.  [PyScalar] is an object of one of the other
    scalar types ([int], [float], [datetime], [bytes]), known by the tag
    and the text it was built from. *)
Inductive pyobj : Type :=
| PyNone
| PyBool (b : bool)
| PyStr (s : string)
| PyScalar (tag text : string)
| PyList (l : list pyobj)
| PyDict (d : list (pyobj * pyobj)).

(** *** Implicit resolvers *)

(** The keys of [yaml_implicit_resolvers]: a first character, the empty
    string (for an empty scalar), or [None] (any scalar). *)
Inductive first_char : Type :=
| AnyChar
| NoChar
| Char (c : ascii).

Definition first_char_eqb (a b : first_char) : bool :=
  match a, b with
  | AnyChar, AnyChar => true
  | NoChar, NoChar => true
  | Char x, Char y => Ascii.eqb x y
  | _, _ => false
  end.

(** A compiled regular expression, as its [match] on a string. *)
Definition regexp : Type := string -> bool.

Definition implicit_resolvers : Type :=
  list (first_char * list (string * regexp)).

(** [UniqueKeyLoader.yaml_implicit_resolvers]: the table of
    [yaml.SafeLoader], each list without its entries for the boolean
    tag. *)
Definition unique_key_resolvers (safe : implicit_resolvers)
  : implicit_resolvers :=
  List.map
    (fun '(first_char, mappings) =>
       (first_char,
        List.filter (fun '(tag, regexp) => negb (String.eqb tag BOOL_TAG))
                    mappings))
    safe.

(** [table.get(key, [])] *)
Fixpoint resolvers_for (table : implicit_resolvers) (key : first_char)
  : list (string * regexp) :=
  match table with
  | [] => []
  | (k, mappings) :: table' =>
      if first_char_eqb key k then mappings else resolvers_for table' key
  end.

(** [Resolver.resolve] on a scalar: the first resolver, among those of
    its first character and then those of any scalar, whose expression
    matches; the string tag otherwise, and for a scalar that is not
    plain. *)
Definition resolve (table : implicit_resolvers) (value : string)
           (plain : bool) : string :=
  if plain then
    let resolvers :=
      resolvers_for table
        (match value with
         | EmptyString => NoChar
         | String c _ => Char c
         end) in
    let wildcard_resolvers := resolvers_for table AnyChar in
    match List.find (fun '(tag, regexp) => regexp value)
                    (resolvers ++ wildcard_resolvers)%list with
    | Some (tag, _) => tag
    | None => STR_TAG
    end
  else STR_TAG.

(** [Composer.compose_node]: a written tag is kept, except the
    non-specific [!]. *)
Fixpoint compose (table : implicit_resolvers) (d : document) : node :=
  match d with
  | Scalar tag plain value =>
      match tag with
      | Some t =>
          if String.eqb t "!" then ScalarNode (resolve table value false) value
          else ScalarNode t value
      | None => ScalarNode (resolve table value plain) value
      end
  | Sequence items => SequenceNode (List.map (compose table) items)
  | Mapping pairs =>
      MappingNode
        (List.map (fun kv => (compose table (fst kv), compose table (snd kv)))
                  pairs)
  end.

(** *** Construction *)

Section Construct.

(** The constructors of [yaml.SafeLoader] for the scalar tags other
    than string, boolean and null; equality of two keys one of which
    is such an object; [str()] of such an object. *)
Variable construct_other : string -> string -> result pyobj.
Variable scalar_eq : pyobj -> pyobj -> bool.
Variable scalar_str : string -> string -> string.

(** [SafeConstructor.bool_values] *)
Definition bool_values : list (string * bool) :=
  [("yes", true); ("no", false); ("true", true); ("false", false);
   ("on", true); ("off", false)].

Definition construct_scalar (tag value : string) : result pyobj :=
  if String.eqb tag STR_TAG then Ok (PyStr value)
  else if String.eqb tag NULL_TAG then Ok PyNone
  else if String.eqb tag BOOL_TAG then
    match PyDict.get bool_values (PyStr.lower value) with
    | Some b => Ok (PyBool b)
    | None => Raise (KeyError (PyStr.lower value))
    end
  else construct_other tag value.

(** [hash(key)] is defined. *)
Definition hashable (o : pyobj) : bool :=
  match o with
  | PyList _ | PyDict _ => false
  | _ => true
  end.

(** Two keys are the same key of a dictionary. *)
Definition py_eq (a b : pyobj) : bool :=
  match a, b with
  | PyStr x, PyStr y => String.eqb x y
  | PyNone, PyNone => true
  | PyBool x, PyBool y => Bool.eqb x y
  | PyScalar _ _, _ | _, PyScalar _ _ => scalar_eq a b
  | _, _ => false
  end.

(** [key in mapping] *)
Definition dict_contains (mapping : list (pyobj * pyobj)) (key : pyobj)
  : result bool :=
  if hashable key then
    Ok (existsb (fun kv => py_eq (fst kv) key) mapping)
  else Raise (TypeError "unhashable type").

(** [str(key)], for the message. *)
Definition py_str (o : pyobj) : string :=
  match o with
  | PyStr s => s
  | PyNone => "None"
  | PyBool true => "True"
  | PyBool false => "False"
  | PyScalar tag text => scalar_str tag text
  | PyList _ | PyDict _ => EmptyString
  end.

Section Mapping.
(** [loader.construct_object] *)
Variable construct_object : node -> result pyobj.

(** The loop of [_construct_mapping] over [node.value], with the
    dictionary built so far. *)
Fixpoint _construct_mapping_loop (value : list (node * node))
         (mapping : list (pyobj * pyobj)) : result (list (pyobj * pyobj)) :=
  match value with
  | [] => Ok mapping
  | (key_node, value_node) :: rest =>
      key <- construct_object key_node ;;
      present <- dict_contains mapping key ;;
      if present then
        Raise (PluginValidationError
                 ("Duplicate key '" ++ py_str key ++ "' in YAML document"))
      else
        v <- construct_object value_node ;;
        _construct_mapping_loop rest (mapping ++ [(key, v)])%list
  end.

Definition _construct_mapping (value : list (node * node))
  : result (list (pyobj * pyobj)) :=
  _construct_mapping_loop value [].

(** [SafeConstructor.construct_sequence] *)
Fixpoint construct_sequence (value : list node) : result (list pyobj) :=
  match value with
  | [] => Ok []
  | n :: rest =>
      o <- construct_object n ;;
      os <- construct_sequence rest ;;
      Ok (o :: os)
  end.
End Mapping.

(** [construct_object] of [UniqueKeyLoader].  PyYAML fills a sequence
    after the mappings around it are built; the object is the same. *)
Fixpoint construct_object (n : node) : result pyobj :=
  match n with
  | ScalarNode tag value => construct_scalar tag value
  | SequenceNode value =>
      l <- construct_sequence construct_object value ;;
      Ok (PyList l)
  | MappingNode value =>
      d <- _construct_mapping construct_object value ;;
      Ok (PyDict d)
  end.

(** [yaml.load(content, Loader=UniqueKeyLoader)], from the parsed
    document on; [safe] is the table of [yaml.SafeLoader]. *)
Definition load (safe : implicit_resolvers) (d : document) : result pyobj :=
  construct_object (compose (unique_key_resolvers safe) d).

(** [_read_yaml]: [read_text] is the outcome of reading the file,
    [parse] the YAML parser. *)
Definition _read_yaml (safe : implicit_resolvers)
           (parse : string -> result (option document))
           (path : string) (read_text : result string) : result pyobj :=
  content <-
    match read_text with
    | Raise (OSError exc) =>
        Raise (PluginLoadError
                 ("Could not read plugin file " ++ path ++ ": " ++ exc))
    | r => r
    end ;;
  loaded <-
    match (d <- parse content ;;
           match d with
           | Some d => load safe d
           | None => Ok PyNone
           end) with
    | Raise (YAMLError exc) =>
        Raise (PluginValidationError
                 ("Invalid YAML in " ++ path ++ ": " ++ exc))
    | r => r
    end ;;
  match loaded with
  | PyDict _ => Ok loaded
  | _ =>
      Raise (PluginValidationError
               ("Plugin file " ++ path ++ " must contain a mapping at root"))
  end.

End Construct.

End Yaml.

(** ** Building a plugin from a document ([budsctl/core/plugin_loader.py]) *)

Module PluginBuilder.

(** [n] characters of [[0-9a-f]]; the rest of the string. *)
Fixpoint hex_group (n : nat) (s : string) : option string :=
  match n with
  | O => Some s
  | S n' =>
      match s with
      | String c s' =>
          if PluginLoader.is_hex_lower c then hex_group n' s' else None
      | EmptyString => None
      end
  end.

(** [$]: the end of the string, or just before a final newline. *)
Definition at_end (s : string) : bool :=
  String.eqb s EmptyString || String.eqb s (String (ascii_of_nat 10) EmptyString).

(** Groups of hexadecimal digits of the given sizes, with a dash between
    two groups, up to the end. *)
Fixpoint hex_groups (sizes : list nat) (s : string) : bool :=
  match sizes with
  | [] => false
  | n :: more =>
      match hex_group n s with
      | None => false
      | Some rest =>
          match more with
          | [] => at_end rest
          | _ :: _ =>
              match rest with
              | String c rest' => Ascii.eqb c "-"%char && hex_groups more rest'
              | EmptyString => false
              end
          end
      end
  end.

(** [_UUID_RE.match(s)] for the three alternatives of [_UUID_RE]: 4
    digits, 8 digits, or 8-4-4-4-12. *)
Definition _UUID_RE_match (s : string) : bool :=
  hex_groups [4%nat] s || hex_groups [8%nat] s ||
  hex_groups [8; 4; 4; 4; 12]%nat s.

Definition _normalize_uuid (value context : string) : result string :=
  let normalized := PyStr.lower (PyStr.strip value) in
  if negb (_UUID_RE_match normalized) then
    Raise (PluginValidationError
             (context ++ " must be a 16-bit, 32-bit, or 128-bit UUID string"))
  else Ok normalized.

(** [_normalize_bool]: the value is any object of the document. *)
Definition _normalize_bool (value : Yaml.pyobj) (context : string) : result bool :=
  let failure :=
    Raise (PluginValidationError (context ++ " must be boolean true/false")) in
  match value with
  | Yaml.PyBool b => Ok b
  | Yaml.PyStr s =>
      let lowered := PyStr.lower (PyStr.strip s) in
      if String.eqb lowered "true" then Ok true
      else if String.eqb lowered "false" then Ok false
      else failure
  | _ => failure
  end.

(** Modelled from the spec: the shape of a document, as the schema
    [budsctl/schemas/plugin.schema.json] (not in the source tree) fixes it
    for the documents it lets through: [id] and [name] are strings, [match]
    has optional lists of strings, [transport] has a [type] and the fields
    of its kind, [features] maps a feature name to the [values] of the
    feature, a mapping from value names to hexadecimal strings.  An
    optional key is an [option]; [write_with_response] is any object. *)
Record TransportDoc : Type := mkTransportDoc {
  doc_type : string;
  doc_channel : option Z;
  doc_timeout_s : option Q;
  doc_service_uuid : option string;
  doc_write_char_uuid : option string;
  doc_notify_char_uuid : option string;
  doc_write_with_response : option Yaml.pyobj
}.

Record PluginDoc : Type := mkPluginDoc {
  doc_id : string;
  doc_name : string;
  doc_name_contains : option (list string);
  doc_mac_prefix : option (list string);
  doc_transport : TransportDoc;
  doc_features : PyDict.t (PyDict.t string)
}.

(** A [jsonschema.ValidationError]: its path, each element as a string,
    and its message. *)
Record ValidationError : Type := mkValidationError {
  error_path : list string;
  error_message : string
}.

(** [d[key]] on a key that may be missing. *)
Definition required {A : Type} (key : string) (field : option A) : result A :=
  match field with
  | Some a => Ok a
  | None => Raise (KeyError key)
  end.

(** The inner loop of [_build_plugin]: the values of one feature. *)
Fixpoint build_values (plugin_id feature_name : string)
         (items : list (string * string)) (values : PyDict.t (list byte))
  : result (PyDict.t (list byte)) :=
  match items with
  | [] => Ok values
  | (value_name, hex_payload) :: rest =>
      let context := plugin_id ++ "." ++ feature_name ++ "." ++ value_name in
      payload <- PluginLoader._normalize_hex hex_payload context ;;
      build_values plugin_id feature_name rest
                   (PyDict.set values value_name payload)
  end.

(** The outer loop: the features. *)
Fixpoint build_features (plugin_id : string)
         (items : list (string * PyDict.t string))
         (features : PyDict.t EnumFeature) : result (PyDict.t EnumFeature) :=
  match items with
  | [] => Ok features
  | (feature_name, feature_spec) :: rest =>
      values <- build_values plugin_id feature_name
                             (PyDict.items feature_spec) [] ;;
      build_features plugin_id rest
                     (PyDict.set features feature_name (mkEnumFeature "enum" values))
  end.

Definition build_transport (doc : PluginDoc) (source : string)
  : result TransportSpec :=
  let t := doc_transport doc in
  let transport_type := doc_type t in
  if String.eqb transport_type "rfcomm" then
    channel <- required "channel" (doc_channel t) ;;
    Ok (mkTransportSpec "rfcomm" (Some channel) None None None true
          (match doc_timeout_s t with Some x => x | None => 3.0%Q end))
  else if String.eqb transport_type "ble" then
    raw_service <- required "service_uuid" (doc_service_uuid t) ;;
    service_uuid <-
      _normalize_uuid raw_service (doc_id doc ++ ".transport.service_uuid") ;;
    raw_write <- required "write_char_uuid" (doc_write_char_uuid t) ;;
    write_char_uuid <-
      _normalize_uuid raw_write (doc_id doc ++ ".transport.write_char_uuid") ;;
    notify_char_uuid <-
      match doc_notify_char_uuid t with
      | Some raw_notify =>
          u <- _normalize_uuid raw_notify
                 (doc_id doc ++ ".transport.notify_char_uuid") ;;
          Ok (Some u)
      | None => Ok None
      end ;;
    write_with_response <-
      _normalize_bool
        (match doc_write_with_response t with
         | Some v => v
         | None => Yaml.PyBool true
         end)
        (doc_id doc ++ ".transport.write_with_response") ;;
    Ok (mkTransportSpec "ble" None (Some service_uuid) (Some write_char_uuid)
          notify_char_uuid write_with_response
          (match doc_timeout_s t with Some x => x | None => 5.0%Q end))
  else
    Raise (PluginValidationError
             ("Unsupported transport type '" ++ transport_type ++ "' in " ++ source)).

(** [_build_plugin]; [validate] is the schema validator, which answers
    with the error it finds, if any. *)
Definition _build_plugin (validate : PluginDoc -> option ValidationError)
           (doc : PluginDoc) (source : string) : result Plugin :=
  match validate doc with
  | Some exc =>
      let path := PyStr.join "." (error_path exc) in
      let where_ :=
        if String.eqb path EmptyString then EmptyString
        else " (" ++ path ++ ")" in
      Raise (PluginValidationError
               ("Schema validation failed for " ++ source ++ where_ ++ ": " ++
                error_message exc))
  | None =>
      features <- build_features (doc_id doc) (PyDict.items (doc_features doc)) [] ;;
      transport <- build_transport doc source ;;
      Ok (mkPlugin (doc_id doc) (doc_name doc)
            (mkMatchRules
               (match doc_name_contains doc with Some l => l | None => [] end)
               (List.map PluginLoader._normalize_mac_prefix
                  (match doc_mac_prefix doc with Some l => l | None => [] end)))
            transport features)
  end.

End PluginBuilder.

(** ** The service layer ([budsctl/core/service.py]) *)

Module Service.

(** A call of a transport's [send], with its arguments. *)
Inductive send_call : Type :=
| RfcommSend (mac : string) (payload : list byte) (channel : Z) (timeout_s : Q)
| BleSend (mac : string) (payload : list byte)
          (service_uuid write_char_uuid : string)
          (notify_char_uuid : option string)
          (write_with_response : bool) (timeout_s : Q).

(** The two transports, as what their [send] answers to a call. *)
Definition transports : Type := send_call -> result (option (list byte)).

(** The loop of [resolve_target] over the discovered devices. *)
Fixpoint match_candidates (plugins : PyDict.t Plugin)
         (plugin_override : option Plugin) (devices : list DetectedDevice)
  : list ResolvedTarget :=
  match devices with
  | [] => []
  | device :: rest =>
      match plugin_override with
      | Some plugin =>
          match DeviceMatch.best_plugin_for_device device [(id plugin, plugin)] with
          | None => match_candidates plugins plugin_override rest
          | Some _ =>
              mkResolvedTarget device plugin
                :: match_candidates plugins plugin_override rest
          end
      | None =>
          match DeviceMatch.best_plugin_for_device device plugins with
          | None => match_candidates plugins plugin_override rest
          | Some plugin =>
              mkResolvedTarget device plugin
                :: match_candidates plugins plugin_override rest
          end
      end
  end.

(** The condition of the comprehension that builds [hinted]. *)
Definition hint_matches (hint : string) (c : ResolvedTarget) : bool :=
  String.eqb (PyStr.lower (mac (device c))) hint
  || PyStr.contains hint (PyStr.lower (mac (device c)))
  || PyStr.contains hint (PyStr.lower (device_name (device c)))
  || PyStr.contains hint (PyStr.lower (id (plugin c)))
  || PyStr.contains hint (PyStr.lower (name (plugin c))).

Definition candidate_desc (c : ResolvedTarget) : string :=
  mac (device c) ++ " (" ++ device_name (device c) ++ ")".

Definition is_empty {A : Type} (l : list A) : bool :=
  match l with [] => true | _ :: _ => false end.

Definition resolve_target (plugins : PyDict.t Plugin)
           (list_devices : result (list DetectedDevice))
           (plugin_id device_hint : option string) : result ResolvedTarget :=
  devices <- list_devices ;;
  if is_empty devices then
    Raise (DeviceSelectionError
             "No Bluetooth devices found. Ensure your target device is connected.")
  else
    plugin_override <-
      match PyStr.given plugin_id with
      | Some pid =>
          match PyDict.get plugins pid with
          | None =>
              Raise (DeviceSelectionError
                       ("Unknown plugin '" ++ pid ++
                        "'. Use 'budsctl list' to inspect available plugins."))
          | Some p => Ok (Some p)
          end
      | None => Ok None
      end ;;
    let candidates := match_candidates plugins plugin_override devices in
    candidates <-
      match PyStr.given device_hint with
      | Some dh =>
          let hint := PyStr.lower dh in
          let hinted := List.filter (hint_matches hint) candidates in
          if is_empty hinted then
            Raise (DeviceSelectionError ("No device found matching '" ++ dh ++ "'"))
          else Ok hinted
      | None => Ok candidates
      end ;;
    match candidates with
    | [] =>
        match PyStr.given plugin_id with
        | Some pid =>
            Raise (DeviceSelectionError
                     ("No connected device matched plugin '" ++ pid ++ "'."))
        | None =>
            Raise (DeviceSelectionError
                     "No connected device matched any plugin. Use --plugin to target explicitly or add a plugin.")
        end
    | c :: others =>
        if (1 <? List.length candidates)%nat then
          Raise (DeviceSelectionError
                   ("Multiple candidate devices found: " ++
                    PyStr.join ", " (List.map candidate_desc candidates) ++
                    ". Use --device to choose one."))
        else Ok c
    end.

Definition feature_values (plugins : PyDict.t Plugin)
           (list_devices : result (list DetectedDevice))
           (feature : string) (plugin_id device_hint : option string)
  : result (ResolvedTarget * list string) :=
  target <- resolve_target plugins list_devices plugin_id device_hint ;;
  match PyDict.get (features (plugin target)) feature with
  | None =>
      let available :=
        PyStr.join ", " (PyStr.sorted (PyDict.keys (features (plugin target)))) in
      Raise (FeatureResolutionError
               ("Plugin '" ++ id (plugin target) ++ "' does not define feature '" ++
                feature ++ "'. Available: " ++ available))
  | Some feature_spec =>
      Ok (target, PyStr.sorted (PyDict.keys (values feature_spec)))
  end.

Definition feature_catalog (plugins : PyDict.t Plugin)
           (list_devices : result (list DetectedDevice))
           (plugin_id device_hint : option string)
  : result (ResolvedTarget * PyDict.t (list string)) :=
  target <- resolve_target plugins list_devices plugin_id device_hint ;;
  let catalog :=
    List.fold_left
      (fun catalog feature_name =>
         match PyDict.get (features (plugin target)) feature_name with
         | Some feature_spec =>
             PyDict.set catalog feature_name
                        (PyStr.sorted (PyDict.keys (values feature_spec)))
         | None => catalog
         end)
      (PyStr.sorted (PyDict.keys (features (plugin target)))) [] in
  Ok (target, catalog).

(** [response.hex() if response else None] *)
Definition response_hex_of (response : option (list byte)) : option string :=
  match response with
  | None => None
  | Some [] => None
  | Some b => Some (PyBytes.hex b)
  end.

(** [set_feature] returns its outcome together with the calls it made
    to the transports, in order. *)
Definition set_feature (plugins : PyDict.t Plugin)
           (list_devices : result (list DetectedDevice))
           (send : transports)
           (feature value : string) (plugin_id device_hint : option string)
  : result SendResult * list send_call :=
  match feature_values plugins list_devices feature plugin_id device_hint with
  | Raise e => (Raise e, [])
  | Ok (target, allowed_values) =>
      match PyDict.get (features (plugin target)) feature with
      | None => (Raise (KeyError feature), [])
      | Some feature_spec =>
          match PyDict.get (values feature_spec) value with
          | None =>
              let allowed := PyStr.join ", " allowed_values in
              (Raise (FeatureResolutionError
                        ("Feature '" ++ feature ++ "' does not support value '" ++
                         value ++ "'. Allowed: " ++ allowed)), [])
          | Some payload =>
              let t := transport (plugin target) in
              let finish (call : send_call) :=
                (response <- send call ;;
                 Ok (mkSendResult target feature value (PyBytes.hex payload)
                                  (response_hex_of response)),
                 [call]) in
              if String.eqb (type t) "rfcomm" then
                match channel t with
                | None =>
                    (Raise (FeatureResolutionError
                              ("Plugin '" ++ id (plugin target) ++
                               "' has invalid RFCOMM configuration (missing channel).")),
                     [])
                | Some ch =>
                    finish (RfcommSend (mac (device target)) payload ch (timeout_s t))
                end
              else if String.eqb (type t) "ble" then
                match PyStr.given (service_uuid t), PyStr.given (write_char_uuid t) with
                | Some su, Some wu =>
                    finish (BleSend (mac (device target)) payload su wu
                                    (notify_char_uuid t) (write_with_response t)
                                    (timeout_s t))
                | _, _ =>
                    (Raise (FeatureResolutionError
                              ("Plugin '" ++ id (plugin target) ++
                               "' has invalid BLE configuration (missing UUIDs).")),
                     [])
                end
              else
                (Raise (FeatureResolutionError
                          ("Unsupported transport type '" ++ type t ++
                           "' for plugin '" ++ id (plugin target) ++ "'.")),
                 [])
          end
      end
  end.

(** [sorted(plugins.values(), key=lambda p: p.id)]: the sort is stable,
    here by insertion from the right. *)
Fixpoint insert_by_id (p : Plugin) (l : list Plugin) : list Plugin :=
  match l with
  | [] => [p]
  | q :: l' =>
      if String.leb (id p) (id q) then p :: l else q :: insert_by_id p l'
  end.

Fixpoint sorted_by_id (l : list Plugin) : list Plugin :=
  match l with
  | [] => []
  | p :: l' => insert_by_id p (sorted_by_id l')
  end.

Definition list_plugins (plugins : PyDict.t Plugin) : list Plugin :=
  sorted_by_id (PyDict.values plugins).

(** *** Device discovery *)

Record CompletedProcess : Type := mkCompletedProcess {
  returncode : Z;
  stdout : string;
  stderr : option string
}.

(** [_run_discovery_command]: the completed process, or [None] when the
    program is not installed ([FileNotFoundError]). *)
Definition runner : Type := list string -> option CompletedProcess.

(** The first result of [f] over a list, as a backtracking matcher
    tries its alternatives in order. *)
Fixpoint first_some {A B : Type} (f : A -> option B) (l : list A) : option B :=
  match l with
  | [] => None
  | x :: l' => match f x with Some y => Some y | None => first_some f l' end
  end.

(** What may follow a match of [\s+], longest match first: the string
    after [k] white-space characters, for each possible [k >= 1]. *)
Fixpoint after_spaces_shortest_first (s : string) : list string :=
  match s with
  | EmptyString => []
  | String c s' =>
      if PyStr.is_space c then s' :: after_spaces_shortest_first s' else []
  end.

Definition after_spaces (s : string) : list string :=
  List.rev (after_spaces_shortest_first s).

(** The longest prefix without a newline, and the rest. *)
Fixpoint dot_run (s : string) : string * string :=
  match s with
  | EmptyString => (EmptyString, EmptyString)
  | String c s' =>
      if Ascii.eqb c (ascii_of_nat 10) then (EmptyString, s)
      else let (d, r) := dot_run s' in (String c d, r)
  end.

(** [(.+)$]: one or more characters other than a newline, up to the end
    of the string or to a final newline. *)
Definition dot_plus_end (s : string) : option string :=
  let (d, r) := dot_run s in
  if String.eqb d EmptyString then None
  else if String.eqb r EmptyString
          || String.eqb r (String (ascii_of_nat 10) EmptyString)
       then Some d
       else None.

(** The class [[0-9A-F:]] under [re.IGNORECASE]. *)
Definition is_hex_any (c : ascii) : bool :=
  PyStr.in_range 48 57 c || PyStr.in_range 65 70 c || PyStr.in_range 97 102 c.

Definition is_mac_char (c : ascii) : bool :=
  is_hex_any c || Ascii.eqb c ":"%char.

Fixpoint all_chars_b (f : ascii -> bool) (s : string) : bool :=
  match s with
  | EmptyString => true
  | String c s' => f c && all_chars_b f s'
  end.

(** [_DEVICE_LINE_RE.match(t)] for
    [re.compile(r"^Device\s+([0-9A-F:]{17})\s+(.+)$", re.IGNORECASE)]:
    the two groups. *)
Definition _DEVICE_LINE_RE_match (t : string) : option (string * string) :=
  if String.eqb (PyStr.lower (PyStr.take 6 t)) "device" then
    first_some
      (fun r =>
         let g1 := PyStr.take 17 r in
         if (String.length g1 =? 17)%nat && all_chars_b is_mac_char g1 then
           first_some
             (fun body =>
                match dot_plus_end body with
                | Some g2 => Some (g1, g2)
                | None => None
                end)
             (after_spaces (PyStr.drop 17 r))
         else None)
      (after_spaces (PyStr.drop 6 t))
  else None.

(** Two hexadecimal digits, then five times a colon and two digits. *)
Fixpoint mac_shape (groups : nat) (s : string) : bool :=
  match s with
  | String a (String b s') =>
      is_hex_any a && is_hex_any b &&
      match groups with
      | O => true
      | S g =>
          match s' with
          | String c s'' => Ascii.eqb c ":"%char && mac_shape g s''
          | EmptyString => false
          end
      end
  | _ => false
  end.

(** [_MAC_RE.search(s)] for
    [re.compile(r"([0-9A-F]{2}(?::[0-9A-F]{2}){5})", re.IGNORECASE)]:
    the leftmost match. *)
Fixpoint _MAC_RE_search (s : string) : option string :=
  if mac_shape 5 s then Some (PyStr.take 17 s)
  else
    match s with
    | EmptyString => None
    | String _ s' => _MAC_RE_search s'
    end.

(** What a line of [bluetoothctl] output gives: MAC and name. *)
Definition bluetoothctl_line (line : string) : option (string * string) :=
  match _DEVICE_LINE_RE_match (PyStr.strip line) with
  | None => None
  | Some (g1, g2) => Some (PyStr.upper g1, PyStr.strip g2)
  end.

(** What a line of [hcitool con] output gives. *)
Definition hcitool_line (line : string) : option (string * string) :=
  match _MAC_RE_search line with
  | None => None
  | Some g1 => Some (PyStr.upper g1, "<unknown-device>")
  end.

(** The three variables of [_discover_devices]. *)
Record scan : Type := mkScan {
  seen : list string;
  devices : list DetectedDevice;
  command_errors : list string
}.

Definition scan_line (parse : string -> option (string * string))
           (st : scan) (line : string) : scan :=
  match parse line with
  | None => st
  | Some (mac, name) =>
      if existsb (String.eqb mac) (seen st) then st
      else mkScan (mac :: seen st)
                  (devices st ++ [mkDetectedDevice mac name])
                  (command_errors st)
  end.

(** The body of the two loops over commands. *)
Definition scan_command (run : runner)
           (parse : string -> option (string * string))
           (st : scan) (cmd : list string) : scan :=
  match run cmd with
  | None => st
  | Some result =>
      if negb (returncode result =? 0)%Z then
        let stderr :=
          PyStr.strip (match stderr result with Some e => e | None => EmptyString end) in
        if negb (String.eqb stderr EmptyString) then
          mkScan (seen st) (devices st)
                 (command_errors st ++ [PyStr.join " " cmd ++ " -> " ++ stderr])
        else st
      else
        List.fold_left (scan_line parse) (PyStr.splitlines (stdout result)) st
  end.

Definition bluetoothctl_commands : list (list string) :=
  [["bluetoothctl"; "devices"; "Connected"];
   ["bluetoothctl"; "devices"];
   ["bluetoothctl"; "paired-devices"]].

Definition fallback_commands : list (list string) := [["hcitool"; "con"]].

Definition _discover_devices (run : runner) : result (list DetectedDevice) :=
  let st :=
    List.fold_left (scan_command run bluetoothctl_line) bluetoothctl_commands
                   (mkScan [] [] []) in
  if negb (is_empty (devices st)) then Ok (devices st)
  else
    let st :=
      List.fold_left (scan_command run hcitool_line) fallback_commands st in
    if negb (is_empty (devices st)) then Ok (devices st)
    else if negb (is_empty (command_errors st)) then
      let joined := PyStr.join " | " (command_errors st) in
      Raise (DeviceDiscoveryError
               ("Bluetooth discovery failed. Ensure a working D-Bus/BlueZ session. Details: "
                ++ joined))
    else Ok (devices st).

End Service.

(** ** The RFCOMM transport ([budsctl/transports/rfcomm.py]) *)

Module Rfcomm.

(** What a socket call may raise: [TimeoutError] or another [OSError].
    [socket.timeout] is another name of [TimeoutError] from Python 3.10
    on, and [plugin_loader.py] imports [importlib.resources.abc], which
    Python has from 3.11 on; so the two are one class here. *)
Inductive os_error : Type :=
| Timeout (msg : string)
| OtherOSError (msg : string).

Definition os_error_str (e : os_error) : string :=
  match e with
  | Timeout msg => msg
  | OtherOSError msg => msg
  end.

(** The socket layer, as what each call does when it is made. *)
Record socket_layer : Type := mkSocketLayer {
  has_bluetooth : bool;
  socket_create : option os_error;
  socket_connect : string -> Z -> option os_error;
  socket_sendall : list byte -> option os_error;
  socket_recv : Z -> os_error + list byte
}.

(** The calls made on the socket layer. *)
Inductive socket_op : Type :=
| OpSocket
| OpSetTimeout (timeout_s : Q)
| OpConnect (mac : string) (channel : Z)
| OpSendAll (payload : list byte)
| OpRecv (bufsize : Z)
| OpClose.

Section Send.
(** [str()] of the channel number, for the messages. *)
Variable show_channel : Z -> string.

(** [RFCOMMTransport.send]: the outcome, and the calls made in order. *)
Definition send (layer : socket_layer) (mac : string) (payload : list byte)
           (channel : Z) (timeout_s : Q)
  : result (option (list byte)) * list socket_op :=
  if negb (has_bluetooth layer) then
    (Raise (TransportConnectError
              "This Python build does not expose Bluetooth socket APIs (AF_BLUETOOTH/BTPROTO_RFCOMM)."),
     [])
  else
    match socket_create layer with
    | Some exc =>
        (Raise (TransportConnectError
                  ("Could not create RFCOMM socket: " ++ os_error_str exc)),
         [OpSocket])
    | None =>
        if Qle_bool 0 timeout_s then
          match socket_connect layer mac channel with
          | Some (Timeout _) =>
              (Raise (TransportTimeoutError
                        ("RFCOMM connect timed out for " ++ mac ++
                         " on channel " ++ show_channel channel)),
               [OpSocket; OpSetTimeout timeout_s; OpConnect mac channel; OpClose])
          | Some (OtherOSError exc) =>
              (Raise (TransportConnectError
                        ("RFCOMM connect failed for " ++ mac ++ " on channel " ++
                         show_channel channel ++ ": " ++ exc)),
               [OpSocket; OpSetTimeout timeout_s; OpConnect mac channel; OpClose])
          | None =>
              match socket_sendall layer payload with
              | Some exc =>
                  (Raise (TransportSendError
                            ("RFCOMM send failed: " ++ os_error_str exc)),
                   [OpSocket; OpSetTimeout timeout_s; OpConnect mac channel;
                    OpSendAll payload; OpClose])
              | None =>
                  let ops :=
                    [OpSocket; OpSetTimeout timeout_s; OpConnect mac channel;
                     OpSendAll payload; OpRecv 1024%Z; OpClose] in
                  match socket_recv layer 1024%Z with
                  | inr data =>
                      (Ok (match data with [] => None | _ :: _ => Some data end),
                       ops)
                  | inl (Timeout _) => (Ok None, ops)
                  | inl (OtherOSError exc) =>
                      (Raise (TransportSendError
                                ("RFCOMM receive failed: " ++ exc)), ops)
                  end
              end
          end
        else
          (Raise (ValueError "Timeout value out of range"),
           [OpSocket; OpSetTimeout timeout_s])
    end.

End Send.

End Rfcomm.

(** ** The command line ([budsctl/cli.py]) *)

Module Cli.

(** [isinstance(exc, BudsctlError)], after the classes of
    [budsctl/core/errors.py]. *)
Definition is_budsctl_error (e : exn) : bool :=
  match e with
  | PluginValidationError _ | PluginLoadError _ | DeviceSelectionError _
  | DeviceDiscoveryError _ | FeatureResolutionError _
  | TransportConnectError _ | TransportSendError _
  | TransportTimeoutError _ => true
  | TypeError _ | ValueError _ | KeyError _ | OSError _ | YAMLError _ => false
  end.

(** [str(exc)] of such an error: the message it was raised with. *)
Definition message (e : exn) : string :=
  match e with
  | PluginValidationError msg | PluginLoadError msg | DeviceSelectionError msg
  | DeviceDiscoveryError msg | FeatureResolutionError msg
  | TransportConnectError msg | TransportSendError msg
  | TransportTimeoutError msg => msg
  | TypeError msg | ValueError msg | KeyError msg | OSError msg
  | YAMLError msg => msg
  end.

(** A line written by [typer.echo], to the standard output or, with
    [err=True], to the standard error. *)
Inductive echo : Type :=
| Out (line : string)
| Err (line : string).

(** How a command ends: it returns, it raises [typer.Exit], or an
    exception leaves it. *)
Inductive ending : Type :=
| Returned
| Exit (code : Z)
| Uncaught (e : exn).

(** What [BudsService()] holds, once constructed. *)
Record BudsService : Type := mkBudsService {
  plugins : PyDict.t Plugin;
  load_warnings : list string;
  runtime_warnings : list string
}.


(** The lines [_build_service] writes. *)
Definition _build_service (service : BudsService) : list echo :=
  (List.map (fun warning => Err ("Warning: " ++ warning)) (load_warnings service)
   ++ List.map (fun warning => Err ("Warning: " ++ warning))
               (runtime_warnings service))%list.

(** The handler of every command: [except BudsctlError as exc], after
    the lines [written] so far. *)
Definition handle (written : list echo) (e : exn) : list echo * ending :=
  if is_budsctl_error e then
    ((written ++ [Err ("Error: " ++ message e)])%list, Exit 1%Z)
  else (written, Uncaught e).

(** [sorted(d.items())] of a dictionary: its items by key. *)
Definition sorted_items {V : Type} (d : PyDict.t V) : list (string * V) :=
  List.flat_map
    (fun k => match PyDict.get d k with Some v => [(k, v)] | None => [] end)
    (PyStr.sorted (PyDict.keys d)).

(** The command [list]. *)
Definition list_plugins (service : result BudsService) : list echo * ending :=
  match service with
  | Raise e => handle [] e
  | Ok service =>
      let written := _build_service service in
      let plugins := Service.list_plugins (plugins service) in
      if Service.is_empty plugins then
        ((written ++ [Out "No plugins loaded"])%list, Exit 1%Z)
      else
        ((written ++
          List.flat_map
            (fun p =>
               Out (id p ++ ": " ++ name p)
               :: List.map
                    (fun '(feature_name, spec) =>
                       Out ("  " ++ feature_name ++ ": " ++
                            PyStr.join ", " (PyStr.sorted (PyDict.keys (values spec)))))
                    (sorted_items (features p)))
            plugins)%list,
         Returned)
  end.

(** The command [devices]. *)
Definition list_devices (service : result BudsService)
           (discovered : result (list DetectedDevice)) : list echo * ending :=
  match service with
  | Raise e => handle [] e
  | Ok service =>
      let written := _build_service service in
      match discovered with
      | Raise e => handle written e
      | Ok devices =>
          if Service.is_empty devices then
            ((written ++ [Out "No Bluetooth devices found"])%list, Returned)
          else
            ((written ++
              List.map
                (fun d =>
                   let matched :=
                     match DeviceMatch.best_plugin_for_device
                             d (plugins service) with
                     | Some p => id p
                     | None => "<no-match>"
                     end in
                   Out (mac d ++ " " ++ device_name d ++ " -> " ++ matched))
                devices)%list,
             Returned)
      end
  end.

(** The command [features]. *)
Definition list_features (service : result BudsService)
           (discovered : result (list DetectedDevice))
           (device_ plugin_ : option string) : list echo * ending :=
  match service with
  | Raise e => handle [] e
  | Ok service =>
      let written := _build_service service in
      match Service.feature_catalog (plugins service) discovered
                                    plugin_ device_ with
      | Raise e => handle written e
      | Ok (target, catalog) =>
          ((written ++
            Out ("Target: " ++ mac (device target) ++ " (" ++
                 device_name (device target) ++ ") via " ++
                 id (plugin target))
            :: List.map
                 (fun '(feature_name, value_names) =>
                    Out ("  " ++ feature_name ++ ": " ++
                         PyStr.join ", " value_names))
                 (PyDict.items catalog))%list,
           Returned)
      end
  end.

(** The command [set]: the lines, the ending, and the calls made to the
    transports.  The parameters [feature], [value], [device] and [plugin]
    carry an underscore here, where those names are fields. *)
Definition set_feature (service : result BudsService)
           (discovered : result (list DetectedDevice))
           (send : Service.transports)
           (feature_ : string) (value_ device_ plugin_ : option string)
  : list echo * ending * list Service.send_call :=
  match service with
  | Raise e => (handle [] e, [])
  | Ok service =>
      let written := _build_service service in
      match value_ with
      | None =>
          match Service.feature_values (plugins service) discovered feature_
                                       plugin_ device_ with
          | Raise e => (handle written e, [])
          | Ok (target, value_names) =>
              let value_list := PyStr.join ", " value_names in
              ((written ++
                [Out ("Available values for '" ++ feature_ ++ "' on " ++
                      mac (device target) ++ " (" ++
                      id (plugin target) ++ "): " ++ value_list)])%list,
               Returned, [])
          end
      | Some v =>
          match Service.set_feature (plugins service) discovered send
                                    feature_ v plugin_ device_ with
          | (Raise e, calls) => (handle written e, calls)
          | (Ok result, calls) =>
              ((written ++
                Out ("Sent " ++ feature result ++ "=" ++ value result ++
                     " to " ++ mac (device (target result)) ++ " (" ++
                     id (plugin (target result)) ++ ") payload=" ++
                     payload_hex result)
                :: match PyStr.given (response_hex result) with
                   | Some response_hex => [Out ("response=" ++ response_hex)]
                   | None => []
                   end)%list,
               Returned, calls)
          end
      end
  end.

End Cli.

(* ================================================================== *)
(** * Part II: the vocabulary of the properties *)
(* ================================================================== *)

(** The device's MAC, uppercased, starts with a prefix of the plugin. *)
Definition mac_condition (d : DetectedDevice) (p : Plugin) : Prop :=
  exists prefix rest,
    In prefix (mac_prefix (match_ p)) /\
    PyStr.upper (mac d) = prefix ++ rest.

(** A token of the plugin occurs in the device's name, both lowercased. *)
Definition name_condition (d : DetectedDevice) (p : Plugin) : Prop :=
  exists token l r,
    In token (name_contains (match_ p)) /\
    PyStr.lower (device_name d) = l ++ PyStr.lower token ++ r.

(** The two variables of the loop of [best_plugin_for_device] agree:
    [best_score] is the score of [best], or 0 when there is none yet. *)
Definition loop_state_ok (d : DetectedDevice) (best : option Plugin) (bs : Z) : Prop :=
  match best with
  | None => bs = 0%Z
  | Some b => bs = DeviceMatch.match_score d b /\ (0 < bs)%Z
  end.

(** Every character of a string satisfies a test. *)
Fixpoint all_chars (f : ascii -> bool) (s : string) : bool :=
  match s with
  | EmptyString => true
  | String c s' => f c && all_chars f s'
  end.

Fixpoint last_char (s : string) : option ascii :=
  match s with
  | EmptyString => None
  | String c s' =>
      match last_char s' with Some x => Some x | None => Some c end
  end.

(** The normal form [_normalize_hex] computes: surrounding white space
    stripped, lowercased, space characters removed. *)
Definition hex_normal_form (value : string) : string :=
  PyStr.remove_spaces (PyStr.lower (PyStr.strip value)).

(** Removal of every white-space character, wherever it stands. *)
Fixpoint remove_whitespace (s : string) : string :=
  match s with
  | EmptyString => EmptyString
  | String c s' =>
      if PyStr.is_space c then remove_whitespace s'
      else String c (remove_whitespace s')
  end.

(** A normal form that is a well-formed payload: non-empty, of even
    length, hexadecimal digits only, at most 512 bytes. *)
Definition well_formed_hex (n : string) : Prop :=
  n <> EmptyString /\
  (String.length n mod 2 = 0)%nat /\
  all_chars PluginLoader.is_hex_lower n = true /\
  (String.length n <= 2 * 512)%nat.

(** A string of [k] copies of a character. *)
Fixpoint replicate (k : nat) (c : ascii) : string :=
  match k with
  | O => EmptyString
  | S k' => String c (replicate k' c)
  end.

Definition TAB : ascii := ascii_of_nat 9.
Definition LF : ascii := ascii_of_nat 10.

(** [needle] occurs in [hay]. *)
Definition occurs_in (needle hay : string) : Prop :=
  exists l r, hay = l ++ needle ++ r.

(** The plugin an explicit [plugin_id] selects, when it is given and
    known. *)
Definition plugin_override_of (plugins : PyDict.t Plugin)
           (plugin_id : option string) : option Plugin :=
  match PyStr.given plugin_id with
  | Some pid => PyDict.get plugins pid
  | None => None
  end.

(** An explicit [plugin_id] that the mapping does not hold. *)
Definition unknown_plugin (plugins : PyDict.t Plugin)
           (plugin_id : option string) : Prop :=
  exists pid, PyStr.given plugin_id = Some pid /\ PyDict.get plugins pid = None.

(** The candidates after plugin matching, before any hint. *)
Definition matched (plugins : PyDict.t Plugin) (plugin_id : option string)
           (devices : list DetectedDevice) : list ResolvedTarget :=
  Service.match_candidates plugins (plugin_override_of plugins plugin_id) devices.

(** The hint, lowercased, equals or occurs in one of the four fields of
    the candidate, taken as they are. *)
Definition hint_in_fields (dh : string) (c : ResolvedTarget) : Prop :=
  let hint := PyStr.lower dh in
  mac (device c) = hint \/
  occurs_in hint (mac (device c)) \/
  occurs_in hint (device_name (device c)) \/
  occurs_in hint (id (plugin c)) \/
  occurs_in hint (name (plugin c)).

(** The hint, lowercased, equals or occurs in one of the four fields of
    the candidate, lowercased. *)
Definition hint_in_lowered_fields (dh : string) (c : ResolvedTarget) : Prop :=
  let hint := PyStr.lower dh in
  PyStr.lower (mac (device c)) = hint \/
  occurs_in hint (PyStr.lower (mac (device c))) \/
  occurs_in hint (PyStr.lower (device_name (device c))) \/
  occurs_in hint (PyStr.lower (id (plugin c))) \/
  occurs_in hint (PyStr.lower (name (plugin c))).

(** The candidates that survive matching and the optional hint. *)
Definition survivors (plugins : PyDict.t Plugin)
           (plugin_id device_hint : option string)
           (devices : list DetectedDevice) : list ResolvedTarget :=
  match PyStr.given device_hint with
  | Some dh =>
      List.filter (Service.hint_matches (PyStr.lower dh))
                  (matched plugins plugin_id devices)
  | None => matched plugins plugin_id devices
  end.

(** The messages of [DeviceSelectionError]. *)
Definition msg_no_hint_match (dh : string) : string :=
  "No device found matching '" ++ dh ++ "'".

Definition msg_no_candidate (plugin_id : option string) : string :=
  match PyStr.given plugin_id with
  | Some pid => "No connected device matched plugin '" ++ pid ++ "'."
  | None =>
      "No connected device matched any plugin. Use --plugin to target explicitly or add a plugin."
  end.

Definition msg_multiple (cs : list ResolvedTarget) : string :=
  "Multiple candidate devices found: " ++
  PyStr.join ", "
    (List.map (fun c => mac (device c) ++ " (" ++ device_name (device c) ++ ")") cs) ++
  ". Use --device to choose one.".

(** *** YAML documents *)

(** The key of the implicit resolvers under which a scalar is looked up. *)
Definition first_char_of (value : string) : Yaml.first_char :=
  match value with
  | EmptyString => Yaml.NoChar
  | String c _ => Yaml.Char c
  end.

(** The test of the filter of [UniqueKeyLoader]. *)
Definition not_boolean (entry : string * Yaml.regexp) : bool :=
  let '(tag, _) := entry in negb (String.eqb tag Yaml.BOOL_TAG).

(** In the table of [yaml.SafeLoader], the only resolvers that match the
    word are resolvers of the boolean tag. *)
Definition only_boolean (safe : Yaml.implicit_resolvers) (word : string) : Prop :=
  forall tag regexp,
    In (tag, regexp)
       (Yaml.resolvers_for safe (first_char_of word) ++
        Yaml.resolvers_for safe Yaml.AnyChar)%list ->
    regexp word = true -> tag = Yaml.BOOL_TAG.

Section DuplicateKeys.
Variable construct_other : string -> string -> result Yaml.pyobj.
Variable scalar_eq : Yaml.pyobj -> Yaml.pyobj -> bool.
Variable scalar_str : string -> string -> string.



End DuplicateKeys.

(** A plain scalar, and a quoted one. *)
Definition plain (value : string) : Yaml.document := Yaml.Scalar None true value.
Definition quoted (value : string) : Yaml.document := Yaml.Scalar None false value.

(** Fixtures, after the project's tests. *)
Module Fixtures.

Definition anc_on : EnumFeature :=
  mkEnumFeature "enum" [("on", [xaa; x00]%byte)].

(** [_plugin] of [tests/test_device_match.py]. *)
Definition _plugin (plugin_id : string) (name_tokens mac_prefixes : list string)
  : Plugin :=
  mkPlugin plugin_id plugin_id (mkMatchRules name_tokens mac_prefixes)
           (mkTransportSpec "rfcomm" (Some 15%Z) None None None true 5.0%Q)
           [("anc", anc_on)].

Definition generic_earbuds : DetectedDevice :=
  mkDetectedDevice "88:92:CC:00:11:22" "Generic Earbuds".
Definition name_plugin : Plugin := _plugin "name" ["Generic"] ["AA:BB:CC"].
Definition mac_plugin : Plugin := _plugin "mac" ["Other"] ["88:92:CC"].

(** The packaged plugin as the tests and the specification show it. *)
Definition oneplus_buds4 : Plugin :=
  mkPlugin "oneplus_buds4" "OnePlus Buds 4"
           (mkMatchRules ["OnePlus Buds 4"] ["88:92:CC"])
           (mkTransportSpec "rfcomm" (Some 15%Z) None None None true 3.0%Q)
           [("anc", mkEnumFeature "enum"
               [("on", [xaa; x0a; x00; x00; x04; x04; x48; x03; x00; x01; x01; x02]%byte);
                ("off", [xaa; x0a; x00; x00; x04; x04; x48; x03; x00; x01; x01; x01]%byte)])].

Definition buds_a : DetectedDevice :=
  mkDetectedDevice "88:92:CC:11:22:33" "OnePlus Buds 4".
Definition buds_b : DetectedDevice :=
  mkDetectedDevice "88:92:CC:44:55:66" "OnePlus Buds 4 Pro".

Definition packaged : PyDict.t Plugin := [("oneplus_buds4", oneplus_buds4)].

(** The plugin and the device of [test_set_feature_ble_transport]. *)
Definition my_ble_buds : Plugin :=
  mkPlugin "my_ble_buds" "My BLE Buds"
           (mkMatchRules ["My BLE Buds"] ["AA:BB:CC"])
           (mkTransportSpec "ble" None
              (Some "0000180f-0000-1000-8000-00805f9b34fb")
              (Some "00002a19-0000-1000-8000-00805f9b34fb")
              (Some "00002a1a-0000-1000-8000-00805f9b34fb")
              false 2.0%Q)
           [("game_mode", mkEnumFeature "enum" [("on", [xaa; x01]%byte)])].

Definition ble_device : DetectedDevice :=
  mkDetectedDevice "AA:BB:CC:11:22:33" "My BLE Buds".

Definition with_ble : PyDict.t Plugin :=
  [("oneplus_buds4", oneplus_buds4); ("my_ble_buds", my_ble_buds)].

(** The user document of [test_user_plugin_override_packaged]. *)
Definition user_override : Plugin :=
  mkPlugin "oneplus_buds4" "User Override"
           (mkMatchRules ["OnePlus Buds 4"] ["88:92:CC"])
           (mkTransportSpec "rfcomm" (Some 16%Z) None None None true 3.0%Q)
           [("anc", anc_on)].

(** A second packaged document with the id of the first. *)
Definition oneplus_buds4_bis : Plugin :=
  mkPlugin "oneplus_buds4" "OnePlus Buds 4 (bis)"
           (mkMatchRules ["OnePlus Buds 4"] ["88:92:CC"])
           (mkTransportSpec "rfcomm" (Some 15%Z) None None None true 3.0%Q)
           [("anc", anc_on)].

(** Plugin files, each with the plugin its document builds to. *)
Definition files : list (string * Plugin) :=
  [("oneplus_buds4.yaml", oneplus_buds4);
   ("oneplus_buds4_bis.yaml", oneplus_buds4_bis);
   ("override.yaml", user_override)].

Definition read_file (path : string) : result Plugin :=
  match PyDict.get files path with
  | Some pl => Ok pl
  | None => Raise (PluginLoadError ("Could not read plugin file " ++ path))
  end.

Definition build_file (doc : Plugin) (path : string) : result Plugin := Ok doc.

(** The entries of the implicit resolvers of [yaml.SafeLoader] under the
    first characters of yes, no, on and off: the boolean words, and the
    null words under n. *)
Definition one_of (words : list string) : Yaml.regexp :=
  fun value => existsb (String.eqb value) words.

Definition bool_words : Yaml.regexp :=
  one_of ["yes"; "Yes"; "YES"; "no"; "No"; "NO"; "true"; "True"; "TRUE";
          "false"; "False"; "FALSE"; "on"; "On"; "ON"; "off"; "Off"; "OFF"].

Definition null_words : Yaml.regexp :=
  one_of ["~"; "null"; "Null"; "NULL"; EmptyString].

Definition safe_resolvers_yno : Yaml.implicit_resolvers :=
  [(Yaml.Char "y", [(Yaml.BOOL_TAG, bool_words)]);
   (Yaml.Char "n", [(Yaml.BOOL_TAG, bool_words); (Yaml.NULL_TAG, null_words)]);
   (Yaml.Char "o", [(Yaml.BOOL_TAG, bool_words)])].

(** Stand-ins for the other scalar types: kept as written, equal when
    written alike. *)
Definition keep_other (tag text : string) : result Yaml.pyobj :=
  Ok (Yaml.PyScalar tag text).

Definition same_text (a b : Yaml.pyobj) : bool :=
  match a, b with
  | Yaml.PyScalar t x, Yaml.PyScalar u y => String.eqb t u && String.eqb x y
  | _, _ => false
  end.

Definition as_written (tag text : string) : string := text.


End Fixtures.

(** What [resolve_target] makes of the survivors. *)
Definition outcome (plugin_id device_hint : option string)
           (s : list ResolvedTarget) : result ResolvedTarget :=
  match s with
  | [] =>
      Raise (DeviceSelectionError
               match PyStr.given device_hint with
               | Some dh => msg_no_hint_match dh
               | None => msg_no_candidate plugin_id
               end)
  | [c] => Ok c
  | _ :: _ :: _ => Raise (DeviceSelectionError (msg_multiple s))
  end.

(** The warning of an override. *)
Definition override_warning (plugin_id : string) : string :=
  "User plugin '" ++ plugin_id ++ "' overrides packaged plugin".

(** One warning for every document whose id is that of a document before
    it; [seen] holds the ids before the first of [docs]. *)
Fixpoint collision_warnings (seen : list string) (docs : list Plugin)
  : list string :=
  match docs with
  | [] => []
  | pl :: rest =>
      ((if existsb (String.eqb (id pl)) seen then [override_warning (id pl)] else [])
       ++ collision_warnings (id pl :: seen) rest)%list
  end.

(** The plugin a sequence of documents leaves under an id: the last one
    that carries it. *)
Definition last_with_id (docs : list Plugin) (i : string) : option Plugin :=
  List.find (fun pl => String.eqb (id pl) i) (List.rev docs).

(** Every path of [paths] reads and builds, into the plugins [pls]. *)
Definition all_built {path doc : Type}
           (_read_yaml : path -> result doc)
           (_build_plugin : doc -> path -> result Plugin)
           (paths : list path) (pls : list Plugin) : Prop :=
  Forall2 (fun p pl => (d <- _read_yaml p ;; _build_plugin d p) = Ok pl) paths pls.

(** The discovery mechanisms, in the order they are tried. *)
Definition all_commands : list (list string) :=
  (Service.bluetoothctl_commands ++ Service.fallback_commands)%list.

(** The mechanism ran and exited with a non-zero status. *)
Definition errored_out (run : Service.runner) (cmd : list string) : Prop :=
  exists r, run cmd = Some r /\ Service.returncode r <> 0%Z.

(** The mechanism ran and exited with status zero. *)
Definition succeeded (run : Service.runner) (cmd : list string) : Prop :=
  exists r, run cmd = Some r /\ Service.returncode r = 0%Z.

(** The mechanism exited with a non-zero status and said why: its error
    output is not blank. *)
Definition reported_error (run : Service.runner) (cmd : list string) : Prop :=
  exists r,
    run cmd = Some r /\ Service.returncode r <> 0%Z /\
    PyStr.strip (match Service.stderr r with Some e => e | None => EmptyString end)
    <> EmptyString.

Definition reported_error_b (run : Service.runner) (cmd : list string) : bool :=
  match run cmd with
  | Some r =>
      negb (Service.returncode r =? 0)%Z &&
      negb (String.eqb
              (PyStr.strip
                 (match Service.stderr r with Some e => e | None => EmptyString end))
              EmptyString)
  | None => false
  end.

(** The mechanism succeeded and a line of its output is a device. *)
Definition yields_device (run : Service.runner)
           (parse : string -> option (string * string))
           (cmd : list string) : Prop :=
  exists r line,
    run cmd = Some r /\ Service.returncode r = 0%Z /\
    In line (PyStr.splitlines (Service.stdout r)) /\ parse line <> None.

(** No mechanism finds a device. *)
Definition no_device_found (run : Service.runner) : Prop :=
  (forall cmd, In cmd Service.bluetoothctl_commands ->
               ~ yields_device run Service.bluetoothctl_line cmd) /\
  (forall cmd, In cmd Service.fallback_commands ->
               ~ yields_device run Service.hcitool_line cmd).

(** The variables [seen] and [devices] grow together. *)
Definition scan_in_step (st : Service.scan) : Prop :=
  List.length (Service.seen st) = List.length (Service.devices st).

(** A run in which the first command fails and says why, and the three
    others succeed and list nothing. *)
Definition run_first_fails (cmd : list string) : option Service.CompletedProcess :=
  match cmd with
  | ["bluetoothctl"; "devices"; "Connected"] =>
      Some (Service.mkCompletedProcess 1%Z EmptyString (Some "dbus crashed"))
  | _ => Some (Service.mkCompletedProcess 0%Z EmptyString (Some EmptyString))
  end.

(** A run in which every command succeeds and lists nothing. *)
Definition run_all_quiet (cmd : list string) : option Service.CompletedProcess :=
  Some (Service.mkCompletedProcess 0%Z EmptyString (Some EmptyString)).

(** *** Four statements of the specification, in its own words *)

(** Hex payloads: acceptance is decided on the lowercased string with all
    white space removed. *)
Definition stated_hex_acceptance (value context : string) : Prop :=
  (exists bs, PluginLoader._normalize_hex value context = Ok bs) <->
  well_formed_hex (remove_whitespace (PyStr.lower value)).

(** The hint: a matched candidate survives exactly when the lowercased
    hint equals or occurs in one of its four fields. *)
Definition stated_hint_filter (plugins : PyDict.t Plugin)
           (devices : list DetectedDevice) (plugin_id : option string)
           (dh : string) : Prop :=
  forall c,
    In c (survivors plugins plugin_id (Some dh) devices) <->
    In c (matched plugins plugin_id devices) /\ hint_in_fields dh c.

(** Merging: every document whose id is already in the mapping, packaged
    or not, adds one warning. *)
Definition stated_merge_warnings (bundled user : list Plugin)
           (loaded : PluginLoader.LoadedPlugins) : Prop :=
  PluginLoader.warnings loaded = collision_warnings [] (bundled ++ user)%list.

(** Discovery: it fails only when every mechanism errored out, and a run
    in which a mechanism succeeds and no device is found gives the empty
    list. *)
Definition stated_discovery_failure (run : Service.runner) : Prop :=
  ((exists msg, Service._discover_devices run = Raise (DeviceDiscoveryError msg)) ->
   forall cmd, In cmd all_commands -> errored_out run cmd) /\
  ((exists cmd, In cmd all_commands /\ succeeded run cmd) ->
   no_device_found run ->
   Service._discover_devices run = Ok []).

(** *** Vocabulary of the further properties (Part IV) *)

(** Some character of a string satisfies a test. *)
Fixpoint some_char (f : ascii -> bool) (s : string) : bool :=
  match s with
  | EmptyString => false
  | String c s' => f c || some_char f s'
  end.

(** A character of a normalized UUID: a lowercase hexadecimal digit or a
    dash. *)
Definition uuid_char (c : ascii) : bool :=
  PluginLoader.is_hex_lower c || Ascii.eqb c "-"%char.

(** The rows of the implicit resolvers of [yaml.SafeLoader] under the
    first characters of the boolean words. *)
Definition safe_resolvers_bool : Yaml.implicit_resolvers :=
  [(Yaml.Char "y", [(Yaml.BOOL_TAG, Fixtures.bool_words)]);
   (Yaml.Char "Y", [(Yaml.BOOL_TAG, Fixtures.bool_words)]);
   (Yaml.Char "n", [(Yaml.BOOL_TAG, Fixtures.bool_words);
                    (Yaml.NULL_TAG, Fixtures.null_words)]);
   (Yaml.Char "N", [(Yaml.BOOL_TAG, Fixtures.bool_words);
                    (Yaml.NULL_TAG, Fixtures.null_words)]);
   (Yaml.Char "t", [(Yaml.BOOL_TAG, Fixtures.bool_words)]);
   (Yaml.Char "T", [(Yaml.BOOL_TAG, Fixtures.bool_words)]);
   (Yaml.Char "f", [(Yaml.BOOL_TAG, Fixtures.bool_words)]);
   (Yaml.Char "F", [(Yaml.BOOL_TAG, Fixtures.bool_words)]);
   (Yaml.Char "o", [(Yaml.BOOL_TAG, Fixtures.bool_words)]);
   (Yaml.Char "O", [(Yaml.BOOL_TAG, Fixtures.bool_words)])].

(** Every payload of a table of values has between 1 and 512 bytes. *)
Definition payloads_in_bounds (values : PyDict.t (list byte)) : Prop :=
  forall value_name payload,
    PyDict.get values value_name = Some payload ->
    (1 <= List.length payload <= 512)%nat.

Definition features_in_bounds (features : PyDict.t EnumFeature) : Prop :=
  forall feature_name spec,
    PyDict.get features feature_name = Some spec ->
    feature_type spec = "enum" /\ payloads_in_bounds (values spec).

(** A transport that [set_feature] can dispatch on: RFCOMM with a channel,
    or BLE with non-empty service and write UUIDs. *)
Definition transport_well_formed (t : TransportSpec) : Prop :=
  (type t = "rfcomm" /\ exists ch, channel t = Some ch) \/
  (type t = "ble" /\
   exists su wu,
     service_uuid t = Some su /\ write_char_uuid t = Some wu /\
     su <> EmptyString /\ wu <> EmptyString).

(** The call [set_feature] makes for a payload, by the kind of the
    transport. *)
Definition call_for (target : ResolvedTarget) (payload : list byte)
  : option Service.send_call :=
  let t := transport (plugin target) in
  if String.eqb (type t) "rfcomm" then
    match channel t with
    | Some ch =>
        Some (Service.RfcommSend (mac (device target)) payload ch (timeout_s t))
    | None => None
    end
  else if String.eqb (type t) "ble" then
    match PyStr.given (service_uuid t), PyStr.given (write_char_uuid t) with
    | Some su, Some wu =>
        Some (Service.BleSend (mac (device target)) payload su wu
                              (notify_char_uuid t) (write_with_response t)
                              (timeout_s t))
    | _, _ => None
    end
  else None.

(** A document of the packaged plugin, and an accepting validator. *)
Definition oneplus_doc : PluginBuilder.PluginDoc :=
  PluginBuilder.mkPluginDoc "oneplus_buds4" "OnePlus Buds 4"
    (Some ["OnePlus Buds 4"]) (Some ["88:92:cc"])
    (PluginBuilder.mkTransportDoc "rfcomm" (Some 15%Z) None None None None None)
    [("anc", [("on", "AA0A 0000 0404 4803 0001 0102"); ("off", "aa0a00000404480300010101")])].

Definition accept_all (doc : PluginBuilder.PluginDoc)
  : option PluginBuilder.ValidationError := None.

(** The plugin built from [oneplus_doc]. *)
Definition built_oneplus : Plugin :=
  match PluginBuilder._build_plugin accept_all oneplus_doc "oneplus_buds4.yaml" with
  | Ok p => p
  | Raise _ => Fixtures.oneplus_buds4
  end.

(** A document with a transport of a kind that is not supported, and a
    validator that finds fault with the features of every document. *)
Definition usb_doc : PluginBuilder.PluginDoc :=
  PluginBuilder.mkPluginDoc "usb_buds" "USB Buds" None None
    (PluginBuilder.mkTransportDoc "usb" None None None None None None)
    [("anc", [("on", "aa00")])].

Definition reject_features (doc : PluginBuilder.PluginDoc)
  : option PluginBuilder.ValidationError :=
  Some (PluginBuilder.mkValidationError ["features"; "anc"]
          "'values' is a required property").

(** Every plugin of a mapping is stored under its own id. *)
Definition keyed_by_id (d : PyDict.t Plugin) : Prop :=
  forall k p, In (k, p) d -> k = id p.

(** A plugin is what one of the paths reads and builds into. *)
Definition built_from {path doc : Type}
           (_read_yaml : path -> result doc)
           (_build_plugin : doc -> path -> result Plugin)
           (paths : list path) (p : Plugin) : Prop :=
  exists source,
    In source paths /\ (d <- _read_yaml source ;; _build_plugin d source) = Ok p.

(** The order of [list_plugins]: by id, and strictly by id. *)
Definition id_le (p q : Plugin) : Prop := String.leb (id p) (id q) = true.
Definition id_lt (p q : Plugin) : Prop := id_le p q /\ id p <> id q.

(** A character of a discovered MAC: a digit, a letter from A to F, or
    a colon. *)
Definition is_mac_upper (c : ascii) : bool :=
  PyStr.in_range 48 57 c || PyStr.in_range 65 70 c || Ascii.eqb c ":"%char.

(** Seventeen such characters. *)
Definition mac_well_formed (m : string) : Prop :=
  String.length m = 17%nat /\ all_chars is_mac_upper m = true.

(** What a pass over the output of commands keeps true of its state:
    [seen] holds the MACs of [devices], none twice, and every device
    satisfies [Q]. *)
Definition scan_ok (Q : DetectedDevice -> Prop) (st : Service.scan) : Prop :=
  List.map mac (Service.devices st) = List.rev (Service.seen st) /\
  NoDup (Service.seen st) /\
  Forall Q (Service.devices st).

(** A run in which [bluetoothctl devices] lists one device and every
    other command fails and says why. *)
Definition run_one_listed (cmd : list string) : option Service.CompletedProcess :=
  match cmd with
  | ["bluetoothctl"; "devices"] =>
      Some (Service.mkCompletedProcess 0%Z
              "Device 88:92:cc:11:22:33 OnePlus Buds 4" (Some EmptyString))
  | _ => Some (Service.mkCompletedProcess 1%Z EmptyString (Some "not available"))
  end.

(** The same run, with [hcitool con] reporting a connection. *)
Definition run_one_listed_con (cmd : list string)
  : option Service.CompletedProcess :=
  match cmd with
  | ["hcitool"; "con"] =>
      Some (Service.mkCompletedProcess 0%Z
              "< ACL AA:BB:CC:11:22:33 handle 1 state 1 lm CENTRAL"
              (Some EmptyString))
  | _ => run_one_listed cmd
  end.

(** The socket is closed once, and that is the last call made. *)
Definition closed_last (ops : list Rfcomm.socket_op) : Prop :=
  exists before,
    ops = (before ++ [Rfcomm.OpClose])%list /\ ~ In Rfcomm.OpClose before.

(** A socket layer on which everything succeeds and nothing is received
    before the timeout. *)
Definition silent_layer : Rfcomm.socket_layer :=
  Rfcomm.mkSocketLayer true None (fun _ _ => None) (fun _ => None)
                       (fun _ => inl (Rfcomm.Timeout "timed out")).

(** The pairs [d] can be added one after the other to the dictionary
    [acc]: every key is hashable and is not yet a key when its turn
    comes. *)
Fixpoint fresh_from (scalar_eq : Yaml.pyobj -> Yaml.pyobj -> bool)
         (acc d : list (Yaml.pyobj * Yaml.pyobj)) : Prop :=
  match d with
  | [] => True
  | x :: rest =>
      Yaml.hashable (fst x) = true /\
      existsb (fun kv => Yaml.py_eq scalar_eq (fst kv) (fst x)) acc = false /\
      fresh_from scalar_eq (acc ++ [x])%list rest
  end.

(** A table in which a plain [12] is an integer and a plain [yes] a
    boolean. *)
Definition safe_resolvers_int : Yaml.implicit_resolvers :=
  [(Yaml.Char "1", [("tag:yaml.org,2002:int", Fixtures.one_of ["12"])]);
   (Yaml.Char "y", [(Yaml.BOOL_TAG, Fixtures.bool_words)])].

(** A parser that finds a mapping whose first key is a sequence. *)
Definition parse_sequence_key (content : string)
  : result (option Yaml.document) :=
  Ok (Some (Yaml.Mapping [(Yaml.Sequence [quoted "a"], quoted "b")])).

(** A line on the standard error. *)
Definition on_stderr (l : Cli.echo) : Prop :=
  match l with
  | Cli.Err _ => True
  | Cli.Out _ => False
  end.

(** How a command that does not return leaves things: nothing on the
    standard output; exit status 1 after the line of a [BudsctlError], or
    an exception of another class on its way out. *)
Definition reports_failure (run : list Cli.echo * Cli.ending) : Prop :=
  match snd run with
  | Cli.Returned => True
  | Cli.Exit code =>
      code = 1%Z /\ Forall on_stderr (fst run) /\
      exists e before,
        Cli.is_budsctl_error e = true /\
        fst run = (before ++ [Cli.Err ("Error: " ++ Cli.message e)])%list
  | Cli.Uncaught e =>
      Cli.is_budsctl_error e = false /\ Forall on_stderr (fst run)
  end.

(** A service with the packaged plugin and one warning of the runtime. *)
Definition packaged_service : Cli.BudsService :=
  Cli.mkBudsService Fixtures.packaged []
    ["Python runtime missing AF_BLUETOOTH/BTPROTO_RFCOMM; RFCOMM control commands will fail."].


(** A plugin without match rules. *)
Definition bare_plugin : Plugin := Fixtures._plugin "bare" [] [].

(** A plugin with the match rules replaced. *)
Definition with_rules (p : Plugin) (rules : MatchRules) : Plugin :=
  mkPlugin (id p) (name p) rules (transport p) (features p).

(* ================================================================== *)
(** * Part III: properties *)
(* ================================================================== *)

(** ** Strings *)

Section StringFacts.

Lemma startswith_iff (s p : string) :
  PyStr.startswith s p = true <-> exists rest, s = p ++ rest.
Proof.
  revert s; induction p as [|a p IH]; intros s; simpl.
  - split; [intros _; now exists s | reflexivity].
  - destruct s as [|b s].
    + split; [discriminate | intros [rest H]; discriminate].
    + rewrite andb_true_iff, Ascii.eqb_eq, IH. split.
      * intros [-> [rest ->]]. now exists rest.
      * intros [rest H]. injection H as -> ->. split; [reflexivity | now exists rest].
Qed.

Lemma contains_iff (needle hay : string) :
  PyStr.contains needle hay = true <->
  exists l r, hay = l ++ needle ++ r.
Proof.
  induction hay as [|c hay IH].
  - simpl. rewrite orb_false_r, startswith_iff. split.
    + intros [rest H]. exists "", rest. exact H.
    + intros [l [r H]]. destruct l; [now exists r | discriminate].
  - cbn [PyStr.contains]. rewrite orb_true_iff, startswith_iff, IH. split.
    + intros [[rest H] | [l [r H]]].
      * exists "", rest. exact H.
      * exists (String c l), r. simpl. now rewrite H.
    + intros [l [r H]]. destruct l as [|c' l].
      * left. now exists r.
      * right. simpl in H. injection H as _ H. now exists l, r.
Qed.

End StringFacts.

(** ** Device matching *)

Section DeviceMatchFacts.
Import DeviceMatch.

Lemma mac_prefix_match_iff d p :
  _mac_prefix_match (mac d) p = true <-> mac_condition d p.
Proof.
  unfold _mac_prefix_match, mac_condition. rewrite existsb_exists. split.
  - intros [x [Hin H]]. apply startswith_iff in H. destruct H as [rest H].
    now exists x, rest.
  - intros [x [rest [Hin H]]]. exists x. split; [exact Hin|].
    apply startswith_iff. now exists rest.
Qed.

Lemma name_contains_match_iff d p :
  _name_contains_match (device_name d) p = true <-> name_condition d p.
Proof.
  unfold _name_contains_match, name_condition. rewrite existsb_exists. split.
  - intros [x [Hin H]]. apply contains_iff in H. destruct H as [l [r H]].
    now exists x, l, r.
  - intros [x [l [r [Hin H]]]]. exists x. split; [exact Hin|].
    apply contains_iff. now exists l, r.
Qed.

(** C1. [match_score] is 3 exactly when the MAC condition and the name
    condition both hold, 2 exactly when only the MAC condition holds,
    1 exactly when only the name condition holds, and 0 exactly when
    neither holds. *)
Theorem match_score_spec (d : DetectedDevice) (p : Plugin) :
  (match_score d p = 3%Z <-> mac_condition d p /\ name_condition d p) /\
  (match_score d p = 2%Z <-> mac_condition d p /\ ~ name_condition d p) /\
  (match_score d p = 1%Z <-> ~ mac_condition d p /\ name_condition d p) /\
  (match_score d p = 0%Z <-> ~ mac_condition d p /\ ~ name_condition d p).
Proof.
  rewrite <- mac_prefix_match_iff, <- name_contains_match_iff.
  unfold match_score.
  destruct (_mac_prefix_match (mac d) p), (_name_contains_match (device_name d) p);
    simpl; repeat split; intros; try discriminate; try tauto;
    try (intuition congruence).
Qed.

End DeviceMatchFacts.

Section BestPluginFacts.
Import DeviceMatch.

Variable d : DetectedDevice.

Let score (p : Plugin) : Z := match_score d p.

Lemma match_score_range (p : Plugin) : (0 <= match_score d p <= 3)%Z.
Proof.
  unfold match_score.
  destruct (_mac_prefix_match (mac d) p), (_name_contains_match (device_name d) p);
    simpl; lia.
Qed.

Lemma best_loop_keeps (l : list Plugin) (best : option Plugin) (bs : Z) :
  Forall (fun q => (score q <= bs)%Z) l ->
  best_loop d l best bs = best.
Proof.
  revert best bs; induction l as [|q l IH]; intros best bs H; simpl.
  - reflexivity.
  - inversion H as [|? ? Hq Hl]; subst.
    destruct (Z.gtb_spec (match_score d q) bs) as [Hgt|Hle].
    + unfold score in Hq. lia.
    + now apply IH.
Qed.

Lemma best_loop_spec (l : list Plugin) (best : option Plugin) (bs : Z) :
  loop_state_ok d best bs ->
  (best_loop d l best bs = best /\ Forall (fun q => (score q <= bs)%Z) l) \/
  (exists p l1 l2,
      best_loop d l best bs = Some p /\ l = (l1 ++ p :: l2)%list /\
      (bs < score p)%Z /\
      Forall (fun q => (score q < score p)%Z) l1 /\
      Forall (fun q => (score q <= score p)%Z) l2).
Proof.
  revert best bs; induction l as [|q l IH]; intros best bs Hst; simpl.
  - left. split; [reflexivity | constructor].
  - destruct (Z.gtb_spec (match_score d q) bs) as [Hgt|Hle].
    + right.
      assert (Hst' : loop_state_ok d (Some q) (match_score d q)).
      { simpl. split; [reflexivity|]. destruct best; simpl in Hst; lia. }
      destruct (IH _ _ Hst') as [[Heq Hall] | (p & l1 & l2 & Heq & Hl & Hlt & H1 & H2)].
      * exists q, [], l.
        split; [exact Heq|]. split; [reflexivity|]. split; [exact Hgt|].
        split; [constructor | exact Hall].
      * exists p, (q :: l1), l2. subst l.
        split; [exact Heq|]. split; [reflexivity|].
        split; [unfold score in *; lia|].
        split; [|exact H2].
        constructor; [exact Hlt | exact H1].
    + destruct (IH _ _ Hst) as [[Heq Hall] | (p & l1 & l2 & Heq & Hl & Hlt & H1 & H2)].
      * left. split; [exact Heq|]. constructor; [exact Hle | exact Hall].
      * right. exists p, (q :: l1), l2. subst l.
        split; [exact Heq|]. split; [reflexivity|]. split; [exact Hlt|].
        split; [|exact H2].
        constructor; [unfold score in *; lia | exact H1].
Qed.

Lemma best_plugin_none_iff (plugins : PyDict.t Plugin) :
  best_plugin_for_device d plugins = None <->
  Forall (fun q => match_score d q = 0%Z) (PyDict.values plugins).
Proof.
  unfold best_plugin_for_device. split.
  - intros H.
    destruct (best_loop_spec (PyDict.values plugins) None 0%Z eq_refl)
      as [[_ Hall] | (p & l1 & l2 & Heq & _)].
    + eapply Forall_impl; [|exact Hall]. intros q Hq. cbv beta in Hq.
      pose proof (match_score_range q). unfold score in Hq. lia.
    + rewrite H in Heq. discriminate.
  - intros H. apply best_loop_keeps.
    eapply Forall_impl; [|exact H]. intros q Hq. cbv beta in Hq.
    unfold score. lia.
Qed.

Lemma best_plugin_some (plugins : PyDict.t Plugin) (p : Plugin) :
  best_plugin_for_device d plugins = Some p ->
  exists l1 l2,
    PyDict.values plugins = (l1 ++ p :: l2)%list /\
    (0 < match_score d p)%Z /\
    Forall (fun q => (match_score d q < match_score d p)%Z) l1 /\
    Forall (fun q => (match_score d q <= match_score d p)%Z) l2.
Proof.
  unfold best_plugin_for_device. intros H.
  destruct (best_loop_spec (PyDict.values plugins) None 0%Z eq_refl)
    as [[Heq _] | (p' & l1 & l2 & Heq & Hl & Hlt & H1 & H2)].
  - rewrite H in Heq. discriminate.
  - rewrite H in Heq. injection Heq as <-.
    exists l1, l2. repeat split; auto.
Qed.

End BestPluginFacts.

(** C2. [best_plugin_for_device] returns [None] exactly when every plugin
    of the mapping scores 0; otherwise it returns a plugin of the mapping
    whose score is positive and maximal, and which comes before every
    other plugin of the same score in the mapping's iteration order.  So a
    plugin of score 0 is never returned, and where the mapping holds a
    plugin of score 2 no plugin of score 1 is returned, whatever the
    order. *)
Theorem best_plugin_for_device_spec (d : DetectedDevice) (plugins : PyDict.t Plugin) :
  (DeviceMatch.best_plugin_for_device d plugins = None <->
   Forall (fun q => DeviceMatch.match_score d q = 0%Z) (PyDict.values plugins)) /\
  (forall p, DeviceMatch.best_plugin_for_device d plugins = Some p ->
     (exists l1 l2,
        PyDict.values plugins = (l1 ++ p :: l2)%list /\
        Forall (fun q => (DeviceMatch.match_score d q < DeviceMatch.match_score d p)%Z) l1 /\
        Forall (fun q => (DeviceMatch.match_score d q <= DeviceMatch.match_score d p)%Z) l2) /\
     DeviceMatch.match_score d p <> 0%Z /\
     (forall q, In q (PyDict.values plugins) ->
        DeviceMatch.match_score d q = 2%Z -> DeviceMatch.match_score d p <> 1%Z)) /\
  (forall ka kb a b,
     DeviceMatch.match_score d a = 2%Z -> DeviceMatch.match_score d b = 1%Z ->
     DeviceMatch.best_plugin_for_device d [(ka, a); (kb, b)] = Some a /\
     DeviceMatch.best_plugin_for_device d [(kb, b); (ka, a)] = Some a).
Proof.
  split; [apply best_plugin_none_iff|]. split.
  - intros p H. destruct (best_plugin_some d plugins p H) as (l1 & l2 & Hl & Hpos & H1 & H2).
    split; [now exists l1, l2|]. split; [lia|].
    intros q Hin Hq Hp. rewrite Hl in Hin. apply in_app_or in Hin.
    destruct Hin as [Hin | [<- | Hin]].
    + rewrite Forall_forall in H1. specialize (H1 q Hin). lia.
    + lia.
    + rewrite Forall_forall in H2. specialize (H2 q Hin). lia.
  - intros ka kb a b Ha Hb.
    unfold DeviceMatch.best_plugin_for_device, PyDict.values.
    cbn [List.map snd DeviceMatch.best_loop]. rewrite Ha, Hb.
    split; reflexivity.
Qed.

(** ** Hexadecimal payloads *)

Section HexFacts.
Import PluginLoader.

Lemma string_pair_ind (P : string -> Prop) :
  P EmptyString ->
  (forall a, P (String a EmptyString)) ->
  (forall a b s, P s -> P (String a (String b s))) ->
  forall s, P s.
Proof.
  intros H0 H1 H2.
  assert (H : forall s, P s /\ forall a, P (String a s)).
  { induction s as [|b s [IH1 IH2]]; split; auto. }
  intros s. apply H.
Qed.

Lemma last_char_cons (c : ascii) (s : string) :
  last_char (String c s) =
  match last_char s with Some x => Some x | None => Some c end.
Proof. reflexivity. Qed.

Lemma last_char_none (s : string) : last_char s = None <-> s = EmptyString.
Proof.
  destruct s as [|c s]; simpl; [split; reflexivity|].
  destruct (last_char s); split; discriminate.
Qed.

Lemma rstrip_last (s : string) (c : ascii) :
  last_char (PyStr.rstrip s) = Some c -> PyStr.is_space c = false.
Proof.
  induction s as [|a s IH]; [discriminate|].
  cbn [PyStr.rstrip]. destruct (PyStr.rstrip s) as [|b r] eqn:E.
  - destruct (PyStr.is_space a) eqn:Ha; [discriminate|].
    simpl. intros H; injection H as <-. exact Ha.
  - rewrite last_char_cons. destruct (last_char (String b r)) eqn:El.
    + intros H; injection H as <-. now apply IH.
    + apply last_char_none in El. discriminate.
Qed.

Lemma strip_last (s : string) (c : ascii) :
  last_char (PyStr.strip s) = Some c -> PyStr.is_space c = false.
Proof. apply rstrip_last. Qed.

Lemma map_last (f : ascii -> ascii) (s : string) :
  last_char (PyStr.map f s) = option_map f (last_char s).
Proof.
  induction s as [|a s IH]; [reflexivity|].
  cbn [PyStr.map]. rewrite !last_char_cons, IH.
  destruct (last_char s); reflexivity.
Qed.

Lemma to_lower_space (c : ascii) :
  PyStr.is_space (PyStr.to_lower c) = PyStr.is_space c.
Proof. destruct c as [[] [] [] [] [] [] [] []]; reflexivity. Qed.

Lemma space_is_space (c : ascii) :
  Ascii.eqb c " "%char = true -> PyStr.is_space c = true.
Proof. intros H. apply Ascii.eqb_eq in H. subst. reflexivity. Qed.

Lemma remove_spaces_last (s : string) (c : ascii) :
  last_char s = Some c -> PyStr.is_space c = false ->
  last_char (PyStr.remove_spaces s) = Some c.
Proof.
  intros Hl Hc. induction s as [|a s IH]; [discriminate|].
  rewrite last_char_cons in Hl. cbn [PyStr.remove_spaces].
  destruct (last_char s) as [x|] eqn:E.
  - injection Hl as ->. specialize (IH eq_refl).
    destruct (Ascii.eqb a " "); [exact IH|].
    rewrite last_char_cons, IH. reflexivity.
  - injection Hl as ->. apply last_char_none in E. subst s.
    destruct (Ascii.eqb c " ") eqn:Hs.
    + apply space_is_space in Hs. congruence.
    + reflexivity.
Qed.

(** The normal form never ends in white space: nothing for the [$] of
    [_HEX_RE] to skip. *)
Lemma hex_normal_form_last (value : string) (c : ascii) :
  last_char (hex_normal_form value) = Some c -> PyStr.is_space c = false.
Proof.
  unfold hex_normal_form, PyStr.lower. intros H.
  destruct (last_char (PyStr.strip value)) as [x|] eqn:E.
  - pose proof (strip_last _ _ E) as Hx.
    assert (Hlow : last_char (PyStr.map PyStr.to_lower (PyStr.strip value))
                   = Some (PyStr.to_lower x)).
    { rewrite map_last, E. reflexivity. }
    apply remove_spaces_last in Hlow; [|now rewrite to_lower_space].
    rewrite Hlow in H. injection H as <-. now rewrite to_lower_space.
  - apply last_char_none in E. rewrite E in H. discriminate.
Qed.

Lemma hex_re_tail_cases (s : string) :
  hex_re_tail s = true ->
  all_chars is_hex_lower s = true \/ last_char s = Some LF.
Proof.
  induction s as [|a s IH]; [now left|].
  cbn [hex_re_tail all_chars]. destruct (is_hex_lower a) eqn:Ha.
  - intros H. destruct (IH H) as [Hall | Hlast].
    + left. exact Hall.
    + right. rewrite last_char_cons, Hlast. reflexivity.
  - rewrite andb_true_iff, Ascii.eqb_eq, String.eqb_eq.
    intros [-> ->]. right. reflexivity.
Qed.

Lemma all_hex_re_tail (s : string) :
  all_chars is_hex_lower s = true -> hex_re_tail s = true.
Proof.
  induction s as [|a s IH]; [reflexivity|].
  cbn [hex_re_tail all_chars]. rewrite andb_true_iff. intros [-> H]. auto.
Qed.

Lemma HEX_RE_match_normal_form (value : string) :
  _HEX_RE_match (hex_normal_form value) = true <->
  hex_normal_form value <> EmptyString /\
  all_chars is_hex_lower (hex_normal_form value) = true.
Proof.
  pose proof (hex_normal_form_last value) as Hlast.
  destruct (hex_normal_form value) as [|a n] eqn:E.
  - simpl. split; [discriminate | intros [H _]; congruence].
  - cbn [_HEX_RE_match all_chars]. rewrite !andb_true_iff. split.
    + intros [Ha Ht]. split; [discriminate|]. split; [exact Ha|].
      destruct (hex_re_tail_cases _ Ht) as [Hall | Hl]; [exact Hall|].
      specialize (Hlast LF). rewrite last_char_cons, Hl in Hlast.
      specialize (Hlast eq_refl). discriminate.
    + intros [_ [Ha Hall]]. split; [exact Ha | now apply all_hex_re_tail].
Qed.

End HexFacts.

Section FromHexFacts.
Import PluginLoader.

(** A lowercase hexadecimal digit is no white space, has a value below
    16, and is the digit [bytes.hex] prints for that value. *)
Lemma hex_lower_char (c : ascii) :
  is_hex_lower c = true ->
  PyBytes.is_ascii_space c = false /\
  exists h, PyBytes.hex_val c = Some h /\ (h < 16)%N /\ PyBytes.hex_digit h = c.
Proof.
  destruct c as [[] [] [] [] [] [] [] []]; intros H; try discriminate H;
    (split; [reflexivity | eexists; split; [reflexivity | split; reflexivity]]).
Qed.

Lemma N_of_byte_of_N (n : N) :
  (n < 256)%N -> PyBytes.N_of_byte (PyBytes.byte_of_N n) = n.
Proof.
  intros H. unfold PyBytes.N_of_byte, PyBytes.byte_of_N.
  rewrite ascii_of_byte_of_ascii. now apply N_ascii_embedding.
Qed.

Lemma hex_of_pair (h l : N) (rest : list byte) :
  (h < 16)%N -> (l < 16)%N ->
  PyBytes.hex (PyBytes.byte_of_N (16 * h + l) :: rest) =
  String (PyBytes.hex_digit h) (String (PyBytes.hex_digit l) (PyBytes.hex rest)).
Proof.
  intros Hh Hl. cbn [PyBytes.hex]. rewrite N_of_byte_of_N by lia.
  replace ((16 * h + l) / 16)%N with h
    by (apply N.div_unique with (r := l); lia).
  replace ((16 * h + l) mod 16)%N with l
    by (apply N.mod_unique with (q := h); lia).
  reflexivity.
Qed.

Lemma mod2_SS (k : nat) : (S (S k) mod 2 = k mod 2)%nat.
Proof.
  replace (S (S k)) with (k + 1 * 2)%nat by lia.
  apply Nat.Div0.mod_add.
Qed.

(** On an even number of lowercase digits, [bytes.fromhex] succeeds and
    [bytes.hex] prints the digits back. *)
Lemma fromhex_hex_lower (s : string) :
  all_chars is_hex_lower s = true ->
  (String.length s mod 2 = 0)%nat ->
  exists bs, PyBytes.fromhex s = Ok bs /\ PyBytes.hex bs = s /\
             (2 * List.length bs = String.length s)%nat.
Proof.
  induction s as [| a | a b s IH] using string_pair_ind.
  - intros _ _. exists []. repeat split.
  - intros _ H. discriminate H.
  - cbn [all_chars String.length]. rewrite !andb_true_iff, mod2_SS.
    intros [Ha [Hb Hs]] Hlen.
    destruct (IH Hs Hlen) as (bs & Hbs & Hhex & Hl).
    destruct (hex_lower_char a Ha) as (Hsa & ha & Hva & Hha & Hda).
    destruct (hex_lower_char b Hb) as (_ & hb & Hvb & Hhb & Hdb).
    exists (PyBytes.byte_of_N (16 * ha + hb) :: bs).
    cbn [PyBytes.fromhex]. rewrite Hsa, Hva, Hvb, Hbs. cbn [bind].
    split; [reflexivity|]. split.
    + rewrite hex_of_pair by assumption. now rewrite Hda, Hdb, Hhex.
    + cbn [List.length]. lia.
Qed.

Lemma length_zero_iff (s : string) :
  (String.length s =? 0)%nat = true <-> s = EmptyString.
Proof. destruct s; simpl; split; congruence. Qed.

(** [_normalize_hex] written over the normal form. *)
Lemma normalize_hex_ok_iff (value context : string) :
  (exists bs, _normalize_hex value context = Ok bs) <->
  well_formed_hex (hex_normal_form value).
Proof.
  unfold _normalize_hex, well_formed_hex. fold (hex_normal_form value).
  pose proof (HEX_RE_match_normal_form value) as Hre.
  set (n := hex_normal_form value) in *.
  destruct (String.length n =? 0)%nat eqn:E0.
  { apply length_zero_iff in E0. split; [intros [bs H]; discriminate H|].
    intros [H _]. congruence. }
  assert (Hn : n <> EmptyString).
  { intros ->. discriminate E0. }
  destruct (String.length n mod 2 =? 0)%nat eqn:E2; cbn [negb].
  2:{ apply Nat.eqb_neq in E2. split; [intros [bs H]; discriminate H|].
      intros (_ & H & _). congruence. }
  apply Nat.eqb_eq in E2.
  destruct (_HEX_RE_match n) eqn:Em; cbn [negb].
  2:{ split; [intros [bs H]; discriminate H|].
      intros (_ & _ & H & _).
      assert (Hm : false = true) by (apply Hre; auto). discriminate Hm. }
  destruct (proj1 Hre eq_refl) as [_ Hall].
  destruct (fromhex_hex_lower n Hall E2) as (bs & Hbs & Hhex & Hl).
  rewrite Hbs. cbn [bind]. unfold _MAX_PAYLOAD_BYTES.
  destruct (Nat.ltb_spec 512 (List.length bs)) as [Hgt | Hle].
  - split; [intros [x H]; discriminate H|]. intros (_ & _ & _ & H). lia.
  - split; [intros _ | intros _; now exists bs].
    repeat split; auto. lia.
Qed.

Lemma normalize_hex_ok_bytes (value context : string) (bs : list byte) :
  _normalize_hex value context = Ok bs ->
  PyBytes.hex bs = hex_normal_form value /\
  (1 <= List.length bs <= 512)%nat.
Proof.
  intros H.
  assert (Hwf : well_formed_hex (hex_normal_form value)).
  { apply (normalize_hex_ok_iff value context). now exists bs. }
  destruct Hwf as (Hn & H2 & Hall & Hlen).
  destruct (fromhex_hex_lower _ Hall H2) as (bs' & Hbs & Hhex & Hl).
  revert H. unfold _normalize_hex. fold (hex_normal_form value).
  destruct (String.length (hex_normal_form value) =? 0)%nat; [discriminate|].
  destruct (negb _); [discriminate|].
  destruct (negb _); [discriminate|].
  rewrite Hbs. cbn [bind].
  destruct (_ <? _)%nat; [discriminate|].
  intros H; injection H as <-. split; [exact Hhex|].
  assert (Hpos : (String.length (hex_normal_form value) <> 0)%nat).
  { intros E. apply Hn. apply length_zero_iff. now apply Nat.eqb_eq. }
  lia.
Qed.

Lemma normalize_hex_total (value context : string) :
  (exists bs, _normalize_hex value context = Ok bs) \/
  (exists msg, _normalize_hex value context = Raise (PluginValidationError msg)).
Proof.
  destruct (_normalize_hex value context) as [bs | e] eqn:E;
    [left; now exists bs | right].
  revert E. unfold _normalize_hex. fold (hex_normal_form value).
  pose proof (HEX_RE_match_normal_form value) as Hre.
  set (n := hex_normal_form value) in *.
  destruct (String.length n =? 0)%nat;
    [intros E; injection E as <-; eexists; reflexivity|].
  destruct (String.length n mod 2 =? 0)%nat eqn:E2; cbn [negb];
    [|intros E; injection E as <-; eexists; reflexivity].
  destruct (_HEX_RE_match n) eqn:Em; cbn [negb];
    [|intros E; injection E as <-; eexists; reflexivity].
  apply Nat.eqb_eq in E2. destruct (proj1 Hre eq_refl) as [_ Hall].
  destruct (fromhex_hex_lower n Hall E2) as (bs & Hbs & _).
  rewrite Hbs. cbn [bind].
  destruct (_ <? _)%nat; [|discriminate].
  intros E; injection E as <-; eexists; reflexivity.
Qed.

End FromHexFacts.

(** C6 (as amended). [_normalize_hex] accepts a payload string exactly when
    its normal form - surrounding white space stripped, lowercased, space
    characters removed - is non-empty, of even length, made of hexadecimal
    digits only and no longer than 512 bytes; the bytes produced are those
    the normal form spells, between 1 and 512 of them; every other string
    raises [PluginValidationError].  ["AA 00"] gives the bytes [0xAA 0x00];
    ["xyz"], ["a"] and a payload of 1026 digits are rejected. *)
Theorem normalize_hex_spec (value context : string) :
  ((exists bs, PluginLoader._normalize_hex value context = Ok bs) <->
   well_formed_hex (hex_normal_form value)) /\
  (forall bs, PluginLoader._normalize_hex value context = Ok bs ->
     PyBytes.hex bs = hex_normal_form value /\
     (1 <= List.length bs <= 512)%nat) /\
  ((exists bs, PluginLoader._normalize_hex value context = Ok bs) \/
   (exists msg, PluginLoader._normalize_hex value context =
                Raise (PluginValidationError msg))) /\
  PluginLoader._normalize_hex "AA 00" context = Ok [xaa; x00]%byte /\
  (exists msg, PluginLoader._normalize_hex "xyz" context =
               Raise (PluginValidationError msg)) /\
  (exists msg, PluginLoader._normalize_hex "a" context =
               Raise (PluginValidationError msg)) /\
  (exists msg, PluginLoader._normalize_hex (replicate 1026 "a") context =
               Raise (PluginValidationError msg)).
Proof.
  split; [apply normalize_hex_ok_iff|].
  split; [apply normalize_hex_ok_bytes|].
  split; [apply normalize_hex_total|].
  split; [reflexivity|].
  split; [eexists; reflexivity|].
  split; [eexists; reflexivity|].
  eexists. vm_compute. reflexivity.
Qed.

Lemma normalize_hex_spec_witness :
  PyBytes.hex [xaa; x00]%byte = hex_normal_form "AA 00" /\
  (1 <= List.length [xaa; x00]%byte <= 512)%nat.
Proof.
  exact (proj1 (proj2 (normalize_hex_spec "AA 00" "p.anc.on")) _ eq_refl).
Defined.

(** C6 as stated fails on white space inside the payload other than the
    space character: with every white-space character removed,
    ["aa<TAB>00"] is the well-formed ["aa00"], but [_normalize_hex] keeps
    the TAB and rejects the string for its odd length. *)
Lemma normalize_hex_inner_tab_rejected :
  ~ stated_hex_acceptance ("aa" ++ String TAB "00") "p.anc.on".
Proof.
  intros [_ H].
  assert (Hwf : well_formed_hex
                  (remove_whitespace (PyStr.lower ("aa" ++ String TAB "00")))).
  { unfold well_formed_hex. vm_compute.
    repeat split; try discriminate. repeat constructor. }
  destruct (H Hwf) as [bs Hbs]. discriminate Hbs.
Qed.

Lemma best_plugin_for_device_spec_witness :
  (DeviceMatch.best_plugin_for_device Fixtures.generic_earbuds
     [("mac", Fixtures.mac_plugin); ("name", Fixtures.name_plugin)]
   = Some Fixtures.mac_plugin /\
   DeviceMatch.best_plugin_for_device Fixtures.generic_earbuds
     [("name", Fixtures.name_plugin); ("mac", Fixtures.mac_plugin)]
   = Some Fixtures.mac_plugin) /\
  DeviceMatch.match_score Fixtures.generic_earbuds Fixtures.mac_plugin <> 0%Z.
Proof.
  split.
  - exact (proj2 (proj2 (best_plugin_for_device_spec Fixtures.generic_earbuds []))
             "mac" "name" Fixtures.mac_plugin Fixtures.name_plugin eq_refl eq_refl).
  - exact (proj1 (proj2 (proj1 (proj2 (best_plugin_for_device_spec
             Fixtures.generic_earbuds
             [("name", Fixtures.name_plugin); ("mac", Fixtures.mac_plugin)]))
             Fixtures.mac_plugin eq_refl))).
Defined.

(** ** Target resolution *)

Section ResolveFacts.
Import Service.

Variable plugins : PyDict.t Plugin.

Lemma resolve_target_unknown (devices : list DetectedDevice)
      (plugin_id device_hint : option string) (pid : string) :
  devices <> [] ->
  PyStr.given plugin_id = Some pid -> PyDict.get plugins pid = None ->
  resolve_target plugins (Ok devices) plugin_id device_hint =
  Raise (DeviceSelectionError
           ("Unknown plugin '" ++ pid ++
            "'. Use 'budsctl list' to inspect available plugins.")).
Proof.
  intros Hd Hg Hget. destruct devices as [|d ds]; [contradiction|].
  unfold resolve_target. cbn [bind is_empty]. rewrite Hg, Hget. reflexivity.
Qed.

Lemma resolve_target_known (devices : list DetectedDevice)
      (plugin_id device_hint : option string) :
  devices <> [] ->
  ~ unknown_plugin plugins plugin_id ->
  resolve_target plugins (Ok devices) plugin_id device_hint =
  outcome plugin_id device_hint
          (survivors plugins plugin_id device_hint devices).
Proof.
  intros Hd Hk. destruct devices as [|d ds]; [contradiction|].
  unfold resolve_target, survivors, matched, plugin_override_of.
  cbn [bind is_empty].
  assert (Hov :
    match PyStr.given plugin_id with
    | Some pid =>
        match PyDict.get plugins pid with
        | Some p0 => Ok (Some p0)
        | None =>
            Raise (DeviceSelectionError
                     ("Unknown plugin '" ++ pid ++
                      "'. Use 'budsctl list' to inspect available plugins."))
        end
    | None => Ok None
    end =
    Ok (match PyStr.given plugin_id with
        | Some pid => PyDict.get plugins pid
        | None => None
        end)).
  { destruct (PyStr.given plugin_id) as [pid|] eqn:Hg; [|reflexivity].
    destruct (PyDict.get plugins pid) eqn:Hget; [reflexivity|].
    exfalso. apply Hk. now exists pid. }
  rewrite Hov. cbn [bind].
  set (cands := match_candidates plugins _ (d :: ds)).
  unfold outcome, msg_multiple, msg_no_hint_match, msg_no_candidate.
  destruct (PyStr.given device_hint) as [dh|].
  - destruct (filter (hint_matches (PyStr.lower dh)) cands) as [|c [|c' cs]];
      reflexivity.
  - cbn [bind]. clearbody cands. clear Hov.
    destruct cands as [|c [|c' cs]]; try reflexivity.
    destruct (PyStr.given plugin_id); reflexivity.
Qed.

Lemma single_plugin_match (d : DetectedDevice) (p : Plugin) :
  DeviceMatch.best_plugin_for_device d [(id p, p)] =
  if (0 <? DeviceMatch.match_score d p)%Z then Some p else None.
Proof.
  unfold DeviceMatch.best_plugin_for_device. cbn.
  rewrite Z.gtb_ltb. reflexivity.
Qed.

(** With an override every device is tried against that plugin alone. *)
Lemma match_candidates_override (p : Plugin) (devices : list DetectedDevice) :
  match_candidates plugins (Some p) devices =
  List.map (fun d => mkResolvedTarget d p)
           (List.filter (fun d => (0 <? DeviceMatch.match_score d p)%Z) devices).
Proof.
  induction devices as [|d ds IH]; [reflexivity|].
  cbn [match_candidates filter]. rewrite single_plugin_match.
  destruct (0 <? DeviceMatch.match_score d p)%Z; cbn [List.map]; now rewrite IH.
Qed.

(** Without one, every device goes with its best plugin, if any. *)
Lemma match_candidates_best (devices : list DetectedDevice) (c : ResolvedTarget) :
  In c (match_candidates plugins None devices) <->
  In (device c) devices /\
  DeviceMatch.best_plugin_for_device (device c) plugins = Some (plugin c).
Proof.
  induction devices as [|d ds IH]; [simpl; tauto|].
  cbn [match_candidates].
  destruct (DeviceMatch.best_plugin_for_device d plugins) as [q|] eqn:E.
  - cbn [In]. rewrite IH. split.
    + intros [<- | [H1 H2]]; [simpl; auto | auto].
    + intros [[Hd | H1] H2]; [left | right; auto].
      destruct c as [cd cp]. simpl in *. subst cd.
      rewrite E in H2. now injection H2 as ->.
  - rewrite IH. cbn [In]. split; [tauto|].
    intros [[Hd | H1] H2]; [|auto].
    rewrite <- Hd, E in H2. discriminate H2.
Qed.

Lemma hint_matches_iff (dh : string) (c : ResolvedTarget) :
  hint_matches (PyStr.lower dh) c = true <-> hint_in_lowered_fields dh c.
Proof.
  unfold hint_matches, hint_in_lowered_fields, occurs_in.
  rewrite !orb_true_iff, String.eqb_eq, !contains_iff. tauto.
Qed.

End ResolveFacts.

(** C4 (as amended). A given hint is applied to the candidates that
    plugin matching produced, and to nothing else: a matched candidate is
    kept exactly when the lowercased hint equals the lowercased MAC or
    occurs in the lowercased MAC, device name, plugin id or plugin name.
    When none is kept, [resolve_target] fails with the error that no device
    matched the hint, whatever the matching had found; otherwise the kept
    candidates alone decide the result. *)
Theorem resolve_target_hint_spec
        (plugins : PyDict.t Plugin) (devices : list DetectedDevice)
        (plugin_id device_hint : option string) (dh : string) :
  devices <> [] ->
  ~ unknown_plugin plugins plugin_id ->
  PyStr.given device_hint = Some dh ->
  exists keep : ResolvedTarget -> bool,
    (forall c, keep c = true <-> hint_in_lowered_fields dh c) /\
    let hinted := List.filter keep (matched plugins plugin_id devices) in
    (hinted = [] ->
     Service.resolve_target plugins (Ok devices) plugin_id device_hint =
     Raise (DeviceSelectionError ("No device found matching '" ++ dh ++ "'"))) /\
    (forall c, hinted = [c] ->
     Service.resolve_target plugins (Ok devices) plugin_id device_hint = Ok c) /\
    ((1 < List.length hinted)%nat ->
     Service.resolve_target plugins (Ok devices) plugin_id device_hint =
     Raise (DeviceSelectionError (msg_multiple hinted))).
Proof.
  intros Hd Hk Hg. exists (Service.hint_matches (PyStr.lower dh)).
  split; [intros c; apply hint_matches_iff|].
  rewrite (resolve_target_known plugins devices plugin_id device_hint Hd Hk).
  unfold survivors. rewrite Hg. cbv zeta.
  set (hinted := filter _ _). unfold outcome. rewrite Hg.
  split; [intros ->; reflexivity|].
  split; [intros c ->; reflexivity|].
  destruct hinted as [|c [|c' cs]]; simpl; intros H; try lia. reflexivity.
Qed.

Lemma resolve_target_hint_spec_witness :
  exists keep : ResolvedTarget -> bool,
    (forall c, keep c = true <-> hint_in_lowered_fields "11:22:33" c) /\
    let hinted :=
      List.filter keep
        (matched Fixtures.packaged None [Fixtures.buds_a; Fixtures.buds_b]) in
    (hinted = [] ->
     Service.resolve_target Fixtures.packaged
       (Ok [Fixtures.buds_a; Fixtures.buds_b]) None (Some "11:22:33") =
     Raise (DeviceSelectionError ("No device found matching '" ++ "11:22:33" ++ "'"))) /\
    (forall c, hinted = [c] ->
     Service.resolve_target Fixtures.packaged
       (Ok [Fixtures.buds_a; Fixtures.buds_b]) None (Some "11:22:33") = Ok c) /\
    ((1 < List.length hinted)%nat ->
     Service.resolve_target Fixtures.packaged
       (Ok [Fixtures.buds_a; Fixtures.buds_b]) None (Some "11:22:33") =
     Raise (DeviceSelectionError (msg_multiple hinted))).
Proof.
  apply (resolve_target_hint_spec Fixtures.packaged
           [Fixtures.buds_a; Fixtures.buds_b] None (Some "11:22:33") "11:22:33").
  - discriminate.
  - intros (pid & H & _). discriminate H.
  - reflexivity.
Defined.

(** C4 as stated fails where the hint has letters: the hint ["AA:BB:CC"],
    lowercased, occurs in none of the candidate's fields as they are (the
    MAC is uppercase), and yet the candidate is kept and returned, as the
    project's BLE test expects. *)
Lemma resolve_target_hint_raw_fields_fail :
  ~ stated_hint_filter Fixtures.with_ble [Fixtures.ble_device]
                       (Some "my_ble_buds") "AA:BB:CC".
Proof.
  intros H.
  pose (c := mkResolvedTarget Fixtures.ble_device Fixtures.my_ble_buds).
  assert (Hres : Service.resolve_target Fixtures.with_ble (Ok [Fixtures.ble_device])
                   (Some "my_ble_buds") (Some "AA:BB:CC") = Ok c)
    by reflexivity.
  assert (Hin : In c (survivors Fixtures.with_ble (Some "my_ble_buds")
                                (Some "AA:BB:CC") [Fixtures.ble_device]))
    by (left; reflexivity).
  apply H in Hin. destruct Hin as [_ Hf]. revert Hf.
  unfold hint_in_fields, occurs_in. cbv zeta.
  rewrite <- !contains_iff.
  intros [Hf | [Hf | [Hf | [Hf | Hf]]]]; vm_compute in Hf; discriminate Hf.
Qed.

(** C5. Once the devices are there: an explicit plugin id that the mapping
    does not hold fails with the [DeviceSelectionError] of an unknown
    plugin; with an override the
    candidates are the devices that score above 0 against that plugin, each
    paired with it, and without one each device is paired with its best
    plugin; after matching and the optional hint, no survivor fails with
    [DeviceSelectionError] - with the message that names the plugin
    override, or says there was none, when it is this last check that
    fails - several survivors fail with the message that lists the MAC and
    name of each, and the result is a candidate exactly when it is the only
    survivor. *)
Theorem resolve_target_spec
        (plugins : PyDict.t Plugin) (devices : list DetectedDevice)
        (plugin_id device_hint : option string) :
  devices <> [] ->
  (forall pid,
     PyStr.given plugin_id = Some pid -> PyDict.get plugins pid = None ->
     Service.resolve_target plugins (Ok devices) plugin_id device_hint =
     Raise (DeviceSelectionError
              ("Unknown plugin '" ++ pid ++
               "'. Use 'budsctl list' to inspect available plugins."))) /\
  (forall p, plugin_override_of plugins plugin_id = Some p ->
     matched plugins plugin_id devices =
     List.map (fun d => mkResolvedTarget d p)
       (List.filter (fun d => (0 <? DeviceMatch.match_score d p)%Z) devices)) /\
  (PyStr.given plugin_id = None ->
     forall c, In c (matched plugins plugin_id devices) <->
               In (device c) devices /\
               DeviceMatch.best_plugin_for_device (device c) plugins = Some (plugin c)) /\
  (~ unknown_plugin plugins plugin_id ->
   let s := survivors plugins plugin_id device_hint devices in
   (s = [] ->
    (exists msg,
       Service.resolve_target plugins (Ok devices) plugin_id device_hint =
       Raise (DeviceSelectionError msg)) /\
    (PyStr.given device_hint = None ->
     Service.resolve_target plugins (Ok devices) plugin_id device_hint =
     Raise (DeviceSelectionError (msg_no_candidate plugin_id)))) /\
   ((1 < List.length s)%nat ->
    Service.resolve_target plugins (Ok devices) plugin_id device_hint =
    Raise (DeviceSelectionError (msg_multiple s))) /\
   (forall c,
      Service.resolve_target plugins (Ok devices) plugin_id device_hint = Ok c <->
      s = [c])).
Proof.
  intros Hd. split; [|split; [|split]].
  - intros pid Hg Hget.
    apply (resolve_target_unknown plugins devices plugin_id device_hint pid); auto.
  - intros p Hp. unfold matched. rewrite Hp. apply match_candidates_override.
  - intros Hg c. unfold matched, plugin_override_of. rewrite Hg.
    apply match_candidates_best.
  - intros Hk. cbv zeta.
    rewrite (resolve_target_known plugins devices plugin_id device_hint Hd Hk).
    destruct (survivors plugins plugin_id device_hint devices) as [|c [|c' cs]];
      unfold outcome.
    + split; [|split].
      * intros _. split; [eexists; reflexivity|]. now intros ->.
      * simpl. lia.
      * intros c. split; discriminate.
    + split; [|split].
      * discriminate.
      * simpl. lia.
      * intros x. split; congruence.
    + split; [|split].
      * discriminate.
      * reflexivity.
      * intros x. split; discriminate.
Qed.

Lemma resolve_target_spec_witness :
  Service.resolve_target Fixtures.packaged
    (Ok [Fixtures.buds_a; Fixtures.buds_b]) None None =
  Raise (DeviceSelectionError
           "Multiple candidate devices found: 88:92:CC:11:22:33 (OnePlus Buds 4), 88:92:CC:44:55:66 (OnePlus Buds 4 Pro). Use --device to choose one.") /\
  Service.resolve_target Fixtures.packaged
    (Ok [Fixtures.buds_a; Fixtures.buds_b]) (Some "nope") None =
  Raise (DeviceSelectionError
           ("Unknown plugin '" ++ "nope" ++
            "'. Use 'budsctl list' to inspect available plugins.")) /\
  Service.resolve_target Fixtures.packaged (Ok [Fixtures.buds_a]) None None =
  Ok (mkResolvedTarget Fixtures.buds_a Fixtures.oneplus_buds4).
Proof.
  assert (Hnone : ~ unknown_plugin Fixtures.packaged None).
  { intros (pid & H & _). discriminate H. }
  split; [|split].
  - destruct (resolve_target_spec Fixtures.packaged
                [Fixtures.buds_a; Fixtures.buds_b] None None)
      as (_ & _ & _ & H); [discriminate|].
    destruct (H Hnone) as (_ & Hmany & _). apply Hmany.
    vm_compute. repeat constructor.
  - destruct (resolve_target_spec Fixtures.packaged
                [Fixtures.buds_a; Fixtures.buds_b] (Some "nope") None)
      as (H & _); [discriminate|].
    apply H; reflexivity.
  - destruct (resolve_target_spec Fixtures.packaged [Fixtures.buds_a] None None)
      as (_ & _ & _ & H); [discriminate|].
    destruct (H Hnone) as (_ & _ & Hone). apply Hone. reflexivity.
Defined.

(** C10. An empty string is an absent argument: with [device_hint = ""] no
    hint filter is applied, and the error that no device matched the hint
    never arises; with [plugin_id = ""] there is no override, and the
    unknown-plugin error never arises; [feature_values], [feature_catalog]
    and [set_feature] behave alike, as they pass the arguments on. *)
Theorem empty_string_is_absent
        (plugins : PyDict.t Plugin) (list_devices : result (list DetectedDevice))
        (devices : list DetectedDevice) (send : Service.transports)
        (feature value : string) (plugin_id device_hint : option string) :
  (Service.resolve_target plugins list_devices plugin_id (Some "") =
   Service.resolve_target plugins list_devices plugin_id None /\
   Service.resolve_target plugins list_devices (Some "") device_hint =
   Service.resolve_target plugins list_devices None device_hint) /\
  (Service.feature_values plugins list_devices feature plugin_id (Some "") =
   Service.feature_values plugins list_devices feature plugin_id None /\
   Service.feature_values plugins list_devices feature (Some "") device_hint =
   Service.feature_values plugins list_devices feature None device_hint) /\
  (Service.feature_catalog plugins list_devices plugin_id (Some "") =
   Service.feature_catalog plugins list_devices plugin_id None /\
   Service.feature_catalog plugins list_devices (Some "") device_hint =
   Service.feature_catalog plugins list_devices None device_hint) /\
  (Service.set_feature plugins list_devices send feature value plugin_id (Some "") =
   Service.set_feature plugins list_devices send feature value plugin_id None /\
   Service.set_feature plugins list_devices send feature value (Some "") device_hint =
   Service.set_feature plugins list_devices send feature value None device_hint) /\
  Service.resolve_target plugins (Ok devices) plugin_id (Some "") <>
  Raise (DeviceSelectionError (msg_no_hint_match "")) /\
  Service.resolve_target plugins (Ok devices) (Some "") device_hint <>
  Raise (DeviceSelectionError
           ("Unknown plugin '" ++ "" ++
            "'. Use 'budsctl list' to inspect available plugins.")) /\
  (devices = [] \/
   Service.resolve_target plugins (Ok devices) (Some "") None =
   outcome None None (Service.match_candidates plugins None devices)).
Proof.
  repeat (split; [split; reflexivity|]).
  split; [|split].
  - destruct devices as [|d ds]; [discriminate|].
    destruct (PyStr.given plugin_id) as [pid|] eqn:Hg.
    + destruct (PyDict.get plugins pid) eqn:Hget.
      * rewrite resolve_target_known;
          [|discriminate | intros (pid' & Hg' & Hn); congruence].
        unfold survivors, outcome, msg_multiple, msg_no_candidate. cbn [PyStr.given String.eqb].
        rewrite Hg.
        destruct (matched plugins plugin_id (d :: ds)) as [|c [|c' cs]]; discriminate.
      * rewrite (resolve_target_unknown plugins (d :: ds) plugin_id (Some "") pid);
          [discriminate | discriminate | exact Hg | exact Hget].
    + rewrite resolve_target_known;
        [|discriminate | intros (pid' & Hg' & Hn); congruence].
      unfold survivors, outcome, msg_multiple, msg_no_candidate. cbn [PyStr.given String.eqb].
      rewrite Hg.
      destruct (matched plugins plugin_id (d :: ds)) as [|c [|c' cs]]; discriminate.
  - destruct devices as [|d ds]; [discriminate|].
    rewrite resolve_target_known;
      [|discriminate | intros (pid' & Hg' & Hn); discriminate Hg'].
    unfold outcome, msg_multiple, msg_no_candidate, msg_no_hint_match.
    destruct (survivors plugins (Some "") device_hint (d :: ds)) as [|c [|c' cs]];
      try discriminate.
    destruct (PyStr.given device_hint); discriminate.
  - destruct devices as [|d ds]; [now left | right].
    rewrite resolve_target_known;
      [|discriminate | intros (pid' & Hg' & Hn); discriminate Hg'].
    reflexivity.
Qed.

(** ** Feature and value lookup *)

Lemma sorted_is_sorted (l : list string) :
  Sorted (fun a b => String.leb a b = true) (PyStr.sorted l).
Proof. exact (StringSort.Sorted_sort l). Qed.

Lemma sorted_is_permutation (l : list string) :
  Permutation l (PyStr.sorted l).
Proof. exact (StringSort.Permuted_sort l). Qed.

(** C9. For a resolved target: an unknown feature fails, in
    [feature_values] and in [set_feature], with [FeatureResolutionError]
    and a message that lists the plugin's feature names in sorted order,
    whatever the value asked for; a known feature with an unknown value
    fails in [set_feature] with [FeatureResolutionError] and a message that
    lists the feature's value names in sorted order; in both cases no
    transport is called. *)
Theorem feature_lookup_errors
        (plugins : PyDict.t Plugin) (list_devices : result (list DetectedDevice))
        (send : Service.transports) (feature value : string)
        (plugin_id device_hint : option string) (target : ResolvedTarget) :
  Service.resolve_target plugins list_devices plugin_id device_hint = Ok target ->
  (PyDict.get (features (plugin target)) feature = None ->
   exists names,
     Permutation (PyDict.keys (features (plugin target))) names /\
     Sorted (fun a b => String.leb a b = true) names /\
     Service.feature_values plugins list_devices feature plugin_id device_hint =
     Raise (FeatureResolutionError
              ("Plugin '" ++ id (plugin target) ++ "' does not define feature '" ++
               feature ++ "'. Available: " ++ PyStr.join ", " names)) /\
     Service.set_feature plugins list_devices send feature value
                         plugin_id device_hint =
     (Raise (FeatureResolutionError
               ("Plugin '" ++ id (plugin target) ++ "' does not define feature '" ++
                feature ++ "'. Available: " ++ PyStr.join ", " names)), [])) /\
  (forall feature_spec,
     PyDict.get (features (plugin target)) feature = Some feature_spec ->
     PyDict.get (values feature_spec) value = None ->
     exists names,
       Permutation (PyDict.keys (values feature_spec)) names /\
       Sorted (fun a b => String.leb a b = true) names /\
       Service.feature_values plugins list_devices feature plugin_id device_hint =
       Ok (target, names) /\
       Service.set_feature plugins list_devices send feature value
                           plugin_id device_hint =
       (Raise (FeatureResolutionError
                 ("Feature '" ++ feature ++ "' does not support value '" ++
                  value ++ "'. Allowed: " ++ PyStr.join ", " names)), [])).
Proof.
  intros Hres. split.
  - intros Hget.
    exists (PyStr.sorted (PyDict.keys (features (plugin target)))).
    split; [apply sorted_is_permutation|]. split; [apply sorted_is_sorted|].
    assert (Hfv : Service.feature_values plugins list_devices feature
                    plugin_id device_hint =
                  Raise (FeatureResolutionError
                    ("Plugin '" ++ id (plugin target) ++
                     "' does not define feature '" ++ feature ++
                     "'. Available: " ++
                     PyStr.join ", "
                       (PyStr.sorted (PyDict.keys (features (plugin target))))))).
    { unfold Service.feature_values. rewrite Hres. cbn [bind].
      rewrite Hget. reflexivity. }
    split; [exact Hfv|].
    unfold Service.set_feature. rewrite Hfv. reflexivity.
  - intros feature_spec Hget Hval.
    exists (PyStr.sorted (PyDict.keys (values feature_spec))).
    split; [apply sorted_is_permutation|]. split; [apply sorted_is_sorted|].
    assert (Hfv : Service.feature_values plugins list_devices feature
                    plugin_id device_hint =
                  Ok (target, PyStr.sorted (PyDict.keys (values feature_spec)))).
    { unfold Service.feature_values. rewrite Hres. cbn [bind].
      rewrite Hget. reflexivity. }
    split; [exact Hfv|].
    unfold Service.set_feature. rewrite Hfv, Hget, Hval. reflexivity.
Qed.

Lemma feature_lookup_errors_witness :
  exists names,
    Permutation ["on"; "off"] names /\
    Sorted (fun a b => String.leb a b = true) names /\
    Service.feature_values Fixtures.packaged (Ok [Fixtures.buds_a]) "anc" None None =
    Ok (mkResolvedTarget Fixtures.buds_a Fixtures.oneplus_buds4, names) /\
    Service.set_feature Fixtures.packaged (Ok [Fixtures.buds_a])
                        (fun _ => Ok None) "anc" "bogus" None None =
    (Raise (FeatureResolutionError
              ("Feature '" ++ "anc" ++ "' does not support value '" ++
               "bogus" ++ "'. Allowed: " ++ PyStr.join ", " names)), []).
Proof.
  exact (proj2 (feature_lookup_errors Fixtures.packaged (Ok [Fixtures.buds_a])
                  (fun _ => Ok None) "anc" "bogus" None None
                  (mkResolvedTarget Fixtures.buds_a Fixtures.oneplus_buds4)
                  eq_refl)
               _ eq_refl eq_refl).
Defined.

(** ** Dictionaries *)

Section DictFacts.
Context {V : Type}.

Lemma get_set (d : PyDict.t V) (k k' : string) (v : V) :
  PyDict.get (PyDict.set d k v) k' =
  if String.eqb k' k then Some v else PyDict.get d k'.
Proof.
  induction d as [|[k0 v0] d IH]; cbn [PyDict.set PyDict.get].
  - reflexivity.
  - destruct (String.eqb_spec k k0) as [-> | Hne]; cbn [PyDict.get].
    + destruct (String.eqb k' k0); reflexivity.
    + rewrite IH. destruct (String.eqb_spec k' k0) as [-> | Hne'];
        [|reflexivity].
      destruct (String.eqb_spec k0 k); [congruence | reflexivity].
Qed.

Lemma mem_set (d : PyDict.t V) (k k' : string) (v : V) :
  PyDict.mem k' (PyDict.set d k v) = String.eqb k' k || PyDict.mem k' d.
Proof.
  unfold PyDict.mem. rewrite get_set. destruct (String.eqb k' k); reflexivity.
Qed.

End DictFacts.

(** ** Merging plugin documents *)

Section LoadFacts.
Import PluginLoader.
Context {path doc : Type}.
Variable _read_yaml : path -> result doc.
Variable _build_plugin : doc -> path -> result Plugin.

Let merge (d : PyDict.t Plugin) (pl : Plugin) : PyDict.t Plugin :=
  PyDict.set d (id pl) pl.

Lemma load_packaged_built (paths : list path) (pls : list Plugin)
      (acc : PyDict.t Plugin) :
  all_built _read_yaml _build_plugin paths pls ->
  load_packaged _read_yaml _build_plugin paths acc = Ok (fold_left merge pls acc).
Proof.
  intros H. revert acc. induction H as [|p pl paths pls Hp _ IH]; intros acc.
  - reflexivity.
  - cbn [load_packaged fold_left].
    destruct (_read_yaml p) as [d|e]; [|discriminate Hp]. cbn [bind] in *.
    rewrite Hp. cbn [bind]. apply IH.
Qed.

Lemma load_user_built (paths : list path) (pls : list Plugin)
      (acc : PyDict.t Plugin) (seen w : list string) :
  all_built _read_yaml _build_plugin paths pls ->
  (forall k, existsb (String.eqb k) seen = PyDict.mem k acc) ->
  load_user _read_yaml _build_plugin paths acc w =
  Ok (mkLoadedPlugins (fold_left merge pls acc)
                      (w ++ collision_warnings seen pls)%list).
Proof.
  intros H. revert acc seen w.
  induction H as [|p pl paths pls Hp _ IH]; intros acc seen w Hseen.
  - cbn. now rewrite app_nil_r.
  - cbn [load_user fold_left collision_warnings].
    destruct (_read_yaml p) as [d|e]; [|discriminate Hp]. cbn [bind] in *.
    rewrite Hp. cbn [bind].
    rewrite (IH (PyDict.set acc (id pl) pl) (id pl :: seen)).
    + rewrite Hseen. unfold override_warning.
      destruct (PyDict.mem (id pl) acc); cbn [app]; [|reflexivity].
      now rewrite <- app_assoc.
    + intros k. cbn [existsb]. now rewrite mem_set, Hseen.
Qed.

Lemma find_snoc (f : Plugin -> bool) (l : list Plugin) (x : Plugin) :
  find f (l ++ [x])%list =
  match find f l with Some y => Some y | None => if f x then Some x else None end.
Proof.
  induction l as [|a l IH]; cbn; [reflexivity|].
  destruct (f a); [reflexivity | exact IH].
Qed.

Lemma get_merged (pls : list Plugin) (acc : PyDict.t Plugin) (i : string) :
  PyDict.get (fold_left merge pls acc) i =
  match last_with_id pls i with
  | Some pl => Some pl
  | None => PyDict.get acc i
  end.
Proof.
  revert acc; induction pls as [|pl pls IH]; intros acc; [reflexivity|].
  cbn [fold_left]. rewrite IH. unfold last_with_id. cbn [rev].
  rewrite find_snoc. destruct (find _ (rev pls)); [reflexivity|].
  unfold merge. rewrite get_set. rewrite (String.eqb_sym i).
  destruct (String.eqb (id pl) i); reflexivity.
Qed.

Lemma mem_merged (pls : list Plugin) (acc : PyDict.t Plugin) (k : string) :
  PyDict.mem k (fold_left merge pls acc) =
  existsb (String.eqb k) (List.map id pls) || PyDict.mem k acc.
Proof.
  revert acc; induction pls as [|pl pls IH]; intros acc; [reflexivity|].
  cbn [fold_left List.map existsb]. rewrite IH. unfold merge.
  rewrite mem_set. destruct (String.eqb k (id pl)); cbn;
    [apply orb_true_r | reflexivity].
Qed.

Lemma load_plugins_built (packaged_paths user_paths : list path)
      (bundled user : list Plugin) :
  all_built _read_yaml _build_plugin packaged_paths bundled ->
  all_built _read_yaml _build_plugin user_paths user ->
  load_plugins _read_yaml _build_plugin packaged_paths user_paths =
  Ok (mkLoadedPlugins (fold_left merge (bundled ++ user) [])
                      (collision_warnings (List.map id bundled) user)).
Proof.
  intros Hb Hu. unfold load_plugins.
  rewrite (load_packaged_built _ _ _ Hb). cbn [bind].
  rewrite (load_user_built _ _ _ (List.map id bundled) [] Hu).
  - now rewrite fold_left_app.
  - intros k. rewrite mem_merged. cbn. now rewrite orb_false_r.
Qed.

End LoadFacts.

(** C3 (as amended). When every document reads and builds, [load_plugins]
    succeeds, whatever ids collide.  The mapping holds under each id the
    last document that carries it, packaged documents first and then the
    user's.  The warnings are one for each user document whose id is
    already in the mapping, from a packaged document or an earlier user
    document, each naming that id, in the order of the documents.  A
    packaged document and a user document of the same id yield the user's
    plugin and the one warning. *)
Theorem load_plugins_merge
        {path doc : Type} (_read_yaml : path -> result doc)
        (_build_plugin : doc -> path -> result Plugin)
        (packaged_paths user_paths : list path) (bundled user : list Plugin) :
  all_built _read_yaml _build_plugin packaged_paths bundled ->
  all_built _read_yaml _build_plugin user_paths user ->
  exists loaded,
    PluginLoader.load_plugins _read_yaml _build_plugin packaged_paths user_paths
    = Ok loaded /\
    (forall i, PyDict.get (PluginLoader.plugins loaded) i =
               last_with_id (bundled ++ user) i) /\
    PluginLoader.warnings loaded = collision_warnings (List.map id bundled) user /\
    (forall b u, bundled = [b] -> user = [u] -> id b = id u ->
       PluginLoader.plugins loaded = [(id b, u)] /\
       PluginLoader.warnings loaded = [override_warning (id u)]).
Proof.
  intros Hb Hu. eexists. split; [apply (load_plugins_built _ _ _ _ _ _ Hb Hu)|].
  cbn [PluginLoader.plugins PluginLoader.warnings].
  split; [|split].
  - intros i. rewrite get_merged. now destruct (last_with_id (bundled ++ user) i).
  - reflexivity.
  - intros b u -> -> Hid. cbn. rewrite Hid, String.eqb_refl. split; reflexivity.
Qed.

Lemma load_plugins_merge_witness :
  exists loaded,
    PluginLoader.load_plugins Fixtures.read_file Fixtures.build_file
                              ["oneplus_buds4.yaml"] ["override.yaml"]
    = Ok loaded /\
    PyDict.get (PluginLoader.plugins loaded) "oneplus_buds4"
    = Some Fixtures.user_override /\
    PluginLoader.warnings loaded =
    ["User plugin 'oneplus_buds4' overrides packaged plugin"].
Proof.
  destruct (load_plugins_merge Fixtures.read_file Fixtures.build_file
              ["oneplus_buds4.yaml"] ["override.yaml"]
              [Fixtures.oneplus_buds4] [Fixtures.user_override])
    as (loaded & Hload & Hget & Hw & _).
  - repeat constructor.
  - repeat constructor.
  - exists loaded. split; [exact Hload|]. split.
    + rewrite Hget. reflexivity.
    + rewrite Hw. reflexivity.
Defined.

(** C3 as stated fails for a collision between two packaged documents:
    the later one replaces the earlier one, but no warning is appended. *)
Lemma load_plugins_packaged_collision_silent :
  ~ (forall loaded,
       PluginLoader.load_plugins Fixtures.read_file Fixtures.build_file
         ["oneplus_buds4.yaml"; "oneplus_buds4_bis.yaml"] [] = Ok loaded ->
       stated_merge_warnings
         [Fixtures.oneplus_buds4; Fixtures.oneplus_buds4_bis] [] loaded).
Proof.
  intros H.
  specialize (H (PluginLoader.mkLoadedPlugins
                   [("oneplus_buds4", Fixtures.oneplus_buds4_bis)] [])
                eq_refl).
  discriminate H.
Qed.

(** ** Device discovery *)

Section DiscoveryFacts.
Import Service.

Variable run : runner.

Section OneParser.
Variable parse : string -> option (string * string).

Lemma scan_line_step (st : scan) (line : string) :
  scan_in_step st ->
  scan_in_step (scan_line parse st line) /\
  command_errors (scan_line parse st line) = command_errors st /\
  (devices (scan_line parse st line) = [] <->
   devices st = [] /\ parse line = None).
Proof.
  unfold scan_in_step, scan_line. intros Hst.
  destruct (parse line) as [[m n]|].
  - destruct (existsb (String.eqb m) (seen st)) eqn:E.
    + split; [exact Hst|]. split; [reflexivity|].
      split; [|intros [_ H]; discriminate H].
      intros Hd. rewrite Hd in Hst. destruct (seen st); [discriminate E|].
      discriminate Hst.
    + cbn. split; [rewrite length_app; cbn; lia|]. split; [reflexivity|].
      split; [|intros [_ H]; discriminate H].
      intros H. apply app_eq_nil in H. destruct H as [_ H]. discriminate H.
  - split; [exact Hst|]. split; [reflexivity|]. tauto.
Qed.

Lemma scan_lines_step (lines : list string) (st : scan) :
  scan_in_step st ->
  scan_in_step (fold_left (scan_line parse) lines st) /\
  command_errors (fold_left (scan_line parse) lines st) = command_errors st /\
  (devices (fold_left (scan_line parse) lines st) = [] <->
   devices st = [] /\ forall line, In line lines -> parse line = None).
Proof.
  revert st; induction lines as [|line lines IH]; intros st Hst; cbn [fold_left].
  - split; [exact Hst|]. split; [reflexivity|]. cbn. tauto.
  - destruct (scan_line_step st line Hst) as (H1 & H2 & H3).
    destruct (IH _ H1) as (I1 & I2 & I3).
    split; [exact I1|]. split; [congruence|].
    rewrite I3, H3. cbn [In]. split.
    + intros [[Hd Hp] Hall]. split; [exact Hd|].
      intros l [<- | Hl]; auto.
    + intros [Hd Hall]. split; [split|]; auto.
Qed.

Lemma scan_command_step (st : scan) (cmd : list string) :
  scan_in_step st ->
  scan_in_step (scan_command run parse st cmd) /\
  (command_errors (scan_command run parse st cmd) = [] <->
   command_errors st = [] /\ ~ reported_error run cmd) /\
  (devices (scan_command run parse st cmd) = [] <->
   devices st = [] /\ ~ yields_device run parse cmd).
Proof.
  unfold scan_command, reported_error, yields_device. intros Hst.
  destruct (run cmd) as [r|] eqn:Hrun.
  - destruct (Z.eqb_spec (returncode r) 0) as [Hrc | Hrc]; cbn [negb].
    + destruct (scan_lines_step (PyStr.splitlines (stdout r)) st Hst)
        as (H1 & H2 & H3).
      split; [exact H1|]. split.
      * rewrite H2. split; [|tauto]. intros H. split; [exact H|].
        intros (r' & Hr' & Hne & _). congruence.
      * rewrite H3. split.
        -- intros [Hd Hall]. split; [exact Hd|].
           intros (r' & line & Hr' & _ & Hin & Hp).
           injection Hr' as <-. now apply Hp, Hall.
        -- intros [Hd Hno]. split; [exact Hd|]. intros line Hin.
           destruct (parse line) eqn:Hp; [|reflexivity].
           exfalso. apply Hno. exists r, line. rewrite Hp.
           repeat split; auto. discriminate.
    + destruct (String.eqb_spec
                  (PyStr.strip match stderr r with Some e => e | None => "" end) "")
        as [He | He]; cbn [negb].
      * split; [exact Hst|]. split.
        -- split; [|tauto]. intros H. split; [exact H|].
           intros (r' & Hr' & _ & Hse). injection Hr' as <-. contradiction.
        -- split; [|tauto]. intros H. split; [exact H|].
           intros (r' & line & Hr' & Hz & _). injection Hr' as <-. contradiction.
      * cbn. split; [exact Hst|]. split.
        -- split.
           ++ intros H. apply app_eq_nil in H. destruct H as [_ H]. discriminate H.
           ++ intros [_ H]. exfalso. apply H. now exists r.
        -- split; [|tauto]. intros H. split; [exact H|].
           intros (r' & line & Hr' & Hz & _). injection Hr' as <-. contradiction.
  - split; [exact Hst|]. split.
    + split; [|tauto]. intros H. split; [exact H|].
      intros (r' & Hr' & _). discriminate Hr'.
    + split; [|tauto]. intros H. split; [exact H|].
      intros (r' & line & Hr' & _). discriminate Hr'.
Qed.

Lemma scan_commands_step (cmds : list (list string)) (st : scan) :
  scan_in_step st ->
  scan_in_step (fold_left (scan_command run parse) cmds st) /\
  (command_errors (fold_left (scan_command run parse) cmds st) = [] <->
   command_errors st = [] /\
   forall cmd, In cmd cmds -> ~ reported_error run cmd) /\
  (devices (fold_left (scan_command run parse) cmds st) = [] <->
   devices st = [] /\
   forall cmd, In cmd cmds -> ~ yields_device run parse cmd).
Proof.
  revert st; induction cmds as [|cmd cmds IH]; intros st Hst; cbn [fold_left].
  - split; [exact Hst|]. cbn. tauto.
  - destruct (scan_command_step st cmd Hst) as (H1 & H2 & H3).
    destruct (IH _ H1) as (I1 & I2 & I3).
    split; [exact I1|]. rewrite I2, I3, H2, H3. cbn [In].
    split; split.
    + intros [[He Hc] Hall]. split; [exact He|]. intros c [<- | Hin]; auto.
    + intros [He Hall]. split; [split|]; auto.
    + intros [[He Hc] Hall]. split; [exact He|]. intros c [<- | Hin]; auto.
    + intros [He Hall]. split; [split|]; auto.
Qed.

End OneParser.

Lemma reported_error_b_iff (cmd : list string) :
  reported_error_b run cmd = true <-> reported_error run cmd.
Proof.
  unfold reported_error_b, reported_error.
  destruct (run cmd) as [r|].
  - rewrite andb_true_iff, !negb_true_iff, Z.eqb_neq, String.eqb_neq. split.
    + intros [H1 H2]. now exists r.
    + intros (r' & Hr & H1 & H2). injection Hr as <-. auto.
  - split; [discriminate | intros (r' & Hr & _); discriminate Hr].
Qed.

Lemma some_or_none_reported (cmds : list (list string)) :
  (exists cmd, In cmd cmds /\ reported_error run cmd) \/
  (forall cmd, In cmd cmds -> ~ reported_error run cmd).
Proof.
  destruct (existsb (reported_error_b run) cmds) eqn:E.
  - left. apply existsb_exists in E. destruct E as (cmd & Hin & H).
    exists cmd. split; [exact Hin | now apply reported_error_b_iff].
  - right. intros cmd Hin H. apply reported_error_b_iff in H.
    assert (existsb (reported_error_b run) cmds = true)
      by (apply existsb_exists; now exists cmd).
    congruence.
Qed.

(** The two loops of [_discover_devices], with what [scan_commands_step]
    says of the state after each: [st1] after the [bluetoothctl] commands,
    [st2] after the fallback. *)
Ltac two_loops :=
  unfold _discover_devices;
  set (st0 := mkScan [] [] []);
  assert (H0 : scan_in_step st0) by reflexivity;
  destruct (scan_commands_step bluetoothctl_line bluetoothctl_commands st0 H0)
    as (S1 & E1 & D1);
  set (st1 := fold_left (scan_command run bluetoothctl_line)
                        bluetoothctl_commands st0) in *;
  destruct (scan_commands_step hcitool_line fallback_commands st1 S1)
    as (S2 & E2 & D2);
  set (st2 := fold_left (scan_command run hcitool_line) fallback_commands st1) in *.

(** [_discover_devices] raises only when both loops end without a
    device and with an error on record. *)
Lemma discover_devices_raises (e : exn) :
  _discover_devices run = Raise e ->
  no_device_found run /\
  (exists cmd, In cmd all_commands /\ reported_error run cmd) /\
  exists msg, e = DeviceDiscoveryError msg.
Proof.
  two_loops.
  destruct (devices st1) as [|d1 ds1] eqn:Hd1; cbn [is_empty negb]; [|discriminate].
  destruct (devices st2) as [|d2 ds2] eqn:Hd2; cbn [is_empty negb]; [|discriminate].
  destruct (command_errors st2) as [|e2 es2] eqn:He2; cbn [is_empty negb];
    [discriminate|].
  intros H. injection H as <-.
  split; [|split].
  - split.
    + apply D1. reflexivity.
    + apply D2. reflexivity.
  - destruct (some_or_none_reported all_commands) as [Hsome | Hnone];
      [exact Hsome | exfalso].
    assert (Hnil : e2 :: es2 = []); [|discriminate Hnil].
    apply E2. split.
    + apply E1. split; [reflexivity|].
      intros cmd Hin. apply Hnone. apply in_or_app. now left.
    + intros cmd Hin. apply Hnone. apply in_or_app. now right.
  - eexists. reflexivity.
Qed.

Lemma discover_devices_no_device_error :
  no_device_found run ->
  (exists cmd, In cmd all_commands /\ reported_error run cmd) ->
  exists msg, _discover_devices run = Raise (DeviceDiscoveryError msg).
Proof.
  intros [Nb Nf] (cmd & Hin & Hrep). two_loops.
  assert (Hd1 : devices st1 = []) by (apply D1; split; [reflexivity | exact Nb]).
  assert (Hd2 : devices st2 = []) by (apply D2; split; [exact Hd1 | exact Nf]).
  rewrite Hd1, Hd2. cbn [is_empty negb].
  destruct (command_errors st2) as [|e2 es2] eqn:He2; cbn [is_empty negb].
  - exfalso. destruct (proj1 E2 eq_refl) as [He1 Hf].
    destruct (proj1 E1 He1) as [_ Hb].
    apply in_app_or in Hin. destruct Hin as [Hin | Hin].
    + exact (Hb cmd Hin Hrep).
    + exact (Hf cmd Hin Hrep).
  - eexists. reflexivity.
Qed.

Lemma discover_devices_quiet :
  (forall cmd, In cmd all_commands -> ~ reported_error run cmd) ->
  exists devices, _discover_devices run = Ok devices.
Proof.
  intros Hq. destruct (_discover_devices run) as [ds|e] eqn:E;
    [now exists ds | exfalso].
  destruct (discover_devices_raises e E) as (_ & (cmd & Hin & Hrep) & _).
  exact (Hq cmd Hin Hrep).
Qed.

Lemma discover_devices_ok_empty :
  no_device_found run ->
  (forall cmd, In cmd all_commands -> ~ reported_error run cmd) ->
  _discover_devices run = Ok [].
Proof.
  intros [Nb Nf] Hq. two_loops.
  assert (Hd1 : devices st1 = []) by (apply D1; split; [reflexivity | exact Nb]).
  assert (Hd2 : devices st2 = []) by (apply D2; split; [exact Hd1 | exact Nf]).
  assert (He2 : command_errors st2 = []).
  { apply E2. split.
    - apply E1. split; [reflexivity|]. intros cmd Hin.
      apply Hq. apply in_or_app. now left.
    - intros cmd Hin. apply Hq. apply in_or_app. now right. }
  rewrite Hd1, Hd2, He2. reflexivity.
Qed.

End DiscoveryFacts.

(** C8 (as amended). [_discover_devices] fails exactly when no mechanism
    found a device and at least one mechanism exited with a non-zero status
    and a non-blank error output, and the failure is a
    [DeviceDiscoveryError]; when no mechanism reported such an error the
    call succeeds, with the empty list when no device was found - as when
    every mechanism succeeds and lists nothing, which is a successful empty
    result. *)
Theorem discover_devices_spec (run : Service.runner) :
  ((exists e, Service._discover_devices run = Raise e) <->
   no_device_found run /\
   exists cmd, In cmd all_commands /\ reported_error run cmd) /\
  (forall e, Service._discover_devices run = Raise e ->
             exists msg, e = DeviceDiscoveryError msg) /\
  ((forall cmd, In cmd all_commands -> ~ reported_error run cmd) ->
   exists devices, Service._discover_devices run = Ok devices) /\
  (no_device_found run ->
   (forall cmd, In cmd all_commands -> ~ reported_error run cmd) ->
   Service._discover_devices run = Ok []) /\
  Service._discover_devices run_all_quiet = Ok [].
Proof.
  split; [|split; [|split; [|split]]].
  - split.
    + intros [e H]. destruct (discover_devices_raises run e H) as (H1 & H2 & _).
      now split.
    + intros [H1 H2].
      destruct (discover_devices_no_device_error run H1 H2) as [msg H].
      now exists (DeviceDiscoveryError msg).
  - intros e H. now destruct (discover_devices_raises run e H) as (_ & _ & H3).
  - apply discover_devices_quiet.
  - apply discover_devices_ok_empty.
  - reflexivity.
Qed.

Lemma discover_devices_spec_witness :
  Service._discover_devices run_all_quiet = Ok [].
Proof.
  destruct (discover_devices_spec run_all_quiet) as (_ & _ & _ & H & _).
  apply H.
  - split; intros cmd _ (r & line & Hr & _ & Hin & _);
      injection Hr as <-; exact Hin.
  - intros cmd _ (r & Hr & Hrc & _). injection Hr as <-. now apply Hrc.
Defined.

(** C8 as stated fails when one mechanism reports an error and another
    succeeds with nothing to list: the call raises [DeviceDiscoveryError]
    although [bluetoothctl devices] succeeded and simply found no
    device. *)
Lemma discover_devices_partial_failure_raises :
  ~ stated_discovery_failure run_first_fails.
Proof.
  intros [_ H].
  assert (Hok : Service._discover_devices run_first_fails = Ok []);
    [|discriminate Hok].
  apply H.
  - exists ["bluetoothctl"; "devices"]. split; [cbn; auto|].
    eexists. split; reflexivity.
  - split; intros cmd Hcmd (r & line & Hr & _ & Hin & _); cbn in Hcmd;
      repeat (destruct Hcmd as [<- | Hcmd];
              [cbv in Hr; injection Hr as <-; exact Hin |]);
      contradiction.
Qed.

(** ** The YAML loader *)

Section ResolverFacts.
Import Yaml.

Lemma resolvers_for_unique (safe : implicit_resolvers) (key : first_char) :
  resolvers_for (unique_key_resolvers safe) key =
  List.filter not_boolean (resolvers_for safe key).
Proof.
  induction safe as [|[k mappings] safe IH]; [reflexivity|].
  cbn. destruct (first_char_eqb key k); [reflexivity | exact IH].
Qed.

Lemma find_in {A : Type} (f : A -> bool) (l : list A) (x : A) :
  List.find f l = Some x -> In x l /\ f x = true.
Proof. apply find_some. Qed.


Lemma resolve_only_boolean (safe : implicit_resolvers) (word : string) :
  only_boolean safe word ->
  resolve (unique_key_resolvers safe) word true = STR_TAG.
Proof.
  intros Hob. unfold resolve.
  rewrite !resolvers_for_unique, <- filter_app.
  fold (first_char_of word).
  destruct (find _ _) as [[tag re]|] eqn:E; [exfalso | reflexivity].
  apply find_in in E. destruct E as [Hin Hm].
  apply filter_In in Hin. destruct Hin as [Hin Hnb].
  specialize (Hob tag re Hin Hm). subst tag. discriminate Hnb.
Qed.

End ResolverFacts.

Section ConstructFacts.
Import Yaml.

Variable construct_other : string -> string -> result pyobj.
Variable scalar_eq : pyobj -> pyobj -> bool.
Variable scalar_str : string -> string -> string.

Let construct : node -> result pyobj :=
  construct_object construct_other scalar_eq scalar_str.
Let loop : list (node * node) -> list (pyobj * pyobj) ->
           result (list (pyobj * pyobj)) :=
  _construct_mapping_loop scalar_eq scalar_str construct.

Lemma construct_mapping_node (value : list (node * node)) :
  construct (MappingNode value) = (d <- loop value [] ;; Ok (PyDict d)).
Proof. reflexivity. Qed.


Lemma loop_cons (key_node value_node : node) (rest : list (node * node))
      (mapping : list (pyobj * pyobj)) :
  loop ((key_node, value_node) :: rest) mapping =
  (key <- construct key_node ;;
   present <- dict_contains scalar_eq mapping key ;;
   if present then
     Raise (PluginValidationError
              ("Duplicate key '" ++ py_str scalar_str key ++ "' in YAML document"))
   else
     v <- construct value_node ;;
     loop rest (mapping ++ [(key, v)])%list).
Proof. reflexivity. Qed.









End ConstructFacts.

Section LoaderFacts.
Import Yaml.

Variable construct_other : string -> string -> result pyobj.
Variable scalar_eq : pyobj -> pyobj -> bool.
Variable scalar_str : string -> string -> string.
Variable safe : implicit_resolvers.

Lemma load_plain_only_boolean (word : string) :
  only_boolean safe word ->
  load construct_other scalar_eq scalar_str safe (plain word) = Ok (PyStr word).
Proof.
  intros H. unfold load, plain. cbn [compose construct_object].
  rewrite (resolve_only_boolean safe word H). reflexivity.
Qed.


End LoaderFacts.




(* ================================================================== *)
(** * Part IV: further properties of the code *)
(* ================================================================== *)

(** ** Letter case *)

Lemma to_upper_idem (c : ascii) :
  PyStr.to_upper (PyStr.to_upper c) = PyStr.to_upper c.
Proof. destruct c as [[] [] [] [] [] [] [] []]; reflexivity. Qed.

Lemma to_lower_idem (c : ascii) :
  PyStr.to_lower (PyStr.to_lower c) = PyStr.to_lower c.
Proof. destruct c as [[] [] [] [] [] [] [] []]; reflexivity. Qed.

Lemma to_lower_to_upper (c : ascii) :
  PyStr.to_lower (PyStr.to_upper c) = PyStr.to_lower c.
Proof. destruct c as [[] [] [] [] [] [] [] []]; reflexivity. Qed.

Lemma to_upper_to_lower (c : ascii) :
  PyStr.to_upper (PyStr.to_lower c) = PyStr.to_upper c.
Proof. destruct c as [[] [] [] [] [] [] [] []]; reflexivity. Qed.

Lemma to_upper_not_lower (c : ascii) :
  PyStr.is_lower (PyStr.to_upper c) = false.
Proof. destruct c as [[] [] [] [] [] [] [] []]; reflexivity. Qed.

Lemma to_upper_space (c : ascii) :
  PyStr.is_space (PyStr.to_upper c) = PyStr.is_space c.
Proof. destruct c as [[] [] [] [] [] [] [] []]; reflexivity. Qed.

Lemma str_map_map (f g : ascii -> ascii) (s : string) :
  PyStr.map f (PyStr.map g s) = PyStr.map (fun c => f (g c)) s.
Proof. induction s as [|c s IH]; cbn; [reflexivity | now rewrite IH]. Qed.

Lemma str_map_ext (f g : ascii -> ascii) (s : string) :
  (forall c, f c = g c) -> PyStr.map f s = PyStr.map g s.
Proof. intros H. induction s as [|c s IH]; cbn; [reflexivity | now rewrite H, IH]. Qed.

Lemma str_map_app (f : ascii -> ascii) (a b : string) :
  PyStr.map f (a ++ b) = PyStr.map f a ++ PyStr.map f b.
Proof. induction a as [|c a IH]; cbn; [reflexivity | now rewrite IH]. Qed.

Lemma upper_idem (s : string) : PyStr.upper (PyStr.upper s) = PyStr.upper s.
Proof. unfold PyStr.upper. rewrite str_map_map. apply str_map_ext, to_upper_idem. Qed.

Lemma lower_idem (s : string) : PyStr.lower (PyStr.lower s) = PyStr.lower s.
Proof. unfold PyStr.lower. rewrite str_map_map. apply str_map_ext, to_lower_idem. Qed.

Lemma lower_upper (s : string) : PyStr.lower (PyStr.upper s) = PyStr.lower s.
Proof.
  unfold PyStr.lower, PyStr.upper. rewrite str_map_map. apply str_map_ext, to_lower_to_upper.
Qed.

Lemma upper_lower (s : string) : PyStr.upper (PyStr.lower s) = PyStr.upper s.
Proof.
  unfold PyStr.lower, PyStr.upper. rewrite str_map_map. apply str_map_ext, to_upper_to_lower.
Qed.

(** Two strings that differ in letter case only have the same uppercase
    form. *)
Lemma same_lower_same_upper (a b : string) :
  PyStr.lower a = PyStr.lower b -> PyStr.upper a = PyStr.upper b.
Proof. intros H. rewrite <- (upper_lower a), <- (upper_lower b). now rewrite H. Qed.

(** ** Device matching, further *)

Lemma existsb_map {A B : Type} (f : B -> bool) (g : A -> B) (l : list A) :
  existsb f (List.map g l) = existsb (fun x => f (g x)) l.
Proof. induction l as [|x l IH]; cbn; [reflexivity | now rewrite IH]. Qed.

(** X1. The score does not depend on letter case in the device's MAC, in
    its name or in the plugin's name tokens: devices and plugins that
    differ in these respects only score alike. *)
Theorem match_score_ignores_case (d d' : DetectedDevice) (p p' : Plugin) :
  PyStr.lower (mac d) = PyStr.lower (mac d') ->
  PyStr.lower (device_name d) = PyStr.lower (device_name d') ->
  mac_prefix (match_ p) = mac_prefix (match_ p') ->
  List.map PyStr.lower (name_contains (match_ p)) =
  List.map PyStr.lower (name_contains (match_ p')) ->
  DeviceMatch.match_score d p = DeviceMatch.match_score d' p'.
Proof.
  intros Hm Hn Hp Ht. unfold DeviceMatch.match_score.
  assert (H1 : DeviceMatch._mac_prefix_match (mac d) p =
               DeviceMatch._mac_prefix_match (mac d') p').
  { unfold DeviceMatch._mac_prefix_match.
    now rewrite (same_lower_same_upper _ _ Hm), Hp. }
  assert (H2 : DeviceMatch._name_contains_match (device_name d) p =
               DeviceMatch._name_contains_match (device_name d') p').
  { unfold DeviceMatch._name_contains_match. rewrite Hn.
    rewrite <- (existsb_map
                  (fun t => PyStr.contains t (PyStr.lower (device_name d')))
                  PyStr.lower (name_contains (match_ p))).
    rewrite <- (existsb_map
                  (fun t => PyStr.contains t (PyStr.lower (device_name d')))
                  PyStr.lower (name_contains (match_ p'))).
    now rewrite Ht. }
  now rewrite H1, H2.
Qed.

Lemma match_score_ignores_case_witness :
  DeviceMatch.match_score
    (mkDetectedDevice "88:92:cc:11:22:33" "ONEPLUS buds 4") Fixtures.oneplus_buds4
  = DeviceMatch.match_score Fixtures.buds_a
      (with_rules Fixtures.oneplus_buds4
                  (mkMatchRules ["oneplus BUDS 4"] ["88:92:CC"])).
Proof.
  apply (match_score_ignores_case
           (mkDetectedDevice "88:92:cc:11:22:33" "ONEPLUS buds 4") Fixtures.buds_a
           Fixtures.oneplus_buds4
           (with_rules Fixtures.oneplus_buds4
                       (mkMatchRules ["oneplus BUDS 4"] ["88:92:CC"])));
    reflexivity.
Defined.

Lemma upper_no_lower (s : string) :
  some_char PyStr.is_lower (PyStr.upper s) = false.
Proof.
  unfold PyStr.upper. induction s as [|c s IH]; [reflexivity|].
  cbn [PyStr.map some_char]. now rewrite to_upper_not_lower, IH.
Qed.

Lemma some_char_app (f : ascii -> bool) (a b : string) :
  some_char f (a ++ b) = some_char f a || some_char f b.
Proof.
  induction a as [|c a IH]; cbn; [reflexivity|]. now rewrite IH, orb_assoc.
Qed.

Lemma lowercase_prefix_mismatch (device_mac prefix : string) :
  some_char PyStr.is_lower prefix = true ->
  PyStr.startswith (PyStr.upper device_mac) prefix = false.
Proof.
  intros Hl. destruct (PyStr.startswith (PyStr.upper device_mac) prefix) eqn:E;
    [|reflexivity].
  apply startswith_iff in E. destruct E as [rest E].
  pose proof (upper_no_lower device_mac) as Hu.
  rewrite E, some_char_app, Hl in Hu. discriminate Hu.
Qed.

(** X2. A MAC prefix with a lowercase letter in it matches no device,
    whatever the case of the device's MAC: a plugin whose prefixes all
    have one scores at most 1.  [_normalize_mac_prefix] yields no such
    prefix. *)
Theorem lowercase_prefix_never_matches (p : Plugin) :
  Forall (fun prefix => some_char PyStr.is_lower prefix = true)
         (mac_prefix (match_ p)) ->
  (forall device_mac, DeviceMatch._mac_prefix_match device_mac p = false) /\
  (forall d, (DeviceMatch.match_score d p <= 1)%Z) /\
  (forall prefix,
     some_char PyStr.is_lower (PluginLoader._normalize_mac_prefix prefix) = false).
Proof.
  intros Hall.
  assert (Hm : forall device_mac, DeviceMatch._mac_prefix_match device_mac p = false).
  { intros device_mac. unfold DeviceMatch._mac_prefix_match.
    induction Hall as [|prefix l Hp _ IH]; [reflexivity|].
    cbn. now rewrite (lowercase_prefix_mismatch _ _ Hp), IH. }
  split; [exact Hm|]. split.
  - intros d. unfold DeviceMatch.match_score. rewrite Hm. cbn.
    destruct (DeviceMatch._name_contains_match (device_name d) p); lia.
  - intros prefix. apply upper_no_lower.
Qed.

Lemma lowercase_prefix_never_matches_witness :
  DeviceMatch._mac_prefix_match "88:92:CC:11:22:33"
    (with_rules Fixtures.oneplus_buds4
                (mkMatchRules ["OnePlus Buds 4"] ["88:92:cc"])) = false.
Proof.
  refine (proj1 (lowercase_prefix_never_matches
                   (with_rules Fixtures.oneplus_buds4
                               (mkMatchRules ["OnePlus Buds 4"] ["88:92:cc"])) _) _).
  repeat constructor.
Defined.

(** X3. A plugin without match rules scores 0 against every device: it is
    never the best plugin of a device, and naming it explicitly does not
    help, since the override still requires a positive score -
    [resolve_target] then fails with [DeviceSelectionError]. *)
Theorem plugin_without_rules_never_resolved
        (p : Plugin) (plugins : PyDict.t Plugin) (pid : string)
        (devices : list DetectedDevice) (device_hint : option string) :
  name_contains (match_ p) = [] -> mac_prefix (match_ p) = [] ->
  (forall d, DeviceMatch.match_score d p = 0%Z) /\
  (forall d mapping, DeviceMatch.best_plugin_for_device d mapping <> Some p) /\
  (pid <> EmptyString -> PyDict.get plugins pid = Some p ->
   exists msg,
     Service.resolve_target plugins (Ok devices) (Some pid) device_hint =
     Raise (DeviceSelectionError msg)).
Proof.
  intros Hn Hm.
  assert (Hs : forall d, DeviceMatch.match_score d p = 0%Z).
  { intros d. unfold DeviceMatch.match_score, DeviceMatch._mac_prefix_match,
      DeviceMatch._name_contains_match. now rewrite Hn, Hm. }
  split; [exact Hs|]. split.
  - intros d mapping H. apply best_plugin_some in H.
    destruct H as (_ & _ & _ & Hpos & _). rewrite Hs in Hpos. lia.
  - intros Hpid Hget.
    destruct devices as [|d ds]; [eexists; reflexivity|].
    assert (Hg : PyStr.given (Some pid) = Some pid).
    { cbn. destruct (String.eqb_spec pid ""); [contradiction | reflexivity]. }
    rewrite resolve_target_known;
      [|discriminate | intros (pid' & Hg' & Hnone); congruence].
    assert (Hmatched : matched plugins (Some pid) (d :: ds) = []).
    { unfold matched, plugin_override_of. rewrite Hg, Hget.
      rewrite match_candidates_override.
      replace (filter _ (d :: ds)) with (@nil DetectedDevice); [reflexivity|].
      generalize (d :: ds) as l. induction l as [|x l IH]; [reflexivity|].
      cbn [filter]. rewrite Hs. exact IH. }
    unfold survivors. rewrite Hmatched.
    destruct (PyStr.given device_hint); eexists; reflexivity.
Qed.

Lemma plugin_without_rules_never_resolved_witness :
  exists msg,
    Service.resolve_target [("bare", bare_plugin)] (Ok [Fixtures.buds_a])
                           (Some "bare") None =
    Raise (DeviceSelectionError msg).
Proof.
  refine (proj2 (proj2 (plugin_without_rules_never_resolved
                          bare_plugin [("bare", bare_plugin)] "bare"
                          [Fixtures.buds_a] None eq_refl eq_refl)) _ eq_refl).
  discriminate.
Defined.

(** ** Hexadecimal payloads, further *)

Lemma hex_digit_facts (h : N) :
  (h < 16)%N ->
  PluginLoader.is_hex_lower (PyBytes.hex_digit h) = true /\
  PyBytes.hex_val (PyBytes.hex_digit h) = Some h.
Proof.
  intros H. destruct h as [|p]; [split; reflexivity|].
  destruct p as [[[[p|p|]|[p|p|]|]|[[p|p|]|[p|p|]|]|]|[[[p|p|]|[p|p|]|]|[[p|p|]|[p|p|]|]|]|];
    first [split; reflexivity | lia].
Qed.

Lemma hex_lower_plain (c : ascii) :
  PluginLoader.is_hex_lower c = true ->
  PyStr.is_space c = false /\ PyStr.to_lower c = c /\ Ascii.eqb c " " = false.
Proof.
  destruct c as [[] [] [] [] [] [] [] []]; intros H; try discriminate H;
    repeat split; reflexivity.
Qed.

Lemma byte_of_N_of_byte (b : byte) : PyBytes.byte_of_N (PyBytes.N_of_byte b) = b.
Proof.
  unfold PyBytes.byte_of_N, PyBytes.N_of_byte.
  now rewrite ascii_N_embedding, byte_of_ascii_of_byte.
Qed.

Lemma N_of_byte_bound (b : byte) : (PyBytes.N_of_byte b < 256)%N.
Proof. apply N_ascii_bounded. Qed.

Lemma hex_all_digits (bs : list byte) :
  all_chars PluginLoader.is_hex_lower (PyBytes.hex bs) = true /\
  String.length (PyBytes.hex bs) = (2 * List.length bs)%nat.
Proof.
  induction bs as [|b bs [IH1 IH2]]; [split; reflexivity|].
  pose proof (N_of_byte_bound b) as Hb.
  assert (H1 : (PyBytes.N_of_byte b / 16 < 16)%N)
    by (apply N.Div0.div_lt_upper_bound; lia).
  assert (H2 : (PyBytes.N_of_byte b mod 16 < 16)%N)
    by (apply N.mod_upper_bound; lia).
  cbn [PyBytes.hex all_chars String.length List.length].
  rewrite (proj1 (hex_digit_facts _ H1)), (proj1 (hex_digit_facts _ H2)), IH1, IH2.
  split; [reflexivity | lia].
Qed.

(** [bytes.fromhex] undoes [bytes.hex]. *)
Lemma fromhex_hex (bs : list byte) : PyBytes.fromhex (PyBytes.hex bs) = Ok bs.
Proof.
  induction bs as [|b bs IH]; [reflexivity|].
  pose proof (N_of_byte_bound b) as Hb.
  assert (H1 : (PyBytes.N_of_byte b / 16 < 16)%N)
    by (apply N.Div0.div_lt_upper_bound; lia).
  assert (H2 : (PyBytes.N_of_byte b mod 16 < 16)%N)
    by (apply N.mod_upper_bound; lia).
  destruct (hex_digit_facts _ H1) as [D1 V1].
  destruct (hex_digit_facts _ H2) as [D2 V2].
  destruct (hex_lower_char _ D1) as [S1 _].
  cbn [PyBytes.hex PyBytes.fromhex]. rewrite S1, V1, V2, IH. cbn [bind].
  rewrite <- (N.div_mod (PyBytes.N_of_byte b) 16) by lia.
  now rewrite byte_of_N_of_byte.
Qed.

Lemma all_chars_impl (f g : ascii -> bool) (s : string) :
  (forall c, f c = true -> g c = true) ->
  all_chars f s = true -> all_chars g s = true.
Proof.
  intros H. induction s as [|c s IH]; [reflexivity|].
  cbn. rewrite !andb_true_iff. intros [Hc Hs]. auto.
Qed.

Lemma lstrip_no_space (s : string) :
  all_chars (fun c => negb (PyStr.is_space c)) s = true -> PyStr.lstrip s = s.
Proof.
  destruct s as [|c s]; [reflexivity|]. cbn. rewrite andb_true_iff.
  intros [Hc _]. apply negb_true_iff in Hc. now rewrite Hc.
Qed.

Lemma rstrip_no_space (s : string) :
  all_chars (fun c => negb (PyStr.is_space c)) s = true -> PyStr.rstrip s = s.
Proof.
  induction s as [|c s IH]; [reflexivity|]. cbn [all_chars PyStr.rstrip].
  rewrite andb_true_iff. intros [Hc Hs]. apply negb_true_iff in Hc.
  rewrite (IH Hs). destruct s; [now rewrite Hc | reflexivity].
Qed.

Lemma remove_spaces_none (s : string) :
  all_chars (fun c => negb (Ascii.eqb c " ")) s = true -> PyStr.remove_spaces s = s.
Proof.
  induction s as [|c s IH]; [reflexivity|]. cbn [all_chars PyStr.remove_spaces].
  rewrite andb_true_iff. intros [Hc Hs]. apply negb_true_iff in Hc.
  now rewrite Hc, (IH Hs).
Qed.

Lemma lower_fixed (s : string) :
  all_chars (fun c => Ascii.eqb (PyStr.to_lower c) c) s = true -> PyStr.lower s = s.
Proof.
  unfold PyStr.lower. induction s as [|c s IH]; [reflexivity|].
  cbn [all_chars PyStr.map]. rewrite andb_true_iff, Ascii.eqb_eq.
  intros [-> Hs]. now rewrite (IH Hs).
Qed.

(** A string of lowercase hexadecimal digits is its own normal form. *)
Lemma hex_normal_form_digits (s : string) :
  all_chars PluginLoader.is_hex_lower s = true -> hex_normal_form s = s.
Proof.
  intros H. unfold hex_normal_form, PyStr.strip.
  assert (Hsp : all_chars (fun c => negb (PyStr.is_space c)) s = true).
  { apply (all_chars_impl _ _ _ (fun c Hc =>
             f_equal negb (proj1 (hex_lower_plain c Hc))) H). }
  assert (Hlo : all_chars (fun c => Ascii.eqb (PyStr.to_lower c) c) s = true).
  { apply (all_chars_impl PluginLoader.is_hex_lower); [|exact H].
    intros c Hc. apply Ascii.eqb_eq. apply (hex_lower_plain c Hc). }
  assert (Hbl : all_chars (fun c => negb (Ascii.eqb c " ")) s = true).
  { apply (all_chars_impl PluginLoader.is_hex_lower); [|exact H].
    intros c Hc. apply negb_true_iff. apply (hex_lower_plain c Hc). }
  now rewrite (lstrip_no_space _ Hsp), (rstrip_no_space _ Hsp),
    (lower_fixed _ Hlo), (remove_spaces_none _ Hbl).
Qed.

(** [_normalize_hex] sees its argument through the normal form only. *)
Lemma normalize_hex_by_normal_form (v v' context : string) :
  hex_normal_form v = hex_normal_form v' ->
  PluginLoader._normalize_hex v context = PluginLoader._normalize_hex v' context.
Proof.
  intros H. unfold PluginLoader._normalize_hex.
  fold (hex_normal_form v). fold (hex_normal_form v'). now rewrite H.
Qed.

(** X4. The hexadecimal text of a payload of 1 to 512 bytes - what
    [SendResult.payload_hex] holds - is accepted by [_normalize_hex] and
    decodes to the same bytes. *)
Theorem normalize_hex_of_hex (bs : list byte) (context : string) :
  (1 <= List.length bs <= 512)%nat ->
  PluginLoader._normalize_hex (PyBytes.hex bs) context = Ok bs.
Proof.
  intros Hlen. destruct (hex_all_digits bs) as [Hall Hl].
  unfold PluginLoader._normalize_hex. fold (hex_normal_form (PyBytes.hex bs)).
  rewrite (hex_normal_form_digits _ Hall), Hl.
  destruct (Nat.eqb_spec (2 * List.length bs) 0) as [E | _]; [lia|].
  replace ((2 * List.length bs) mod 2)%nat with 0%nat
    by (symmetry; rewrite Nat.mul_comm; apply Nat.Div0.mod_mul).
  cbn [Nat.eqb negb].
  assert (Hm : PluginLoader._HEX_RE_match (PyBytes.hex bs) = true).
  { destruct bs as [|b bs]; [cbn in Hlen; lia|].
    cbn [PyBytes.hex] in *. cbn [all_chars] in Hall.
    apply andb_true_iff in Hall. destruct Hall as [Ha Hrest].
    cbn [PluginLoader._HEX_RE_match]. rewrite Ha. cbn [andb].
    now apply all_hex_re_tail. }
  rewrite Hm. cbn [negb]. rewrite fromhex_hex. cbn [bind].
  unfold PluginLoader._MAX_PAYLOAD_BYTES.
  destruct (Nat.ltb_spec 512 (List.length bs)); [lia | reflexivity].
Qed.

Lemma normalize_hex_of_hex_witness :
  PluginLoader._normalize_hex (PyBytes.hex [xaa; x0a; x00]%byte) "p.anc.on"
  = Ok [xaa; x0a; x00]%byte.
Proof.
  apply (normalize_hex_of_hex [xaa; x0a; x00]%byte "p.anc.on"). cbn. lia.
Defined.

Section StripFacts.

Variable f : ascii -> ascii.
Hypothesis f_space : forall c, PyStr.is_space (f c) = PyStr.is_space c.

Lemma lstrip_map (s : string) :
  PyStr.lstrip (PyStr.map f s) = PyStr.map f (PyStr.lstrip s).
Proof.
  induction s as [|c s IH]; [reflexivity|].
  cbn [PyStr.map PyStr.lstrip]. rewrite f_space.
  destruct (PyStr.is_space c); [exact IH | reflexivity].
Qed.

Lemma rstrip_map (s : string) :
  PyStr.rstrip (PyStr.map f s) = PyStr.map f (PyStr.rstrip s).
Proof.
  induction s as [|c s IH]; [reflexivity|].
  cbn [PyStr.map PyStr.rstrip]. rewrite IH, f_space.
  destruct (PyStr.rstrip s); cbn [PyStr.map];
    [destruct (PyStr.is_space c); reflexivity | reflexivity].
Qed.

Lemma strip_map (s : string) :
  PyStr.strip (PyStr.map f s) = PyStr.map f (PyStr.strip s).
Proof. unfold PyStr.strip. now rewrite lstrip_map, rstrip_map. Qed.

Hypothesis f_blank : forall c, Ascii.eqb (f c) " " = Ascii.eqb c " ".

Lemma remove_spaces_map (s : string) :
  PyStr.remove_spaces (PyStr.map f s) = PyStr.map f (PyStr.remove_spaces s).
Proof.
  induction s as [|c s IH]; [reflexivity|].
  cbn [PyStr.map PyStr.remove_spaces]. rewrite f_blank.
  destruct (Ascii.eqb c " "); cbn [PyStr.map]; now rewrite IH.
Qed.

End StripFacts.

Lemma to_lower_blank (c : ascii) :
  Ascii.eqb (PyStr.to_lower c) " " = Ascii.eqb c " ".
Proof. destruct c as [[] [] [] [] [] [] [] []]; reflexivity. Qed.

Lemma remove_spaces_app (a b : string) :
  PyStr.remove_spaces (a ++ b) = PyStr.remove_spaces a ++ PyStr.remove_spaces b.
Proof.
  induction a as [|c a IH]; [reflexivity|].
  cbn [append PyStr.remove_spaces]. rewrite IH.
  destruct (Ascii.eqb c " "); reflexivity.
Qed.

Lemma remove_spaces_lstrip (s : string) :
  PyStr.remove_spaces (PyStr.lstrip s) = PyStr.lstrip (PyStr.remove_spaces s).
Proof.
  induction s as [|c s IH]; [reflexivity|].
  cbn [PyStr.lstrip PyStr.remove_spaces].
  destruct (PyStr.is_space c) eqn:Hs.
  - destruct (Ascii.eqb c " "); [exact IH|].
    cbn [PyStr.lstrip]. now rewrite Hs.
  - destruct (Ascii.eqb c " ") eqn:Hb.
    + apply space_is_space in Hb. congruence.
    + cbn [PyStr.remove_spaces PyStr.lstrip]. now rewrite Hb, Hs.
Qed.

Lemma rstrip_nonempty_keeps (s : string) :
  PyStr.rstrip s <> EmptyString ->
  PyStr.remove_spaces (PyStr.rstrip s) <> EmptyString.
Proof.
  intros Hne H.
  destruct (last_char (PyStr.rstrip s)) as [c|] eqn:E.
  - pose proof (rstrip_last _ _ E) as Hc.
    pose proof (remove_spaces_last _ _ E Hc) as Hl.
    rewrite H in Hl. discriminate Hl.
  - apply last_char_none in E. contradiction.
Qed.

Lemma remove_spaces_rstrip (s : string) :
  PyStr.remove_spaces (PyStr.rstrip s) = PyStr.rstrip (PyStr.remove_spaces s).
Proof.
  induction s as [|c s IH]; [reflexivity|].
  cbn [PyStr.rstrip PyStr.remove_spaces].
  destruct (PyStr.rstrip s) as [|r0 r] eqn:Er.
  - cbn [PyStr.remove_spaces] in IH.
    destruct (Ascii.eqb c " ") eqn:Hb.
    + apply space_is_space in Hb. rewrite Hb. exact IH.
    + cbn [PyStr.rstrip]. rewrite <- IH.
      destruct (PyStr.is_space c); cbn [PyStr.remove_spaces];
        [reflexivity | now rewrite Hb].
  - assert (Hne : PyStr.remove_spaces (String r0 r) <> EmptyString).
    { rewrite <- Er. apply rstrip_nonempty_keeps. rewrite Er. discriminate. }
    change (PyStr.remove_spaces (String c (String r0 r)))
      with (if Ascii.eqb c " " then PyStr.remove_spaces (String r0 r)
            else String c (PyStr.remove_spaces (String r0 r))).
    destruct (Ascii.eqb c " ") eqn:Hb; [exact IH|].
    cbn [PyStr.rstrip]. rewrite <- IH.
    destruct (PyStr.remove_spaces (String r0 r)); [contradiction | reflexivity].
Qed.

Lemma remove_spaces_strip (s : string) :
  PyStr.remove_spaces (PyStr.strip s) = PyStr.strip (PyStr.remove_spaces s).
Proof. unfold PyStr.strip. now rewrite remove_spaces_rstrip, remove_spaces_lstrip. Qed.

(** The normal form, with the space characters removed first. *)
Lemma hex_normal_form_spaces_first (s : string) :
  hex_normal_form s = PyStr.lower (PyStr.strip (PyStr.remove_spaces s)).
Proof.
  unfold hex_normal_form, PyStr.lower.
  rewrite (remove_spaces_map _ to_lower_blank), remove_spaces_strip.
  reflexivity.
Qed.

(** X5. [_normalize_hex] ignores letter case and space characters: a
    payload and its uppercase form give the same result, and so do a
    payload and the same payload with a space put in anywhere. *)
Theorem normalize_hex_ignores_case_and_spaces (v a b context : string) :
  PluginLoader._normalize_hex (PyStr.upper v) context =
  PluginLoader._normalize_hex v context /\
  PluginLoader._normalize_hex (a ++ " " ++ b) context =
  PluginLoader._normalize_hex (a ++ b) context.
Proof.
  split; apply normalize_hex_by_normal_form.
  - unfold hex_normal_form, PyStr.upper.
    rewrite (strip_map _ to_upper_space). fold (PyStr.upper (PyStr.strip v)).
    now rewrite lower_upper.
  - rewrite !hex_normal_form_spaces_first, !remove_spaces_app. reflexivity.
Qed.

(** ** UUIDs and booleans of a document *)

Lemma hex_group_split (n : nat) (s rest : string) :
  PluginBuilder.hex_group n s = Some rest ->
  exists body,
    s = body ++ rest /\ String.length body = n /\
    all_chars PluginLoader.is_hex_lower body = true.
Proof.
  revert s; induction n as [|n IH]; intros s; cbn [PluginBuilder.hex_group].
  - intros H. injection H as <-. now exists "".
  - destruct s as [|c s]; [discriminate|].
    destruct (PluginLoader.is_hex_lower c) eqn:Hc; [|discriminate].
    intros H. destruct (IH _ H) as (body & -> & Hl & Ha).
    exists (String c body). cbn. now rewrite Hl, Hc, Ha.
Qed.

Lemma all_chars_app (f : ascii -> bool) (a b : string) :
  all_chars f (a ++ b) = all_chars f a && all_chars f b.
Proof.
  induction a as [|c a IH]; cbn; [reflexivity|]. now rewrite IH, andb_assoc.
Qed.

Lemma length_app_string (a b : string) :
  String.length (a ++ b) = (String.length a + String.length b)%nat.
Proof. induction a as [|c a IH]; cbn; [reflexivity | now rewrite IH]. Qed.

Lemma app_empty_r (a : string) : a ++ "" = a.
Proof. induction a as [|c a IH]; cbn; [reflexivity | now rewrite IH]. Qed.

Lemma app_assoc_string (a b c : string) : (a ++ b) ++ c = a ++ (b ++ c).
Proof. induction a as [|x a IH]; cbn; [reflexivity | now rewrite IH]. Qed.

Lemma hex_is_uuid_char (s : string) :
  all_chars PluginLoader.is_hex_lower s = true -> all_chars uuid_char s = true.
Proof.
  apply all_chars_impl. intros c H. unfold uuid_char. now rewrite H.
Qed.

(** What [hex_groups] accepts: digits and dashes of the right number, then
    nothing, or one newline. *)
Lemma hex_groups_split (sizes : list nat) (s : string) :
  PluginBuilder.hex_groups sizes s = true ->
  exists body tail,
    s = body ++ tail /\
    (tail = EmptyString \/ tail = String LF EmptyString) /\
    all_chars uuid_char body = true /\
    String.length body = (list_sum sizes + (List.length sizes - 1))%nat.
Proof.
  revert s; induction sizes as [|n more IH]; intros s; [discriminate|].
  cbn [PluginBuilder.hex_groups].
  destruct (PluginBuilder.hex_group n s) as [rest|] eqn:Hg; [|discriminate].
  destruct (hex_group_split _ _ _ Hg) as (body & -> & Hl & Ha).
  destruct more as [|m more].
  - unfold PluginBuilder.at_end. rewrite orb_true_iff, !String.eqb_eq.
    intros Ht. exists body, rest. split; [reflexivity|]. split; [exact Ht|].
    split; [now apply hex_is_uuid_char|]. cbn. lia.
  - destruct rest as [|c rest]; [discriminate|].
    rewrite andb_true_iff, Ascii.eqb_eq. intros [-> Hm].
    destruct (IH _ Hm) as (body' & tail & -> & Ht & Ha' & Hl').
    exists (body ++ String "-" body'), tail.
    split; [now rewrite app_assoc_string|]. split; [exact Ht|]. split.
    + rewrite all_chars_app. cbn. now rewrite (hex_is_uuid_char _ Ha), Ha'.
    + rewrite length_app_string.
      cbn [String.length List.length list_sum fold_right] in *. lia.
Qed.

Lemma last_char_app_char (a : string) (c : ascii) :
  last_char (a ++ String c EmptyString) = Some c.
Proof.
  induction a as [|x a IH]; [reflexivity|].
  cbn [append]. rewrite last_char_cons, IH. reflexivity.
Qed.

Lemma lower_strip_last (value : string) (c : ascii) :
  last_char (PyStr.lower (PyStr.strip value)) = Some c -> PyStr.is_space c = false.
Proof.
  unfold PyStr.lower. rewrite map_last.
  destruct (last_char (PyStr.strip value)) as [x|] eqn:E; [|discriminate].
  cbn. intros H. injection H as <-.
  rewrite to_lower_space. exact (strip_last _ _ E).
Qed.

Lemma uuid_char_plain (c : ascii) :
  uuid_char c = true ->
  PyStr.is_space c = false /\ PyStr.to_lower c = c.
Proof.
  destruct c as [[] [] [] [] [] [] [] []]; intros H; try discriminate H;
    split; reflexivity.
Qed.

Lemma uuid_chars_fixed (u : string) :
  all_chars uuid_char u = true -> PyStr.lower (PyStr.strip u) = u.
Proof.
  intros H. unfold PyStr.strip.
  assert (Hsp : all_chars (fun c => negb (PyStr.is_space c)) u = true).
  { apply (all_chars_impl uuid_char); [|exact H].
    intros c Hc. apply negb_true_iff. apply (uuid_char_plain c Hc). }
  assert (Hlo : all_chars (fun c => Ascii.eqb (PyStr.to_lower c) c) u = true).
  { apply (all_chars_impl uuid_char); [|exact H].
    intros c Hc. apply Ascii.eqb_eq. apply (uuid_char_plain c Hc). }
  now rewrite (lstrip_no_space _ Hsp), (rstrip_no_space _ Hsp), (lower_fixed _ Hlo).
Qed.

(** X6. A UUID that [_normalize_uuid] accepts is returned stripped and
    lowercased; it is made of lowercase hexadecimal digits and dashes
    only, 4, 8 or 36 characters long, and normalizing it again gives it
    back.  A UUID that is not accepted raises [PluginValidationError]. *)
Theorem normalize_uuid_spec (value context : string) :
  (forall u,
     PluginBuilder._normalize_uuid value context = Ok u ->
     u = PyStr.lower (PyStr.strip value) /\
     all_chars uuid_char u = true /\
     (String.length u = 4 \/ String.length u = 8 \/ String.length u = 36)%nat /\
     forall context', PluginBuilder._normalize_uuid u context' = Ok u) /\
  (forall e,
     PluginBuilder._normalize_uuid value context = Raise e ->
     exists msg, e = PluginValidationError msg).
Proof.
  unfold PluginBuilder._normalize_uuid at 1 3.
  pose proof (lower_strip_last value) as Hlast.
  set (n := PyStr.lower (PyStr.strip value)) in *.
  destruct (PluginBuilder._UUID_RE_match n) eqn:Hm; cbn [negb]; split;
    try discriminate.
  - intros u H. injection H as <-. split; [reflexivity|].
    assert (Hshape : all_chars uuid_char n = true /\
                     (String.length n = 4 \/ String.length n = 8 \/
                      String.length n = 36)%nat).
    { unfold PluginBuilder._UUID_RE_match in Hm.
      apply orb_true_iff in Hm. destruct Hm as [Hm | Hm];
        [apply orb_true_iff in Hm; destruct Hm as [Hm | Hm]|];
        destruct (hex_groups_split _ _ Hm) as (body & tail & Hn & Ht & Ha & Hl);
        (destruct Ht as [-> | ->];
         [rewrite app_empty_r in Hn; subst body; split; [exact Ha|];
          cbn in Hl; lia
         | exfalso; specialize (Hlast LF); rewrite Hn, last_char_app_char in Hlast;
           specialize (Hlast eq_refl); discriminate Hlast]). }
    destruct Hshape as [Ha Hl]. split; [exact Ha|]. split; [exact Hl|].
    intros context'. unfold PluginBuilder._normalize_uuid.
    rewrite (uuid_chars_fixed n Ha), Hm. reflexivity.
  - intros e H. injection H as <-. eexists. reflexivity.
Qed.

Lemma normalize_uuid_spec_witness :
  "0000180f-0000-1000-8000-00805f9b34fb" =
  PyStr.lower (PyStr.strip " 0000180F-0000-1000-8000-00805F9B34FB ") /\
  all_chars uuid_char "0000180f-0000-1000-8000-00805f9b34fb" = true /\
  (String.length "0000180f-0000-1000-8000-00805f9b34fb" = 4 \/
   String.length "0000180f-0000-1000-8000-00805f9b34fb" = 8 \/
   String.length "0000180f-0000-1000-8000-00805f9b34fb" = 36)%nat /\
  forall context',
    PluginBuilder._normalize_uuid "0000180f-0000-1000-8000-00805f9b34fb" context'
    = Ok "0000180f-0000-1000-8000-00805f9b34fb".
Proof.
  exact (proj1 (normalize_uuid_spec " 0000180F-0000-1000-8000-00805F9B34FB "
                  "p.transport.service_uuid")
               "0000180f-0000-1000-8000-00805f9b34fb" eq_refl).
Defined.

(** X7. A boolean field written as a plain word goes through the YAML
    loader as a string and then through [_normalize_bool]: [true] and
    [false], in any letter case, give the boolean; any other word that the
    loader leaves a string - [yes], [no], [on], [off] among them - raises
    [PluginValidationError].  A real boolean is returned as it is, and an
    object that is neither a boolean nor a string is rejected. *)
Theorem normalize_bool_after_load
        (construct_other : string -> string -> result Yaml.pyobj)
        (scalar_eq : Yaml.pyobj -> Yaml.pyobj -> bool)
        (scalar_str : string -> string -> string)
        (safe : Yaml.implicit_resolvers) (word context : string) :
  only_boolean safe word ->
  (PyStr.lower (PyStr.strip word) = "true" ->
   (v <- Yaml.load construct_other scalar_eq scalar_str safe (plain word) ;;
    PluginBuilder._normalize_bool v context) = Ok true) /\
  (PyStr.lower (PyStr.strip word) = "false" ->
   (v <- Yaml.load construct_other scalar_eq scalar_str safe (plain word) ;;
    PluginBuilder._normalize_bool v context) = Ok false) /\
  (PyStr.lower (PyStr.strip word) <> "true" ->
   PyStr.lower (PyStr.strip word) <> "false" ->
   (v <- Yaml.load construct_other scalar_eq scalar_str safe (plain word) ;;
    PluginBuilder._normalize_bool v context) =
   Raise (PluginValidationError (context ++ " must be boolean true/false"))) /\
  (forall b, PluginBuilder._normalize_bool (Yaml.PyBool b) context = Ok b) /\
  (forall v,
     (forall b, v <> Yaml.PyBool b) -> (forall s, v <> Yaml.PyStr s) ->
     PluginBuilder._normalize_bool v context =
     Raise (PluginValidationError (context ++ " must be boolean true/false"))).
Proof.
  intros Hob.
  rewrite (load_plain_only_boolean construct_other scalar_eq scalar_str safe word Hob).
  cbn [bind PluginBuilder._normalize_bool].
  split; [|split; [|split; [|split]]].
  - intros ->. reflexivity.
  - intros ->. reflexivity.
  - intros H1 H2.
    destruct (String.eqb_spec (PyStr.lower (PyStr.strip word)) "true");
      [contradiction|].
    destruct (String.eqb_spec (PyStr.lower (PyStr.strip word)) "false");
      [contradiction | reflexivity].
  - reflexivity.
  - intros v Hb Hs. destruct v; try reflexivity.
    + exfalso. now apply (Hb b).
    + exfalso. now apply (Hs s).
Qed.

Lemma only_boolean_words (word : string) :
  In word ["true"; "True"; "FALSE"; "yes"; "on"; "Off"; "no"] ->
  only_boolean safe_resolvers_bool word.
Proof.
  intros Hin tag re Hre Hm. cbn in Hin.
  repeat (destruct Hin as [<- | Hin];
          [cbn in Hre;
           repeat (destruct Hre as [Hre | Hre];
                   [injection Hre as <- <-;
                    first [reflexivity | vm_compute in Hm; discriminate Hm] |]);
           contradiction |]).
  contradiction.
Qed.

Lemma normalize_bool_after_load_witness :
  (v <- Yaml.load Fixtures.keep_other Fixtures.same_text Fixtures.as_written
          safe_resolvers_bool (plain "True") ;;
   PluginBuilder._normalize_bool v "p.transport.write_with_response") = Ok true /\
  (v <- Yaml.load Fixtures.keep_other Fixtures.same_text Fixtures.as_written
          safe_resolvers_bool (plain "FALSE") ;;
   PluginBuilder._normalize_bool v "p.transport.write_with_response") = Ok false /\
  (v <- Yaml.load Fixtures.keep_other Fixtures.same_text Fixtures.as_written
          safe_resolvers_bool (plain "yes") ;;
   PluginBuilder._normalize_bool v "p.transport.write_with_response") =
  Raise (PluginValidationError
           ("p.transport.write_with_response" ++ " must be boolean true/false")).
Proof.
  split; [|split].
  - destruct (normalize_bool_after_load Fixtures.keep_other Fixtures.same_text
                Fixtures.as_written safe_resolvers_bool "True"
                "p.transport.write_with_response") as (H & _);
      [apply only_boolean_words; cbn; tauto | apply H; reflexivity].
  - destruct (normalize_bool_after_load Fixtures.keep_other Fixtures.same_text
                Fixtures.as_written safe_resolvers_bool "FALSE"
                "p.transport.write_with_response") as (_ & H & _);
      [apply only_boolean_words; cbn; tauto | apply H; reflexivity].
  - destruct (normalize_bool_after_load Fixtures.keep_other Fixtures.same_text
                Fixtures.as_written safe_resolvers_bool "yes"
                "p.transport.write_with_response") as (_ & _ & H & _);
      [apply only_boolean_words; cbn; tauto
      | apply H; intros E; vm_compute in E; discriminate E].
Defined.

(** ** Plugins built from documents *)

Section BuilderFacts.
Import PluginBuilder.

Lemma payloads_in_bounds_set (values : PyDict.t (list byte)) (k : string)
      (payload : list byte) :
  payloads_in_bounds values -> (1 <= List.length payload <= 512)%nat ->
  payloads_in_bounds (PyDict.set values k payload).
Proof.
  intros Hv Hp k' x. rewrite get_set.
  destruct (String.eqb k' k); [intros H; now injection H as <- | apply Hv].
Qed.

Lemma build_values_bounds (plugin_id feature_name : string)
      (items : list (string * string)) (acc values : PyDict.t (list byte)) :
  build_values plugin_id feature_name items acc = Ok values ->
  payloads_in_bounds acc -> payloads_in_bounds values.
Proof.
  revert acc; induction items as [|[value_name hex_payload] items IH]; intros acc.
  - cbn. intros H. now injection H as <-.
  - cbn [build_values].
    destruct (PluginLoader._normalize_hex hex_payload _) as [payload|] eqn:E;
      [|discriminate].
    cbn [bind]. intros H Hacc. apply (IH _ H).
    apply payloads_in_bounds_set; [exact Hacc|].
    apply (normalize_hex_ok_bytes _ _ _ E).
Qed.

Lemma build_values_mem (plugin_id feature_name : string)
      (items : list (string * string)) (acc values : PyDict.t (list byte))
      (k : string) :
  build_values plugin_id feature_name items acc = Ok values ->
  PyDict.mem k values = PyDict.mem k acc || PyDict.mem k items.
Proof.
  revert acc; induction items as [|[value_name hex_payload] items IH]; intros acc.
  - cbn. intros H. injection H as <-. now rewrite orb_false_r.
  - cbn [build_values].
    destruct (PluginLoader._normalize_hex hex_payload _) as [payload|];
      [|discriminate].
    cbn [bind]. intros H. rewrite (IH _ H), mem_set.
    unfold PyDict.mem. cbn [PyDict.get].
    destruct (String.eqb k value_name), (PyDict.get acc k), (PyDict.get items k);
      reflexivity.
Qed.

Lemma features_in_bounds_set (features : PyDict.t EnumFeature) (k : string)
      (values : PyDict.t (list byte)) :
  features_in_bounds features -> payloads_in_bounds values ->
  features_in_bounds (PyDict.set features k (mkEnumFeature "enum" values)).
Proof.
  intros Hf Hv k' spec. rewrite get_set.
  destruct (String.eqb k' k); [|apply Hf].
  intros H. injection H as <-. split; [reflexivity | exact Hv].
Qed.

Lemma build_features_bounds (plugin_id : string)
      (items : list (string * PyDict.t string))
      (acc features : PyDict.t EnumFeature) :
  build_features plugin_id items acc = Ok features ->
  features_in_bounds acc -> features_in_bounds features.
Proof.
  revert acc; induction items as [|[feature_name feature_spec] items IH]; intros acc.
  - cbn. intros H. now injection H as <-.
  - cbn [build_features].
    destruct (build_values plugin_id feature_name _ []) as [values|] eqn:E;
      [|discriminate].
    cbn [bind]. intros H Hacc. apply (IH _ H).
    apply features_in_bounds_set; [exact Hacc|].
    apply (build_values_bounds _ _ _ _ _ E). intros k x Hk. discriminate Hk.
Qed.

(** Every feature of the result is a feature of the accumulator or of the
    document, with the value names of its entry there. *)
Lemma build_features_names (plugin_id : string)
      (items : list (string * PyDict.t string))
      (acc features : PyDict.t EnumFeature) :
  build_features plugin_id items acc = Ok features ->
  (forall k, PyDict.mem k features = PyDict.mem k acc || PyDict.mem k items) /\
  (forall k spec,
     PyDict.get features k = Some spec ->
     PyDict.get acc k = Some spec \/
     exists feature_spec,
       In (k, feature_spec) items /\
       forall v, PyDict.mem v (values spec) = PyDict.mem v feature_spec).
Proof.
  revert acc; induction items as [|[feature_name feature_spec] items IH]; intros acc.
  - cbn. intros H. injection H as <-. split; [|now left].
    intros k. now rewrite orb_false_r.
  - cbn [build_features].
    destruct (build_values plugin_id feature_name _ []) as [vals|] eqn:E;
      [|discriminate].
    cbn [bind]. intros H. destruct (IH _ H) as [Hm Hg]. split.
    + intros k. rewrite Hm, mem_set. unfold PyDict.mem. cbn [PyDict.get].
      destruct (String.eqb k feature_name), (PyDict.get acc k),
        (PyDict.get items k); reflexivity.
    + intros k spec Hk. destruct (Hg k spec Hk) as [Hacc | (fs & Hin & Hv)].
      * rewrite get_set in Hacc.
        destruct (String.eqb_spec k feature_name) as [-> | Hne]; [|now left].
        injection Hacc as <-. right. exists feature_spec.
        split; [now left|]. intros v. cbn [values].
        now rewrite (build_values_mem _ _ _ _ _ v E).
      * right. exists fs. split; [now right | exact Hv].
Qed.

Lemma normalize_uuid_nonempty (value context u : string) :
  _normalize_uuid value context = Ok u -> u <> EmptyString.
Proof.
  unfold _normalize_uuid.
  destruct (_UUID_RE_match (PyStr.lower (PyStr.strip value))) eqn:Hm;
    cbn [negb]; [|discriminate].
  intros H. injection H as <-. intros E. rewrite E in Hm. discriminate Hm.
Qed.

Lemma normalize_uuid_raises (value context : string) (e : exn) :
  _normalize_uuid value context = Raise e ->
  exists msg, e = PluginValidationError msg.
Proof.
  unfold _normalize_uuid.
  destruct (_UUID_RE_match (PyStr.lower (PyStr.strip value))); cbn [negb];
    [discriminate|].
  intros H. injection H as <-. eexists. reflexivity.
Qed.

Lemma build_transport_well_formed (doc : PluginDoc) (source : string)
      (t : TransportSpec) :
  build_transport doc source = Ok t -> transport_well_formed t.
Proof.
  unfold build_transport.
  destruct (String.eqb (doc_type (doc_transport doc)) "rfcomm").
  - destruct (doc_channel (doc_transport doc)) as [ch|]; [|discriminate].
    cbn. intros H. injection H as <-. left. split; [reflexivity | now exists ch].
  - destruct (String.eqb (doc_type (doc_transport doc)) "ble"); [|discriminate].
    destruct (doc_service_uuid (doc_transport doc)) as [rs|]; [|discriminate].
    cbn [required bind].
    destruct (_normalize_uuid rs _) as [su|] eqn:Es; [|discriminate].
    cbn [bind].
    destruct (doc_write_char_uuid (doc_transport doc)) as [rw|]; [|discriminate].
    cbn [required bind].
    destruct (_normalize_uuid rw _) as [wu|] eqn:Ew; [|discriminate].
    cbn [bind].
    destruct (match doc_notify_char_uuid (doc_transport doc) with
              | Some raw_notify => _
              | None => _
              end) as [nu|]; [|discriminate].
    cbn [bind].
    destruct (_normalize_bool _ _) as [wr|]; [|discriminate].
    cbn [bind]. intros H. injection H as <-. right. split; [reflexivity|].
    exists su, wu. repeat split;
      eauto using normalize_uuid_nonempty.
Qed.

End BuilderFacts.

(** ** Dispatch to the transports *)

Section DispatchFacts.
Import Service.

Variable plugins : PyDict.t Plugin.
Variable list_devices : result (list DetectedDevice).
Variable send : transports.
Variable feature value : string.
Variable plugin_id device_hint : option string.

Lemma feature_values_ok (target : ResolvedTarget) (spec : EnumFeature) :
  resolve_target plugins list_devices plugin_id device_hint = Ok target ->
  PyDict.get (features (plugin target)) feature = Some spec ->
  feature_values plugins list_devices feature plugin_id device_hint =
  Ok (target, PyStr.sorted (PyDict.keys (values spec))).
Proof.
  intros Hres Hget. unfold feature_values. rewrite Hres. cbn [bind].
  now rewrite Hget.
Qed.

(** [set_feature], once the target, the feature and the value are found. *)
Lemma set_feature_dispatch (target : ResolvedTarget) (spec : EnumFeature)
      (payload : list byte) :
  resolve_target plugins list_devices plugin_id device_hint = Ok target ->
  PyDict.get (features (plugin target)) feature = Some spec ->
  PyDict.get (values spec) value = Some payload ->
  match call_for target payload with
  | Some call =>
      set_feature plugins list_devices send feature value plugin_id device_hint =
      (response <- send call ;;
       Ok (mkSendResult target feature value (PyBytes.hex payload)
                        (response_hex_of response)),
       [call])
  | None =>
      exists msg,
        set_feature plugins list_devices send feature value plugin_id device_hint =
        (Raise (FeatureResolutionError msg), [])
  end.
Proof.
  intros Hres Hget Hval. unfold set_feature, call_for.
  rewrite (feature_values_ok target spec Hres Hget), Hget, Hval.
  destruct (String.eqb (type (transport (plugin target))) "rfcomm").
  - destruct (channel (transport (plugin target)));
      [reflexivity | eexists; reflexivity].
  - destruct (String.eqb (type (transport (plugin target))) "ble");
      [|eexists; reflexivity].
    destruct (PyStr.given (service_uuid (transport (plugin target))));
      [|eexists; reflexivity].
    destruct (PyStr.given (write_char_uuid (transport (plugin target))));
      [reflexivity | eexists; reflexivity].
Qed.

Lemma well_formed_has_call (target : ResolvedTarget) (payload : list byte) :
  transport_well_formed (transport (plugin target)) ->
  exists call, call_for target payload = Some call.
Proof.
  unfold call_for. intros [[Ht [ch Hc]] | [Ht (su & wu & Hs & Hw & Hsn & Hwn)]].
  - rewrite Ht, Hc. cbn. eexists. reflexivity.
  - rewrite Ht, Hs, Hw. cbn.
    destruct (String.eqb_spec su ""); [contradiction|].
    destruct (String.eqb_spec wu ""); [contradiction|].
    eexists. reflexivity.
Qed.

End DispatchFacts.

(** X8. A plugin that [_build_plugin] returns has the features of the
    document and no other, each of type enum with the value names of its
    entry in the document, and every payload has between 1 and 512
    bytes. *)
Theorem built_plugin_features
        (validate : PluginBuilder.PluginDoc -> option PluginBuilder.ValidationError)
        (doc : PluginBuilder.PluginDoc) (source : string) (p : Plugin) :
  PluginBuilder._build_plugin validate doc source = Ok p ->
  features_in_bounds (features p) /\
  (forall feature_name,
     PyDict.mem feature_name (features p) =
     PyDict.mem feature_name (PluginBuilder.doc_features doc)) /\
  (forall feature_name spec,
     PyDict.get (features p) feature_name = Some spec ->
     exists feature_spec,
       In (feature_name, feature_spec) (PluginBuilder.doc_features doc) /\
       forall value_name,
         PyDict.mem value_name (values spec) = PyDict.mem value_name feature_spec).
Proof.
  unfold PluginBuilder._build_plugin.
  destruct (validate doc); [discriminate|].
  destruct (PluginBuilder.build_features _ _ []) as [fs|] eqn:E; [|discriminate].
  cbn [bind].
  destruct (PluginBuilder.build_transport doc source) as [t|]; [|discriminate].
  cbn [bind]. intros H. injection H as <-. cbn [features].
  destruct (build_features_names _ _ _ _ E) as [Hm Hg].
  split; [|split].
  - apply (build_features_bounds _ _ _ _ E). intros k x Hk. discriminate Hk.
  - intros k. now rewrite Hm.
  - intros k spec Hk. destruct (Hg k spec Hk) as [Hn | Hex];
      [discriminate Hn | exact Hex].
Qed.

Lemma built_plugin_features_witness :
  exists p,
    PluginBuilder._build_plugin accept_all oneplus_doc "oneplus_buds4.yaml" = Ok p /\
    features_in_bounds (features p) /\
    PyDict.mem "anc" (features p) = true.
Proof.
  eexists. split; [reflexivity|].
  destruct (built_plugin_features accept_all oneplus_doc "oneplus_buds4.yaml" _
              eq_refl) as (Hb & Hm & _).
  split; [exact Hb|]. rewrite Hm. reflexivity.
Defined.

(** X9. The transport of a plugin that [_build_plugin] returns is RFCOMM
    with a channel or BLE with non-empty service and write UUIDs; so when
    the target's plugin was built this way and the feature and the value
    are found, [set_feature] reaches the transport: it makes one call,
    with the payload, and its outcome is the transport's. *)
Theorem built_plugin_dispatches
        (validate : PluginBuilder.PluginDoc -> option PluginBuilder.ValidationError)
        (doc : PluginBuilder.PluginDoc) (source : string) (p : Plugin)
        (plugins : PyDict.t Plugin) (list_devices : result (list DetectedDevice))
        (send : Service.transports) (feature value : string)
        (plugin_id device_hint : option string)
        (target : ResolvedTarget) (spec : EnumFeature) (payload : list byte) :
  PluginBuilder._build_plugin validate doc source = Ok p ->
  transport_well_formed (transport p) /\
  (Service.resolve_target plugins list_devices plugin_id device_hint = Ok target ->
   plugin target = p ->
   PyDict.get (features p) feature = Some spec ->
   PyDict.get (values spec) value = Some payload ->
   exists call,
     call_for target payload = Some call /\
     Service.set_feature plugins list_devices send feature value
                         plugin_id device_hint =
     (response <- send call ;;
      Ok (mkSendResult target feature value (PyBytes.hex payload)
                       (Service.response_hex_of response)),
      [call])).
Proof.
  intros Hb.
  assert (Hwf : transport_well_formed (transport p)).
  { revert Hb. unfold PluginBuilder._build_plugin.
    destruct (validate doc); [discriminate|].
    destruct (PluginBuilder.build_features _ _ []); [|discriminate]. cbn [bind].
    destruct (PluginBuilder.build_transport doc source) as [t|] eqn:E;
      [|discriminate].
    cbn [bind]. intros H. injection H as <-. cbn [transport].
    exact (build_transport_well_formed _ _ _ E). }
  split; [exact Hwf|].
  intros Hres Hp Hget Hval. subst p.
  destruct (well_formed_has_call target payload Hwf) as [call Hcall].
  exists call. split; [exact Hcall|].
  pose proof (set_feature_dispatch plugins list_devices send feature value
                plugin_id device_hint target spec payload Hres Hget Hval) as H.
  now rewrite Hcall in H.
Qed.

Lemma built_plugin_dispatches_witness :
  exists call,
    Service.set_feature [("oneplus_buds4", built_oneplus)] (Ok [Fixtures.buds_a])
                        (fun _ => Ok None) "anc" "on" None None =
    (response <- Ok None ;;
     Ok (mkSendResult (mkResolvedTarget Fixtures.buds_a built_oneplus) "anc" "on"
           "aa0a00000404480300010102" (Service.response_hex_of response)),
     [call]).
Proof.
  edestruct (built_plugin_dispatches accept_all oneplus_doc "oneplus_buds4.yaml"
               built_oneplus [("oneplus_buds4", built_oneplus)]
               (Ok [Fixtures.buds_a]) (fun _ => Ok None) "anc" "on" None None
               (mkResolvedTarget Fixtures.buds_a built_oneplus))
    as [_ H]; [reflexivity|].
  edestruct H as (call & _ & Hs); [reflexivity | reflexivity | reflexivity
                                  | reflexivity |].
  exists call. exact Hs.
Defined.

Section BuilderErrors.
Import PluginBuilder.

Lemma build_values_raises (plugin_id feature_name : string)
      (items : list (string * string)) (acc : PyDict.t (list byte)) (e : exn) :
  build_values plugin_id feature_name items acc = Raise e ->
  exists msg, e = PluginValidationError msg.
Proof.
  revert acc; induction items as [|[value_name hex_payload] items IH]; intros acc.
  - discriminate.
  - cbn [build_values].
    destruct (normalize_hex_total hex_payload
                (plugin_id ++ "." ++ feature_name ++ "." ++ value_name))
      as [[bs ->] | [msg ->]]; cbn [bind].
    + apply IH.
    + intros H. injection H as <-. now exists msg.
Qed.

Lemma build_features_raises (plugin_id : string)
      (items : list (string * PyDict.t string)) (acc : PyDict.t EnumFeature)
      (e : exn) :
  build_features plugin_id items acc = Raise e ->
  exists msg, e = PluginValidationError msg.
Proof.
  revert acc; induction items as [|[feature_name feature_spec] items IH]; intros acc.
  - discriminate.
  - cbn [build_features].
    destruct (build_values plugin_id feature_name _ []) as [vals|e'] eqn:E;
      cbn [bind].
    + apply IH.
    + intros H. injection H as <-. exact (build_values_raises _ _ _ _ _ E).
Qed.

Lemma normalize_bool_raises (v : Yaml.pyobj) (context : string) (e : exn) :
  _normalize_bool v context = Raise e -> exists msg, e = PluginValidationError msg.
Proof.
  destruct v; cbn; try (intros H; injection H as <-; eexists; reflexivity);
    try discriminate.
  destruct (String.eqb _ "true"); [discriminate|].
  destruct (String.eqb _ "false"); [discriminate|].
  intros H; injection H as <-; eexists; reflexivity.
Qed.

Lemma build_transport_raises (doc : PluginDoc) (source : string) (e : exn) :
  build_transport doc source = Raise e ->
  (exists msg, e = PluginValidationError msg) \/
  (exists key, e = KeyError key /\
               In key ["channel"; "service_uuid"; "write_char_uuid"]).
Proof.
  unfold build_transport.
  destruct (String.eqb (doc_type (doc_transport doc)) "rfcomm").
  { destruct (doc_channel (doc_transport doc)); [discriminate|].
    cbn. intros H. injection H as <-. right. eexists. split; [reflexivity|].
    cbn. auto. }
  destruct (String.eqb (doc_type (doc_transport doc)) "ble");
    [|intros H; injection H as <-; left; eexists; reflexivity].
  destruct (doc_service_uuid (doc_transport doc)) as [rs|]; cbn [required bind];
    [|intros H; injection H as <-; right; eexists; split; [reflexivity|];
      cbn; auto].
  destruct (_normalize_uuid rs _) as [su|e1] eqn:Es; cbn [bind];
    [|intros H; injection H as <-; left;
      exact (normalize_uuid_raises _ _ _ Es)].
  destruct (doc_write_char_uuid (doc_transport doc)) as [rw|]; cbn [required bind];
    [|intros H; injection H as <-; right; eexists; split; [reflexivity|];
      cbn; auto].
  destruct (_normalize_uuid rw _) as [wu|e2] eqn:Ew; cbn [bind];
    [|intros H; injection H as <-; left;
      exact (normalize_uuid_raises _ _ _ Ew)].
  destruct (doc_notify_char_uuid (doc_transport doc)) as [rn|]; cbn [bind].
  - destruct (_normalize_uuid rn _) as [nu|e3] eqn:En; cbn [bind];
      [|intros H; injection H as <-; left;
        exact (normalize_uuid_raises _ _ _ En)].
    destruct (_normalize_bool _ _) as [wr|e4] eqn:Eb; cbn [bind]; [discriminate|].
    intros H; injection H as <-; left. exact (normalize_bool_raises _ _ _ Eb).
  - destruct (_normalize_bool _ _) as [wr|e4] eqn:Eb; cbn [bind]; [discriminate|].
    intros H; injection H as <-; left. exact (normalize_bool_raises _ _ _ Eb).
Qed.

End BuilderErrors.

(** X10. [_build_plugin] fails with [PluginValidationError] only, but for
    a [KeyError] when the transport lacks the channel, the service UUID or
    the write UUID that its kind needs; a document that the schema rejects
    fails before anything else, with the message that names the source and
    the path. *)
Theorem build_plugin_failures
        (validate : PluginBuilder.PluginDoc -> option PluginBuilder.ValidationError)
        (doc : PluginBuilder.PluginDoc) (source : string) :
  (forall e,
     PluginBuilder._build_plugin validate doc source = Raise e ->
     (exists msg, e = PluginValidationError msg) \/
     (exists key, e = KeyError key /\
                  In key ["channel"; "service_uuid"; "write_char_uuid"])) /\
  (forall exc,
     validate doc = Some exc ->
     PluginBuilder._build_plugin validate doc source =
     Raise (PluginValidationError
              ("Schema validation failed for " ++ source ++
               (if String.eqb (PyStr.join "." (PluginBuilder.error_path exc))
                              EmptyString
                then EmptyString
                else " (" ++ PyStr.join "." (PluginBuilder.error_path exc) ++ ")")
               ++ ": " ++ PluginBuilder.error_message exc))).
Proof.
  split.
  - intros e. unfold PluginBuilder._build_plugin.
    destruct (validate doc);
      [intros H; injection H as <-; left; eexists; reflexivity|].
    destruct (PluginBuilder.build_features _ _ []) as [fs|e1] eqn:E; cbn [bind];
      [|intros H; injection H as <-; left;
        exact (build_features_raises _ _ _ _ E)].
    destruct (PluginBuilder.build_transport doc source) as [t|e2] eqn:Et;
      cbn [bind]; [discriminate|].
    intros H; injection H as <-. exact (build_transport_raises _ _ _ Et).
  - intros exc Hv. unfold PluginBuilder._build_plugin. now rewrite Hv.
Qed.

Lemma build_plugin_failures_witness :
  PluginBuilder._build_plugin accept_all usb_doc "usb.yaml" =
  Raise (PluginValidationError "Unsupported transport type 'usb' in usb.yaml") /\
  PluginBuilder._build_plugin reject_features usb_doc "usb.yaml" =
  Raise (PluginValidationError
           "Schema validation failed for usb.yaml (features.anc): 'values' is a required property").
Proof.
  split.
  - destruct (proj1 (build_plugin_failures accept_all usb_doc "usb.yaml")
                _ eq_refl) as [[msg H] | [key [H _]]].
    + reflexivity.
    + discriminate H.
  - exact (proj2 (build_plugin_failures reject_features usb_doc "usb.yaml")
                 _ eq_refl).
Defined.

(** X11. The MAC prefixes of a document are matched whatever the letter
    case they are written in: a device matches the MAC rule of the built
    plugin exactly when its MAC, uppercased, starts with one of the
    document's prefixes, stripped and uppercased.  The id, the name and
    the name tokens are those of the document. *)
Theorem built_plugin_prefixes
        (validate : PluginBuilder.PluginDoc -> option PluginBuilder.ValidationError)
        (doc : PluginBuilder.PluginDoc) (source : string) (p : Plugin) :
  PluginBuilder._build_plugin validate doc source = Ok p ->
  (forall device_mac,
     DeviceMatch._mac_prefix_match device_mac p = true <->
     exists prefix rest,
       In prefix (match PluginBuilder.doc_mac_prefix doc with
                  | Some l => l
                  | None => []
                  end) /\
       PyStr.upper device_mac = PyStr.upper (PyStr.strip prefix) ++ rest) /\
  id p = PluginBuilder.doc_id doc /\
  name p = PluginBuilder.doc_name doc /\
  name_contains (match_ p) =
  match PluginBuilder.doc_name_contains doc with Some l => l | None => [] end.
Proof.
  unfold PluginBuilder._build_plugin.
  destruct (validate doc); [discriminate|].
  destruct (PluginBuilder.build_features _ _ []); [|discriminate]. cbn [bind].
  destruct (PluginBuilder.build_transport doc source); [|discriminate].
  cbn [bind]. intros H. injection H as <-.
  split; [|repeat split].
  intros device_mac. unfold DeviceMatch._mac_prefix_match.
  cbn [match_ mac_prefix]. rewrite existsb_map, existsb_exists. split.
  - intros (prefix & Hin & Hs). apply startswith_iff in Hs.
    destruct Hs as [rest Hs]. now exists prefix, rest.
  - intros (prefix & rest & Hin & Hs). exists prefix. split; [exact Hin|].
    apply startswith_iff. now exists rest.
Qed.

Lemma built_plugin_prefixes_witness :
  DeviceMatch._mac_prefix_match "88:92:cc:11:22:33" built_oneplus = true.
Proof.
  apply (proj1 (built_plugin_prefixes accept_all oneplus_doc "oneplus_buds4.yaml"
                  built_oneplus eq_refl)).
  exists "88:92:cc", ":11:22:33". split; [now left | reflexivity].
Defined.

(** ** What [load_plugins] leaves in the mapping *)

Section DictOrderFacts.
Context {V : Type}.

Lemma mem_keys (d : PyDict.t V) (k : string) :
  PyDict.mem k d = true <-> In k (PyDict.keys d).
Proof.
  unfold PyDict.mem, PyDict.keys.
  induction d as [|[k0 v0] d IH]; cbn [PyDict.get List.map In fst].
  - split; [discriminate | contradiction].
  - destruct (String.eqb_spec k k0) as [-> | Hne].
    + split; [now left | reflexivity].
    + rewrite IH. split; [now right | intros [E | H]; [congruence | exact H]].
Qed.

Lemma get_in (d : PyDict.t V) (k : string) (v : V) :
  PyDict.get d k = Some v -> In (k, v) d.
Proof.
  induction d as [|[k0 v0] d IH]; cbn [PyDict.get In]; [discriminate|].
  destruct (String.eqb_spec k k0) as [-> | Hne].
  - intros H. injection H as ->. now left.
  - intros H. right. now apply IH.
Qed.

Lemma in_get (d : PyDict.t V) (k : string) (v : V) :
  NoDup (PyDict.keys d) -> In (k, v) d -> PyDict.get d k = Some v.
Proof.
  unfold PyDict.keys.
  induction d as [|[k0 v0] d IH]; cbn [PyDict.get In List.map fst];
    [contradiction|].
  intros Hnd [E | Hin].
  - injection E as -> ->. now rewrite String.eqb_refl.
  - inversion Hnd as [|? ? Hnot Hnd']; subst.
    destruct (String.eqb_spec k k0) as [-> | Hne]; [|now apply IH].
    exfalso. apply Hnot. apply in_map_iff. now exists (k0, v).
Qed.

Lemma keys_set (d : PyDict.t V) (k : string) (v : V) :
  PyDict.keys (PyDict.set d k v) =
  if PyDict.mem k d then PyDict.keys d else (PyDict.keys d ++ [k])%list.
Proof.
  unfold PyDict.mem, PyDict.keys.
  induction d as [|[k0 v0] d IH]; cbn [PyDict.set PyDict.get List.map fst app].
  - reflexivity.
  - rewrite (String.eqb_sym k k0).
    destruct (String.eqb_spec k0 k) as [-> | Hne]; cbn [List.map fst].
    + reflexivity.
    + rewrite IH. now destruct (PyDict.get d k).
Qed.

Lemma in_set (d : PyDict.t V) (k k' : string) (v v' : V) :
  In (k', v') (PyDict.set d k v) -> (k' = k /\ v' = v) \/ In (k', v') d.
Proof.
  induction d as [|[k0 v0] d IH]; cbn [PyDict.set In].
  - intros [E | []]. injection E as <- <-. now left.
  - destruct (String.eqb_spec k k0) as [-> | Hne]; cbn [In].
    + intros [E | H]; [injection E as <- <-; now left | right; now right].
    + intros [E | H]; [right; now left|].
      destruct (IH H) as [Heq | Hin]; [now left | right; now right].
Qed.

Lemma nodup_keys_set (d : PyDict.t V) (k : string) (v : V) :
  NoDup (PyDict.keys d) -> NoDup (PyDict.keys (PyDict.set d k v)).
Proof.
  intros Hnd. rewrite keys_set.
  destruct (PyDict.mem k d) eqn:E; [exact Hnd|].
  apply NoDup_app; [exact Hnd | repeat constructor; intros [] |].
  intros x Hx [<- | []].
  apply mem_keys in Hx. congruence.
Qed.

End DictOrderFacts.

Section LoadInvariants.
Import PluginLoader.
Context {path doc : Type}.
Variable _read_yaml : path -> result doc.
Variable _build_plugin : doc -> path -> result Plugin.
Variable all_paths : list path.

(** What both loops of [load_plugins] keep true of the mapping. *)
Let mapping_ok (d : PyDict.t Plugin) : Prop :=
  NoDup (PyDict.keys d) /\ keyed_by_id d /\
  forall k p, In (k, p) d -> built_from _read_yaml _build_plugin all_paths p.

Lemma mapping_ok_set (d : PyDict.t Plugin) (source : path) (p : Plugin) :
  In source all_paths ->
  (x <- _read_yaml source ;; _build_plugin x source) = Ok p ->
  mapping_ok d -> mapping_ok (PyDict.set d (id p) p).
Proof.
  intros Hin Hb (Hnd & Hk & Hf). split; [|split].
  - now apply nodup_keys_set.
  - intros k q Hq. destruct (in_set _ _ _ _ _ Hq) as [[-> ->] | Hq'];
      [reflexivity | now apply Hk].
  - intros k q Hq. destruct (in_set _ _ _ _ _ Hq) as [[-> ->] | Hq'];
      [now exists source | now apply (Hf k)].
Qed.

Lemma load_packaged_keeps (paths : list path) (acc d : PyDict.t Plugin) :
  incl paths all_paths ->
  load_packaged _read_yaml _build_plugin paths acc = Ok d ->
  mapping_ok acc -> mapping_ok d.
Proof.
  revert acc. induction paths as [|source paths IH]; intros acc Hincl.
  - cbn. intros H. now injection H as <-.
  - cbn [load_packaged].
    destruct (_read_yaml source) as [x|] eqn:Er; [|discriminate]. cbn [bind].
    destruct (_build_plugin x source) as [p|] eqn:Eb; [|discriminate].
    cbn [bind]. intros H Hacc.
    apply (IH _ (fun a Ha => Hincl a (or_intror Ha)) H).
    apply (mapping_ok_set acc source p); [apply Hincl; now left | | exact Hacc].
    rewrite Er. exact Eb.
Qed.

Lemma load_user_keeps (paths : list path) (acc : PyDict.t Plugin)
      (w : list string) (loaded : LoadedPlugins) :
  incl paths all_paths ->
  load_user _read_yaml _build_plugin paths acc w = Ok loaded ->
  mapping_ok acc -> mapping_ok (plugins loaded).
Proof.
  revert acc w. induction paths as [|source paths IH]; intros acc w Hincl.
  - cbn. intros H. now injection H as <-.
  - cbn [load_user].
    destruct (_read_yaml source) as [x|] eqn:Er; [|discriminate]. cbn [bind].
    destruct (_build_plugin x source) as [p|] eqn:Eb; [|discriminate].
    cbn [bind]. intros H Hacc.
    apply (IH _ _ (fun a Ha => Hincl a (or_intror Ha)) H).
    apply (mapping_ok_set acc source p); [apply Hincl; now left | | exact Hacc].
    rewrite Er. exact Eb.
Qed.

(** What the second loop keeps true of the warnings. *)
Lemma load_user_warnings (paths : list path) (acc : PyDict.t Plugin)
      (w : list string) (loaded : LoadedPlugins) :
  load_user _read_yaml _build_plugin paths acc w = Ok loaded ->
  (forall x, In x w ->
     exists k, PyDict.mem k acc = true /\ x = override_warning k) ->
  (List.length (warnings loaded) <= List.length w + List.length paths)%nat /\
  (forall k, PyDict.mem k acc = true -> PyDict.mem k (plugins loaded) = true) /\
  (forall x, In x (warnings loaded) ->
     exists k, PyDict.mem k (plugins loaded) = true /\ x = override_warning k).
Proof.
  revert acc w. induction paths as [|source paths IH]; intros acc w.
  - cbn. intros H Hw. injection H as <-. cbn. split; [lia|]. split; auto.
  - cbn [load_user].
    destruct (_read_yaml source) as [x|]; [|discriminate]. cbn [bind].
    destruct (_build_plugin x source) as [p|]; [|discriminate].
    cbn [bind]. intros H Hw.
    apply IH in H.
    + destruct H as (Hlen & Hmem & Hin). split; [|split].
      * cbn [List.length]. destruct (PyDict.mem (id p) acc);
          [rewrite length_app in Hlen; cbn in Hlen|]; lia.
      * intros k Hk. apply Hmem. rewrite mem_set, Hk. apply orb_true_r.
      * exact Hin.
    + intros y Hy.
      assert (Hkeep : forall k, PyDict.mem k acc = true ->
                PyDict.mem k (PyDict.set acc (id p) p) = true).
      { intros k Hk. rewrite mem_set, Hk. apply orb_true_r. }
      destruct (PyDict.mem (id p) acc) eqn:E.
      * apply in_app_or in Hy. destruct Hy as [Hy | [<- | []]].
        -- destruct (Hw y Hy) as (k & Hk & ->). exists k. split; auto.
        -- exists (id p). split; [now apply Hkeep | reflexivity].
      * destruct (Hw y Hy) as (k & Hk & ->). exists k. split; auto.
Qed.

Lemma load_packaged_stops (before after : list path) (source : path)
      (pls : list Plugin) (acc : PyDict.t Plugin) (e : exn) :
  all_built _read_yaml _build_plugin before pls ->
  (x <- _read_yaml source ;; _build_plugin x source) = Raise e ->
  load_packaged _read_yaml _build_plugin (before ++ source :: after) acc = Raise e.
Proof.
  intros H He. revert acc. induction H as [|p pl paths pls' Hp _ IH]; intros acc.
  - cbn [app load_packaged].
    destruct (_read_yaml source) as [x|]; cbn [bind] in *;
      [now rewrite He | now injection He as ->].
  - cbn [app load_packaged].
    destruct (_read_yaml p) as [x|]; [|discriminate Hp]. cbn [bind] in *.
    rewrite Hp. cbn [bind]. apply IH.
Qed.

Lemma load_user_stops (before after : list path) (source : path)
      (pls : list Plugin) (acc : PyDict.t Plugin) (w : list string) (e : exn) :
  all_built _read_yaml _build_plugin before pls ->
  (x <- _read_yaml source ;; _build_plugin x source) = Raise e ->
  load_user _read_yaml _build_plugin (before ++ source :: after) acc w = Raise e.
Proof.
  intros H He. revert acc w.
  induction H as [|p pl paths pls' Hp _ IH]; intros acc w.
  - cbn [app load_user].
    destruct (_read_yaml source) as [x|]; cbn [bind] in *;
      [now rewrite He | now injection He as ->].
  - cbn [app load_user].
    destruct (_read_yaml p) as [x|]; [|discriminate Hp]. cbn [bind] in *.
    rewrite Hp. cbn [bind]. apply IH.
Qed.

End LoadInvariants.

(** X12. One document that does not read or does not build stops
    [load_plugins]: the exception of the first such document, packaged or
    the user's, is the outcome, whatever documents come after it, and no
    plugin is loaded. *)
Theorem load_plugins_stops_at_first_failure
        {path doc : Type} (_read_yaml : path -> result doc)
        (_build_plugin : doc -> path -> result Plugin)
        (before after : list path) (source : path) (pls : list Plugin)
        (e : exn) :
  all_built _read_yaml _build_plugin before pls ->
  (x <- _read_yaml source ;; _build_plugin x source) = Raise e ->
  (forall user_paths,
     PluginLoader.load_plugins _read_yaml _build_plugin
                               (before ++ source :: after) user_paths = Raise e) /\
  (forall packaged_paths bundled,
     all_built _read_yaml _build_plugin packaged_paths bundled ->
     PluginLoader.load_plugins _read_yaml _build_plugin
                               packaged_paths (before ++ source :: after) = Raise e).
Proof.
  intros Hb He. split.
  - intros user_paths. unfold PluginLoader.load_plugins.
    now rewrite (load_packaged_stops _ _ before after source pls [] e Hb He).
  - intros packaged_paths bundled Hp. unfold PluginLoader.load_plugins.
    rewrite (load_packaged_built _ _ _ _ _ Hp). cbn [bind].
    apply (load_user_stops _ _ before after source pls _ _ e Hb He).
Qed.

Lemma load_plugins_stops_at_first_failure_witness :
  PluginLoader.load_plugins Fixtures.read_file Fixtures.build_file
    ["oneplus_buds4.yaml"] ["override.yaml"; "missing.yaml"; "my_ble_buds.yaml"]
  = Raise (PluginLoadError "Could not read plugin file missing.yaml").
Proof.
  apply (proj2 (load_plugins_stops_at_first_failure
                  Fixtures.read_file Fixtures.build_file
                  ["override.yaml"] ["my_ble_buds.yaml"] "missing.yaml"
                  [Fixtures.user_override] _
                  ltac:(repeat constructor) eq_refl)
               ["oneplus_buds4.yaml"] [Fixtures.oneplus_buds4]).
  repeat constructor.
Defined.

(** X13. Whatever [load_plugins] returns, every plugin of the mapping is
    stored under its own id, no id is there twice, and every plugin is
    what one of the documents was built into; there are no more warnings
    than user documents, and every warning names the id of a plugin of
    the mapping. *)
Theorem load_plugins_mapping
        {path doc : Type} (_read_yaml : path -> result doc)
        (_build_plugin : doc -> path -> result Plugin)
        (packaged_paths user_paths : list path)
        (loaded : PluginLoader.LoadedPlugins) :
  PluginLoader.load_plugins _read_yaml _build_plugin packaged_paths user_paths
  = Ok loaded ->
  NoDup (PyDict.keys (PluginLoader.plugins loaded)) /\
  keyed_by_id (PluginLoader.plugins loaded) /\
  (forall k p,
     PyDict.get (PluginLoader.plugins loaded) k = Some p ->
     built_from _read_yaml _build_plugin (packaged_paths ++ user_paths)%list p) /\
  (List.length (PluginLoader.warnings loaded) <= List.length user_paths)%nat /\
  (forall w, In w (PluginLoader.warnings loaded) ->
     exists k, PyDict.mem k (PluginLoader.plugins loaded) = true /\
               w = override_warning k).
Proof.
  unfold PluginLoader.load_plugins.
  destruct (PluginLoader.load_packaged _ _ packaged_paths []) as [d|] eqn:Ep;
    [|discriminate].
  cbn [bind]. intros Hu.
  assert (Hd : NoDup (PyDict.keys d) /\ keyed_by_id d /\
               forall k p, In (k, p) d ->
                 built_from _read_yaml _build_plugin
                            (packaged_paths ++ user_paths)%list p).
  { apply (load_packaged_keeps _read_yaml _build_plugin _ packaged_paths [] d).
    - intros a Ha. apply in_or_app. now left.
    - exact Ep.
    - split; [constructor | split; intros k p []]. }
  destruct (load_user_keeps _read_yaml _build_plugin
              (packaged_paths ++ user_paths)%list
              user_paths d [] loaded) as (Hnd & Hk & Hf);
    [intros a Ha; apply in_or_app; now right | exact Hu | exact Hd |].
  destruct (load_user_warnings _read_yaml _build_plugin user_paths d []
              loaded Hu) as (Hlen & _ & Hw);
    [intros x [] |].
  split; [exact Hnd|]. split; [exact Hk|]. split; [|split].
  - intros k p Hg. apply (Hf k). now apply get_in.
  - exact Hlen.
  - exact Hw.
Qed.

Lemma load_plugins_mapping_witness :
  exists loaded,
    PluginLoader.load_plugins Fixtures.read_file Fixtures.build_file
                              ["oneplus_buds4.yaml"] ["override.yaml"]
    = Ok loaded /\
    keyed_by_id (PluginLoader.plugins loaded) /\
    (List.length (PluginLoader.warnings loaded) <= 1)%nat.
Proof.
  eexists. split; [reflexivity|].
  destruct (load_plugins_mapping Fixtures.read_file Fixtures.build_file
              ["oneplus_buds4.yaml"] ["override.yaml"] _ eq_refl)
    as (_ & Hk & _ & Hlen & _).
  split; [exact Hk | exact Hlen].
Defined.

(** ** Listing the plugins *)

Section ListPluginsFacts.
Import Service.

Lemma insert_by_id_perm (p : Plugin) (l : list Plugin) :
  Permutation (insert_by_id p l) (p :: l).
Proof.
  induction l as [|q l IH]; cbn [insert_by_id]; [reflexivity|].
  destruct (String.leb (id p) (id q)); [reflexivity|].
  rewrite IH. apply perm_swap.
Qed.

Lemma sorted_by_id_perm (l : list Plugin) : Permutation (sorted_by_id l) l.
Proof.
  induction l as [|p l IH]; cbn [sorted_by_id]; [reflexivity|].
  rewrite insert_by_id_perm. now constructor.
Qed.

Lemma insert_by_id_sorted (p : Plugin) (l : list Plugin) :
  Sorted id_le l -> Sorted id_le (insert_by_id p l).
Proof.
  induction l as [|q l IH]; cbn [insert_by_id]; intros Hs.
  - repeat constructor.
  - destruct (String.leb (id p) (id q)) eqn:E.
    + constructor; [exact Hs | constructor; exact E].
    + inversion Hs as [|? ? Hs' Hhd]; subst.
      constructor; [now apply IH|].
      assert (Hqp : id_le q p).
      { destruct (String.leb_total (id p) (id q)) as [H | H];
          [congruence | exact H]. }
      destruct l as [|r l]; cbn [insert_by_id].
      * constructor. exact Hqp.
      * destruct (String.leb (id p) (id r)); constructor;
          [exact Hqp | now inversion Hhd].
Qed.

Lemma sorted_by_id_sorted (l : list Plugin) : Sorted id_le (sorted_by_id l).
Proof.
  induction l as [|p l IH]; cbn [sorted_by_id]; [constructor|].
  now apply insert_by_id_sorted.
Qed.

Lemma sorted_distinct_strict (l : list Plugin) :
  Sorted id_le l -> NoDup (List.map id l) -> Sorted id_lt l.
Proof.
  induction 1 as [|p l Hs IH Hhd]; intros Hnd; [constructor|].
  cbn [List.map] in Hnd. inversion Hnd as [|? ? Hnot Hnd']; subst.
  constructor; [now apply IH|].
  destruct Hhd as [|q l Hpq]; constructor. split; [exact Hpq|].
  intros E. apply Hnot. cbn [List.map]. left. now symmetry.
Qed.

Lemma keyed_values_ids (plugins : PyDict.t Plugin) :
  keyed_by_id plugins -> List.map id (PyDict.values plugins) = PyDict.keys plugins.
Proof.
  unfold PyDict.values, PyDict.keys.
  induction plugins as [|[k p] d IH]; intros Hk; [reflexivity|].
  cbn [List.map fst snd]. rewrite <- (Hk k p (or_introl eq_refl)). f_equal.
  apply IH. intros k' p' H. apply Hk. now right.
Qed.

End ListPluginsFacts.

(** X14. [list_plugins] returns the plugins of the mapping, each as many
    times as it is there, in the order of their ids.  On a mapping that
    holds every plugin under its own id, once - as the mapping of
    [load_plugins] does - the ids are strictly increasing, and a plugin is
    listed exactly when the mapping holds it under its id. *)
Theorem list_plugins_sorted (plugins : PyDict.t Plugin) :
  Permutation (Service.list_plugins plugins) (PyDict.values plugins) /\
  Sorted id_le (Service.list_plugins plugins) /\
  (NoDup (PyDict.keys plugins) -> keyed_by_id plugins ->
   Sorted id_lt (Service.list_plugins plugins) /\
   forall p, In p (Service.list_plugins plugins) <->
             PyDict.get plugins (id p) = Some p).
Proof.
  unfold Service.list_plugins.
  split; [apply sorted_by_id_perm|]. split; [apply sorted_by_id_sorted|].
  intros Hnd Hk. split.
  - apply sorted_distinct_strict; [apply sorted_by_id_sorted|].
    apply (Permutation_NoDup
             (l := List.map id (PyDict.values plugins))).
    + apply Permutation_map. symmetry. apply sorted_by_id_perm.
    + now rewrite keyed_values_ids.
  - intros p. split.
    + intros Hin.
      apply (Permutation_in _ (sorted_by_id_perm _)) in Hin.
      unfold PyDict.values in Hin. apply in_map_iff in Hin.
      destruct Hin as ([k q] & Hq & Hin). cbn in Hq. subst q.
      rewrite <- (Hk k p Hin). now apply in_get.
    + intros Hg. apply get_in in Hg.
      apply (Permutation_in _ (Permutation_sym (sorted_by_id_perm _))).
      unfold PyDict.values. apply in_map_iff. now exists (id p, p).
Qed.

Lemma list_plugins_sorted_witness :
  Sorted id_lt (Service.list_plugins Fixtures.with_ble) /\
  Service.list_plugins Fixtures.with_ble =
  [Fixtures.my_ble_buds; Fixtures.oneplus_buds4].
Proof.
  split; [|reflexivity].
  apply (proj2 (proj2 (list_plugins_sorted Fixtures.with_ble))).
  - repeat constructor; cbn; intros H;
      repeat (destruct H as [H | H]; [discriminate H|]); exact H.
  - intros k p H. cbn in H.
    repeat (destruct H as [H | H]; [injection H as <- <-; reflexivity|]).
    contradiction.
Defined.

(** ** What [set_feature] does, end to end *)

Section OutcomeFacts.
Import Service.

Variable plugins : PyDict.t Plugin.
Variable list_devices : result (list DetectedDevice).
Variable plugin_id device_hint : option string.

Lemma match_candidates_sound (plugin_override : option Plugin)
      (devices : list DetectedDevice) (c : ResolvedTarget) :
  (forall p, plugin_override = Some p -> In p (PyDict.values plugins)) ->
  In c (match_candidates plugins plugin_override devices) ->
  In (device c) devices /\ In (plugin c) (PyDict.values plugins) /\
  (0 < DeviceMatch.match_score (device c) (plugin c))%Z.
Proof.
  intros Hov. destruct plugin_override as [p|].
  - rewrite match_candidates_override. intros Hin.
    apply in_map_iff in Hin. destruct Hin as (d & <- & Hd).
    apply filter_In in Hd. destruct Hd as [Hd Hs]. cbn [device plugin].
    split; [exact Hd|]. split; [now apply Hov | now apply Z.ltb_lt].
  - intros Hin. apply match_candidates_best in Hin. destruct Hin as [Hd Hb].
    split; [exact Hd|].
    destruct (best_plugin_some _ _ _ Hb) as (l1 & l2 & Hv & Hs & _).
    split; [|exact Hs]. rewrite Hv. apply in_or_app. right. now left.
Qed.

Lemma resolve_target_ok (t : ResolvedTarget) :
  resolve_target plugins list_devices plugin_id device_hint = Ok t ->
  exists devices,
    list_devices = Ok devices /\
    In (device t) devices /\ In (plugin t) (PyDict.values plugins) /\
    (0 < DeviceMatch.match_score (device t) (plugin t))%Z.
Proof.
  unfold resolve_target.
  destruct list_devices as [devices|]; [|discriminate]. cbn [bind].
  destruct (is_empty devices); [discriminate|].
  set (ov := match PyStr.given plugin_id with
             | Some pid => _
             | None => _
             end).
  assert (Hov : forall o, ov = Ok o ->
            forall p, o = Some p -> In p (PyDict.values plugins)).
  { subst ov. intros o Ho p ->.
    destruct (PyStr.given plugin_id) as [pid|]; [|discriminate].
    destruct (PyDict.get plugins pid) as [q|] eqn:Hg; [|discriminate].
    injection Ho as ->. apply get_in in Hg.
    unfold PyDict.values. apply in_map_iff. now exists (pid, p). }
  destruct ov as [o|]; [|discriminate]. cbn [bind].
  specialize (Hov o eq_refl).
  set (cands := match_candidates plugins o devices).
  assert (Hsub : forall l, (forall c, In c l -> In c cands) ->
            match l with
            | [] =>
                match PyStr.given plugin_id with
                | Some pid =>
                    Raise (DeviceSelectionError
                             ("No connected device matched plugin '" ++ pid ++ "'."))
                | None =>
                    Raise (DeviceSelectionError
                             "No connected device matched any plugin. Use --plugin to target explicitly or add a plugin.")
                end
            | c :: _ =>
                if (1 <? List.length l)%nat
                then Raise (DeviceSelectionError
                              ("Multiple candidate devices found: " ++
                               PyStr.join ", " (List.map candidate_desc l) ++
                               ". Use --device to choose one."))
                else Ok c
            end = Ok t ->
            exists devices0,
              Ok devices = Ok devices0 /\
              In (device t) devices0 /\ In (plugin t) (PyDict.values plugins) /\
              (0 < DeviceMatch.match_score (device t) (plugin t))%Z).
  { intros l Hl. destruct l as [|c l'].
    - destruct (PyStr.given plugin_id); discriminate.
    - destruct (1 <? List.length (c :: l'))%nat; [discriminate|].
      intros H. injection H as <-. exists devices. split; [reflexivity|].
      apply (match_candidates_sound o devices c Hov). apply Hl. now left. }
  destruct (PyStr.given device_hint) as [dh|].
  - destruct (is_empty (filter (hint_matches (PyStr.lower dh)) cands));
      [discriminate|]. cbn [bind].
    apply Hsub. intros c Hc. now apply filter_In in Hc.
  - cbn [bind]. apply Hsub. auto.
Qed.

Lemma resolve_target_raise (e : exn) :
  resolve_target plugins list_devices plugin_id device_hint = Raise e ->
  list_devices = Raise e \/ exists msg, e = DeviceSelectionError msg.
Proof.
  unfold resolve_target.
  destruct list_devices as [devices|e0]; cbn [bind];
    [|intros H; left; now injection H as ->].
  intros H. right. revert H.
  destruct (is_empty devices);
    [intros H; injection H as <-; eexists; reflexivity|].
  destruct (PyStr.given plugin_id) as [pid|].
  - destruct (PyDict.get plugins pid); cbn [bind];
      [|intros H; injection H as <-; eexists; reflexivity].
    destruct (PyStr.given device_hint) as [dh|].
    + destruct (is_empty _); cbn [bind];
        [intros H; injection H as <-; eexists; reflexivity|].
      destruct (filter _ _) as [|c l];
        [intros H; injection H as <-; eexists; reflexivity|].
      destruct (1 <? _)%nat; [|discriminate].
      intros H; injection H as <-; eexists; reflexivity.
    + cbn [bind]. destruct (match_candidates _ _ _) as [|c l];
        [intros H; injection H as <-; eexists; reflexivity|].
      destruct (1 <? _)%nat; [|discriminate].
      intros H; injection H as <-; eexists; reflexivity.
  - cbn [bind]. destruct (PyStr.given device_hint) as [dh|].
    + destruct (is_empty _); cbn [bind];
        [intros H; injection H as <-; eexists; reflexivity|].
      destruct (filter _ _) as [|c l];
        [intros H; injection H as <-; eexists; reflexivity|].
      destruct (1 <? _)%nat; [|discriminate].
      intros H; injection H as <-; eexists; reflexivity.
    + cbn [bind]. destruct (match_candidates _ _ _) as [|c l];
        [intros H; injection H as <-; eexists; reflexivity|].
      destruct (1 <? _)%nat; [|discriminate].
      intros H; injection H as <-; eexists; reflexivity.
Qed.

End OutcomeFacts.

(** What a successful [set_feature] has done, from the target on. *)
Lemma set_feature_ok
      (plugins : PyDict.t Plugin) (list_devices : result (list DetectedDevice))
      (send : Service.transports) (fname vname : string)
      (plugin_id device_hint : option string)
      (r : SendResult) (calls : list Service.send_call) :
  Service.set_feature plugins list_devices send fname vname plugin_id device_hint
  = (Ok r, calls) ->
  exists spec payload call response,
    Service.resolve_target plugins list_devices plugin_id device_hint
    = Ok (target r) /\
    PyDict.get (features (plugin (target r))) fname = Some spec /\
    PyDict.get (values spec) vname = Some payload /\
    call_for (target r) payload = Some call /\
    calls = [call] /\
    send call = Ok response /\
    r = mkSendResult (target r) fname vname (PyBytes.hex payload)
                     (Service.response_hex_of response).
Proof.
  unfold Service.set_feature, Service.feature_values.
  destruct (Service.resolve_target plugins list_devices plugin_id device_hint)
    as [t|] eqn:Hres; cbn [bind]; [|discriminate].
  destruct (PyDict.get (features (plugin t)) fname) as [spec|] eqn:Hf;
    cbv beta iota; [rewrite Hf | discriminate].
  destruct (PyDict.get (values spec) vname) as [payload|] eqn:Hv;
    cbv zeta; [|discriminate].
  assert (Hfin : forall call,
            call_for t payload = Some call ->
            (response <- send call ;;
             Ok (mkSendResult t fname vname (PyBytes.hex payload)
                              (Service.response_hex_of response)),
             [call]) = (Ok r, calls) ->
            exists spec0 payload0 call0 response,
              Ok t = Ok (target r) /\
              PyDict.get (features (plugin (target r))) fname = Some spec0 /\
              PyDict.get (values spec0) vname = Some payload0 /\
              call_for (target r) payload0 = Some call0 /\
              calls = [call0] /\
              send call0 = Ok response /\
              r = mkSendResult (target r) fname vname (PyBytes.hex payload0)
                               (Service.response_hex_of response)).
  { intros call Hc H. injection H as Hr <-.
    destruct (send call) as [response|] eqn:Es; [|discriminate].
    cbn [bind] in Hr. injection Hr as <-. cbn [target].
    exists spec, payload, call, response. repeat split; auto. }
  unfold call_for in Hfin.
  destruct (String.eqb (type (transport (plugin t))) "rfcomm").
  - destruct (channel (transport (plugin t))); [|discriminate].
    apply Hfin. reflexivity.
  - destruct (String.eqb (type (transport (plugin t))) "ble"); [|discriminate].
    destruct (PyStr.given (service_uuid (transport (plugin t))));
      [|discriminate].
    destruct (PyStr.given (write_char_uuid (transport (plugin t))));
      [|discriminate].
    apply Hfin. reflexivity.
Qed.

(** X15. When [set_feature] succeeds, the device of the result is one of
    the discovered devices, its plugin is one of the mapping and scores
    above 0 against it, the feature and the value are in the plugin's
    table, and exactly one call was made to a transport: the call that the
    plugin's transport prescribes, with the payload of that value; the
    result reports this payload and the transport's answer. *)
Theorem set_feature_success
        (plugins : PyDict.t Plugin) (list_devices : result (list DetectedDevice))
        (send : Service.transports) (fname vname : string)
        (plugin_id device_hint : option string)
        (r : SendResult) (calls : list Service.send_call) :
  Service.set_feature plugins list_devices send fname vname plugin_id device_hint
  = (Ok r, calls) ->
  exists devices spec payload call response,
    list_devices = Ok devices /\
    In (device (target r)) devices /\
    In (plugin (target r)) (PyDict.values plugins) /\
    (0 < DeviceMatch.match_score (device (target r)) (plugin (target r)))%Z /\
    PyDict.get (features (plugin (target r))) fname = Some spec /\
    PyDict.get (values spec) vname = Some payload /\
    call_for (target r) payload = Some call /\
    calls = [call] /\
    send call = Ok response /\
    r = mkSendResult (target r) fname vname (PyBytes.hex payload)
                     (Service.response_hex_of response).
Proof.
  intros H.
  destruct (set_feature_ok _ _ _ _ _ _ _ _ _ H)
    as (spec & payload & call & response & Hres & Hf & Hv & Hc & Hcalls &
        Hsend & Hr).
  destruct (resolve_target_ok _ _ _ _ _ Hres) as (devices & Hld & Hd & Hp & Hs).
  exists devices, spec, payload, call, response.
  repeat (split; [assumption|]). exact Hr.
Qed.

Lemma set_feature_success_witness :
  exists spec payload call,
    PyDict.get (features Fixtures.oneplus_buds4) "anc" = Some spec /\
    PyDict.get (values spec) "on" = Some payload /\
    snd (Service.set_feature Fixtures.packaged (Ok [Fixtures.buds_a])
                             (fun _ => Ok None) "anc" "on" None None) = [call].
Proof.
  destruct (set_feature_success Fixtures.packaged (Ok [Fixtures.buds_a])
              (fun _ => Ok None) "anc" "on" None None _ _ eq_refl)
    as (devices & spec & payload & call & response & _ & _ & _ & _ &
        Hf & Hv & _ & Hcalls & _).
  exists spec, payload, call.
  split; [exact Hf|]. split; [exact Hv | exact Hcalls].
Defined.

(** X16. When [set_feature] fails, either no call was made to a transport
    and the exception is the one that discovery raised, a
    [DeviceSelectionError] or a [FeatureResolutionError]; or one call was
    made and the exception is the one the transport raised, unchanged. *)
Theorem set_feature_failure
        (plugins : PyDict.t Plugin) (list_devices : result (list DetectedDevice))
        (send : Service.transports) (fname vname : string)
        (plugin_id device_hint : option string)
        (e : exn) (calls : list Service.send_call) :
  Service.set_feature plugins list_devices send fname vname plugin_id device_hint
  = (Raise e, calls) ->
  (calls = [] /\
   (list_devices = Raise e \/
    (exists msg, e = DeviceSelectionError msg) \/
    (exists msg, e = FeatureResolutionError msg))) \/
  (exists call, calls = [call] /\ send call = Raise e).
Proof.
  unfold Service.set_feature, Service.feature_values.
  destruct (Service.resolve_target plugins list_devices plugin_id device_hint)
    as [t|e0] eqn:Hres; cbn [bind].
  - destruct (PyDict.get (features (plugin t)) fname) as [spec|] eqn:Hf;
      cbv beta iota;
      [rewrite Hf | intros H; injection H as <- <-; left; split; [reflexivity|];
        right; right; eexists; reflexivity].
    destruct (PyDict.get (values spec) vname) as [payload|];
      cbv zeta;
      [|intros H; injection H as <- <-; left; split; [reflexivity|];
        right; right; eexists; reflexivity].
    assert (Hfin : forall call,
              (response <- send call ;;
               Ok (mkSendResult t fname vname (PyBytes.hex payload)
                                (Service.response_hex_of response)),
               [call]) = (Raise e, calls) ->
              exists call0, calls = [call0] /\ send call0 = Raise e).
    { intros call H. injection H as Hr <-. exists call. split; [reflexivity|].
      destruct (send call) as [|e1]; [discriminate Hr|]. cbn [bind] in Hr.
      now injection Hr as ->. }
    destruct (String.eqb (type (transport (plugin t))) "rfcomm").
    + destruct (channel (transport (plugin t)));
        [intros H; right; exact (Hfin _ H)|].
      intros H; injection H as <- <-; left; split; [reflexivity|];
        right; right; eexists; reflexivity.
    + destruct (String.eqb (type (transport (plugin t))) "ble");
        [|intros H; injection H as <- <-; left; split; [reflexivity|];
          right; right; eexists; reflexivity].
      destruct (PyStr.given (service_uuid (transport (plugin t))));
        [|intros H; injection H as <- <-; left; split; [reflexivity|];
          right; right; eexists; reflexivity].
      destruct (PyStr.given (write_char_uuid (transport (plugin t))));
        [intros H; right; exact (Hfin _ H)|].
      intros H; injection H as <- <-; left; split; [reflexivity|];
        right; right; eexists; reflexivity.
  - intros H. injection H as <- <-. left. split; [reflexivity|].
    destruct (resolve_target_raise _ _ _ _ _ Hres) as [Hl | Hm];
      [now left | right; now left].
Qed.

Lemma set_feature_failure_witness :
  exists call,
    snd (Service.set_feature Fixtures.packaged (Ok [Fixtures.buds_a])
           (fun _ => Raise (TransportTimeoutError "timed out"))
           "anc" "on" None None) = [call].
Proof.
  destruct (set_feature_failure Fixtures.packaged (Ok [Fixtures.buds_a])
              (fun _ => Raise (TransportTimeoutError "timed out"))
              "anc" "on" None None _ _ eq_refl)
    as [[Hc _] | (call & Hc & _)].
  - discriminate Hc.
  - exists call. exact Hc.
Defined.

(** ** The catalog of features *)

Section CatalogFacts.
Import Service.

Variable fs : PyDict.t EnumFeature.

Let add (catalog : PyDict.t (list string)) (feature_name : string) :=
  match PyDict.get fs feature_name with
  | Some feature_spec =>
      PyDict.set catalog feature_name
                 (PyStr.sorted (PyDict.keys (values feature_spec)))
  | None => catalog
  end.

Lemma catalog_get (l : list string) (acc : PyDict.t (list string)) (k : string) :
  PyDict.get (fold_left add l acc) k =
  match (if existsb (String.eqb k) l then PyDict.get fs k else None) with
  | Some spec => Some (PyStr.sorted (PyDict.keys (values spec)))
  | None => PyDict.get acc k
  end.
Proof.
  revert acc. induction l as [|x l IH]; intros acc; [reflexivity|].
  cbn [fold_left existsb]. rewrite IH.
  change (add acc x) with
    (match PyDict.get fs x with
     | Some feature_spec =>
         PyDict.set acc x (PyStr.sorted (PyDict.keys (values feature_spec)))
     | None => acc
     end).
  destruct (String.eqb_spec k x) as [-> | Hne]; cbn [orb].
  - destruct (PyDict.get fs x) as [spec|] eqn:E.
    + rewrite get_set, String.eqb_refl. now destruct (existsb _ l).
    + now destruct (existsb _ l).
  - assert (Hk : PyDict.get
                   match PyDict.get fs x with
                   | Some feature_spec =>
                       PyDict.set acc x
                         (PyStr.sorted (PyDict.keys (values feature_spec)))
                   | None => acc
                   end k = PyDict.get acc k).
    { destruct (PyDict.get fs x); [|reflexivity].
      rewrite get_set. now destruct (String.eqb_spec k x). }
    rewrite Hk. reflexivity.
Qed.

Lemma catalog_keys (l : list string) (acc : PyDict.t (list string)) :
  NoDup (PyDict.keys acc ++ l)%list ->
  (forall x, In x l -> PyDict.get fs x <> None) ->
  PyDict.keys (fold_left add l acc) = (PyDict.keys acc ++ l)%list.
Proof.
  revert acc. induction l as [|x l IH]; intros acc Hnd Hl.
  - cbn. now rewrite app_nil_r.
  - cbn [fold_left].
    change (add acc x) with
      (match PyDict.get fs x with
       | Some feature_spec =>
           PyDict.set acc x (PyStr.sorted (PyDict.keys (values feature_spec)))
       | None => acc
       end).
    destruct (PyDict.get fs x) as [spec|] eqn:E;
      [|exfalso; apply (Hl x); [now left | exact E]].
    assert (Hk : PyDict.keys (PyDict.set acc x
                   (PyStr.sorted (PyDict.keys (values spec)))) =
                 (PyDict.keys acc ++ [x])%list).
    { rewrite keys_set. destruct (PyDict.mem x acc) eqn:Hm; [|reflexivity].
      exfalso. apply mem_keys in Hm.
      apply NoDup_remove_2 in Hnd. apply Hnd. apply in_or_app. now left. }
    rewrite IH.
    + rewrite Hk, <- app_assoc. reflexivity.
    + rewrite Hk, <- app_assoc. exact Hnd.
    + intros y Hy. apply Hl. now right.
Qed.

Lemma existsb_eqb_in (k : string) (l : list string) :
  existsb (String.eqb k) l = true <-> In k l.
Proof.
  rewrite existsb_exists. split.
  - intros (x & Hx & E). apply String.eqb_eq in E. now subst.
  - intros H. exists k. split; [exact H | apply String.eqb_refl].
Qed.

Lemma catalog_get_sorted (k : string) :
  PyDict.get (fold_left add (PyStr.sorted (PyDict.keys fs)) []) k =
  match PyDict.get fs k with
  | Some spec => Some (PyStr.sorted (PyDict.keys (values spec)))
  | None => None
  end.
Proof.
  rewrite catalog_get.
  destruct (existsb (String.eqb k) (PyStr.sorted (PyDict.keys fs))) eqn:E;
    [reflexivity|].
  destruct (PyDict.get fs k) as [spec|] eqn:Hg; [|reflexivity].
  exfalso. apply get_in in Hg.
  assert (Hin : In k (PyStr.sorted (PyDict.keys fs))).
  { apply (Permutation_in _ (sorted_is_permutation _)).
    unfold PyDict.keys. apply in_map_iff. now exists (k, spec). }
  apply existsb_eqb_in in Hin. congruence.
Qed.

Lemma catalog_keys_sorted :
  NoDup (PyDict.keys fs) ->
  PyDict.keys (fold_left add (PyStr.sorted (PyDict.keys fs)) []) =
  PyStr.sorted (PyDict.keys fs).
Proof.
  intros Hnd. rewrite catalog_keys; [reflexivity | |].
  - cbn. apply (Permutation_NoDup (sorted_is_permutation _) Hnd).
  - intros x Hx.
    apply (Permutation_in _ (Permutation_sym (sorted_is_permutation _))) in Hx.
    apply mem_keys in Hx. unfold PyDict.mem in Hx.
    destruct (PyDict.get fs x); [discriminate | discriminate Hx].
Qed.

End CatalogFacts.

(** X17. [feature_catalog] fails exactly as [resolve_target] does.  When
    it succeeds, its target is the resolved one, and the catalog gives
    for a feature name exactly the value names that [feature_values]
    returns for that feature: a name is in the catalog when
    [feature_values] succeeds on it.  The catalog lists the plugin's
    feature names in sorted order. *)
Theorem feature_catalog_agrees
        (plugins : PyDict.t Plugin) (list_devices : result (list DetectedDevice))
        (plugin_id device_hint : option string) :
  (forall e,
     Service.feature_catalog plugins list_devices plugin_id device_hint = Raise e <->
     Service.resolve_target plugins list_devices plugin_id device_hint = Raise e) /\
  (forall t catalog,
     Service.feature_catalog plugins list_devices plugin_id device_hint
     = Ok (t, catalog) ->
     Service.resolve_target plugins list_devices plugin_id device_hint = Ok t /\
     (forall fname vnames,
        PyDict.get catalog fname = Some vnames <->
        Service.feature_values plugins list_devices fname plugin_id device_hint
        = Ok (t, vnames)) /\
     (NoDup (PyDict.keys (features (plugin t))) ->
      PyDict.keys catalog = PyStr.sorted (PyDict.keys (features (plugin t))))).
Proof.
  unfold Service.feature_catalog, Service.feature_values.
  destruct (Service.resolve_target plugins list_devices plugin_id device_hint)
    as [t0|e0]; cbn [bind].
  - split; [intros e; split; discriminate|].
    intros t catalog H. injection H as <- <-. split; [reflexivity|]. split.
    + intros fname vnames. rewrite catalog_get_sorted.
      destruct (PyDict.get (features (plugin t0)) fname) as [spec|].
      * split; intros H; injection H as <-; reflexivity.
      * split; discriminate.
    + apply catalog_keys_sorted.
  - split; [|discriminate].
    intros e. split; intros H; injection H as <-; reflexivity.
Qed.

Lemma feature_catalog_agrees_witness :
  exists catalog,
    Service.feature_catalog Fixtures.packaged (Ok [Fixtures.buds_a]) None None
    = Ok (mkResolvedTarget Fixtures.buds_a Fixtures.oneplus_buds4, catalog) /\
    PyDict.get catalog "anc" = Some ["off"; "on"] /\
    PyDict.keys catalog = ["anc"].
Proof.
  eexists. split; [reflexivity|].
  destruct (proj2 (feature_catalog_agrees Fixtures.packaged
                     (Ok [Fixtures.buds_a]) None None) _ _ eq_refl)
    as (_ & Hg & Hk).
  split.
  - apply Hg. reflexivity.
  - rewrite Hk; [reflexivity|]. repeat constructor. intros [].
Defined.

(** ** The devices that discovery returns *)

Section ParserFacts.
Import Service.

Lemma first_some_some {A B : Type} (f : A -> option B) (l : list A) (y : B) :
  first_some f l = Some y -> exists x, In x l /\ f x = Some y.
Proof.
  induction l as [|x l IH]; cbn [first_some]; [discriminate|].
  destruct (f x) as [z|] eqn:E.
  - intros H. injection H as <-. exists x. split; [now left | exact E].
  - intros H. destruct (IH H) as (x' & Hin & Hx). exists x'. split; [now right | exact Hx].
Qed.

Lemma mac_char_upper (c : ascii) :
  is_mac_char c = true -> is_mac_upper (PyStr.to_upper c) = true.
Proof.
  destruct c as [[] [] [] [] [] [] [] []]; intros H;
    first [reflexivity | discriminate H].
Qed.

Lemma upper_length (s : string) : String.length (PyStr.upper s) = String.length s.
Proof.
  unfold PyStr.upper.
  induction s as [|c s IH]; cbn; [reflexivity | now rewrite IH].
Qed.

Lemma mac_chars_upper (s : string) :
  all_chars_b is_mac_char s = true -> all_chars is_mac_upper (PyStr.upper s) = true.
Proof.
  unfold PyStr.upper.
  induction s as [|c s IH]; [reflexivity|].
  cbn [all_chars_b all_chars PyStr.map]. rewrite !andb_true_iff.
  intros [Hc Hs]. split; [now apply mac_char_upper | now apply IH].
Qed.

Lemma bluetoothctl_line_mac (line m n : string) :
  bluetoothctl_line line = Some (m, n) -> mac_well_formed m.
Proof.
  unfold bluetoothctl_line, _DEVICE_LINE_RE_match.
  destruct (String.eqb _ "device"); [|discriminate].
  destruct (first_some _ _) as [[g1 g2]|] eqn:E; [|discriminate].
  intros H. injection H as <- <-.
  apply first_some_some in E. destruct E as (r & _ & E). cbv zeta in E.
  destruct ((String.length (PyStr.take 17 r) =? 17)%nat &&
            all_chars_b is_mac_char (PyStr.take 17 r)) eqn:Ht; [|discriminate E].
  apply first_some_some in E. destruct E as (body & _ & E).
  destruct (dot_plus_end body); [|discriminate E]. injection E as <- <-.
  apply andb_true_iff in Ht. destruct Ht as [Hl Hc]. apply Nat.eqb_eq in Hl.
  split; [now rewrite upper_length | now apply mac_chars_upper].
Qed.

Lemma hex_any_mac_char (c : ascii) : is_hex_any c = true -> is_mac_char c = true.
Proof. unfold is_mac_char. now intros ->. Qed.

Lemma mac_shape_take (groups : nat) (s : string) :
  mac_shape groups s = true ->
  String.length (PyStr.take (3 * groups + 2) s) = (3 * groups + 2)%nat /\
  all_chars_b is_mac_char (PyStr.take (3 * groups + 2) s) = true.
Proof.
  revert s. induction groups as [|g IH]; intros s.
  - destruct s as [|a [|b s']]; cbn [mac_shape]; try discriminate.
    rewrite !andb_true_iff. intros [[Ha Hb] _]. cbn.
    rewrite (hex_any_mac_char a Ha), (hex_any_mac_char b Hb).
    split; reflexivity.
  - destruct s as [|a [|b [|c s']]]; cbn [mac_shape]; try discriminate;
      rewrite !andb_true_iff; try (intros [_ H]; discriminate H).
    intros [[Ha Hb] [Hc Hs]]. destruct (IH s' Hs) as [Hl Ha'].
    replace (3 * S g + 2)%nat with (S (S (S (3 * g + 2)))) by lia.
    cbn [PyStr.take String.length all_chars_b].
    rewrite Hl, Ha', (hex_any_mac_char a Ha), (hex_any_mac_char b Hb).
    unfold is_mac_char at 1. rewrite Hc, orb_true_r. split; reflexivity.
Qed.

Lemma MAC_RE_search_shape (s g1 : string) :
  _MAC_RE_search s = Some g1 ->
  String.length g1 = 17%nat /\ all_chars_b is_mac_char g1 = true.
Proof.
  induction s as [|c s IH]; cbn [_MAC_RE_search].
  - destruct (mac_shape 5 "") eqn:E; [discriminate E | discriminate].
  - destruct (mac_shape 5 (String c s)) eqn:E; [|exact IH].
    intros H. injection H as <-. apply (mac_shape_take 5 _ E).
Qed.

Lemma hcitool_line_mac (line m n : string) :
  hcitool_line line = Some (m, n) ->
  mac_well_formed m /\ n = "<unknown-device>".
Proof.
  unfold hcitool_line.
  destruct (_MAC_RE_search line) as [g1|] eqn:E; [|discriminate].
  intros H. injection H as <- <-.
  destruct (MAC_RE_search_shape _ _ E) as [Hl Hc].
  split; [|reflexivity].
  split; [now rewrite upper_length | now apply mac_chars_upper].
Qed.

End ParserFacts.

Section ScanInvariant.
Import Service.

Variable run : runner.
Variable parse : string -> option (string * string).
Variable Q : DetectedDevice -> Prop.
Hypothesis parse_ok :
  forall line m n, parse line = Some (m, n) -> Q (mkDetectedDevice m n).

Lemma scan_line_ok (st : scan) (line : string) :
  scan_ok Q st -> scan_ok Q (scan_line parse st line).
Proof.
  unfold scan_line. intros (Hm & Hnd & Hq).
  destruct (parse line) as [[m n]|] eqn:E; [|now split].
  destruct (existsb (String.eqb m) (seen st)) eqn:Hs; [now split|].
  split; [|split]; cbn [seen devices].
  - rewrite map_app, Hm. reflexivity.
  - constructor; [|exact Hnd]. intros Hin.
    apply existsb_eqb_in in Hin. congruence.
  - apply Forall_app. split; [exact Hq|]. constructor; [|constructor].
    now apply (parse_ok line).
Qed.

Lemma scan_command_ok (st : scan) (cmd : list string) :
  scan_ok Q st -> scan_ok Q (scan_command run parse st cmd).
Proof.
  unfold scan_command. intros Hst.
  destruct (run cmd) as [r|]; [|exact Hst].
  destruct (negb (returncode r =? 0)%Z).
  - destruct (negb (String.eqb _ "")); exact Hst.
  - generalize (PyStr.splitlines (stdout r)). intros lines. revert st Hst.
    induction lines as [|line lines IH]; intros st Hst; [exact Hst|].
    cbn [fold_left]. apply IH. now apply scan_line_ok.
Qed.

Lemma scan_commands_ok (cmds : list (list string)) (st : scan) :
  scan_ok Q st -> scan_ok Q (fold_left (scan_command run parse) cmds st).
Proof.
  revert st. induction cmds as [|cmd cmds IH]; intros st Hst; [exact Hst|].
  cbn [fold_left]. apply IH. now apply scan_command_ok.
Qed.

End ScanInvariant.

Lemma scan_commands_same (run run' : Service.runner)
      (parse : string -> option (string * string))
      (cmds : list (list string)) (st : Service.scan) :
  (forall cmd, In cmd cmds -> run cmd = run' cmd) ->
  fold_left (Service.scan_command run' parse) cmds st =
  fold_left (Service.scan_command run parse) cmds st.
Proof.
  revert st. induction cmds as [|cmd cmds IH]; intros st H; [reflexivity|].
  cbn [fold_left]. unfold Service.scan_command at 2 4.
  rewrite (H cmd (or_introl eq_refl)).
  apply IH. intros c Hc. apply H. now right.
Qed.

Lemma scan_ok_devices (Q : DetectedDevice -> Prop) (st : Service.scan) :
  scan_ok Q st ->
  NoDup (List.map mac (Service.devices st)) /\ Forall Q (Service.devices st).
Proof.
  intros (Hm & Hnd & Hq). split; [|exact Hq].
  rewrite Hm. apply NoDup_rev. exact Hnd.
Qed.

(** X18. The devices that [_discover_devices] returns have pairwise
    different MACs, each of seventeen characters that are digits, letters
    from A to F or colons - no lowercase letter; and unless a
    [bluetoothctl] command listed a device, every one is named
    <unknown-device>. *)
Theorem discovered_devices_well_formed
        (run : Service.runner) (ds : list DetectedDevice) :
  Service._discover_devices run = Ok ds ->
  NoDup (List.map mac ds) /\
  Forall (fun d => mac_well_formed (mac d)) ds /\
  ((exists cmd, In cmd Service.bluetoothctl_commands /\
                yields_device run Service.bluetoothctl_line cmd) \/
   Forall (fun d => device_name d = "<unknown-device>") ds).
Proof.
  unfold Service._discover_devices.
  set (st0 := Service.mkScan [] [] []).
  set (st1 := fold_left (Service.scan_command run Service.bluetoothctl_line)
                        Service.bluetoothctl_commands st0).
  set (st2 := fold_left (Service.scan_command run Service.hcitool_line)
                        Service.fallback_commands st1).
  assert (H1 : scan_ok (fun d => mac_well_formed (mac d)) st1).
  { apply scan_commands_ok.
    - intros line m n H. exact (bluetoothctl_line_mac line m n H).
    - split; [reflexivity|]. split; constructor. }
  destruct (Service.devices st1) as [|d1 ds1] eqn:Hd1; cbn [Service.is_empty negb].
  - assert (H2 : scan_ok (fun d => mac_well_formed (mac d) /\
                                   device_name d = "<unknown-device>") st2).
    { apply scan_commands_ok.
      - intros line m n H. exact (hcitool_line_mac line m n H).
      - destruct H1 as (Hm & Hnd & _). split; [exact Hm|].
        split; [exact Hnd|]. rewrite Hd1. constructor. }
    apply scan_ok_devices in H2. destruct H2 as [Hnd Hq].
    assert (Hall : forall l,
              Ok (Service.devices st2) = Ok l ->
              NoDup (List.map mac l) /\
              Forall (fun d => mac_well_formed (mac d)) l /\
              ((exists cmd, In cmd Service.bluetoothctl_commands /\
                            yields_device run Service.bluetoothctl_line cmd) \/
               Forall (fun d => device_name d = "<unknown-device>") l)).
    { intros l H. injection H as <-. split; [exact Hnd|]. split.
      - eapply Forall_impl; [|exact Hq]. now intros d [Hd _].
      - right. eapply Forall_impl; [|exact Hq]. now intros d [_ Hd]. }
    destruct (Service.devices st2) as [|d2 ds2] eqn:Hd2;
      cbn [Service.is_empty negb].
    + destruct (Service.command_errors st2); cbn [Service.is_empty negb];
        [exact (Hall ds) | discriminate].
    + exact (Hall ds).
  - intros H. injection H as <-.
    apply scan_ok_devices in H1. rewrite Hd1 in H1. destruct H1 as [Hnd Hq].
    split; [exact Hnd|]. split; [exact Hq|]. left.
    destruct (existsb
                (fun cmd =>
                   match run cmd with
                   | Some r =>
                       (Service.returncode r =? 0)%Z &&
                       existsb (fun line =>
                                  match Service.bluetoothctl_line line with
                                  | Some _ => true
                                  | None => false
                                  end)
                               (PyStr.splitlines (Service.stdout r))
                   | None => false
                   end) Service.bluetoothctl_commands) eqn:E.
    + apply existsb_exists in E. destruct E as (cmd & Hin & Hc).
      exists cmd. split; [exact Hin|].
      destruct (run cmd) as [r|] eqn:Hr; [|discriminate Hc].
      apply andb_true_iff in Hc. destruct Hc as [Hz Hl].
      apply Z.eqb_eq in Hz. apply existsb_exists in Hl.
      destruct Hl as (line & Hline & Hp).
      exists r, line. repeat split; auto.
      destruct (Service.bluetoothctl_line line); [discriminate | discriminate Hp].
    + exfalso.
      assert (Hnil : Service.devices st1 = []); [|congruence].
      apply (scan_commands_step run Service.bluetoothctl_line
               Service.bluetoothctl_commands st0 eq_refl).
      split; [reflexivity|].
      intros cmd Hin (r & line & Hr & Hz & Hline & Hp).
      assert (Ht : existsb
                (fun cmd =>
                   match run cmd with
                   | Some r =>
                       (Service.returncode r =? 0)%Z &&
                       existsb (fun line =>
                                  match Service.bluetoothctl_line line with
                                  | Some _ => true
                                  | None => false
                                  end)
                               (PyStr.splitlines (Service.stdout r))
                   | None => false
                   end) Service.bluetoothctl_commands = true); [|congruence].
      apply existsb_exists. exists cmd. split; [exact Hin|].
      rewrite Hr. apply andb_true_iff. split; [now apply Z.eqb_eq|].
      apply existsb_exists. exists line. split; [exact Hline|].
      destruct (Service.bluetoothctl_line line); [reflexivity | contradiction].
Qed.

Lemma discovered_devices_well_formed_witness :
  Service._discover_devices run_one_listed =
  Ok [mkDetectedDevice "88:92:CC:11:22:33" "OnePlus Buds 4"] /\
  mac_well_formed "88:92:CC:11:22:33".
Proof.
  split; [reflexivity|].
  destruct (discovered_devices_well_formed run_one_listed _ eq_refl)
    as (_ & Hq & _).
  inversion Hq as [|d l Hd _]. exact Hd.
Defined.

(** X19. When a [bluetoothctl] command lists a device, [_discover_devices]
    succeeds with a non-empty list whatever the other commands reported,
    and [hcitool con] has no part in the outcome: two runs that differ
    only in what [hcitool con] gives return the same devices. *)
Theorem bluetoothctl_shadows_fallback (run run' : Service.runner) :
  (forall cmd, In cmd Service.bluetoothctl_commands -> run cmd = run' cmd) ->
  (exists cmd, In cmd Service.bluetoothctl_commands /\
               yields_device run Service.bluetoothctl_line cmd) ->
  Service._discover_devices run' = Service._discover_devices run /\
  exists d ds, Service._discover_devices run = Ok (d :: ds).
Proof.
  intros Hsame (cmd & Hin & Hy).
  unfold Service._discover_devices.
  rewrite (scan_commands_same run run' Service.bluetoothctl_line
             Service.bluetoothctl_commands _ Hsame).
  set (st1 := fold_left (Service.scan_command run Service.bluetoothctl_line)
                        Service.bluetoothctl_commands _).
  destruct (Service.devices st1) as [|d1 ds1] eqn:Hd1; cbn [Service.is_empty negb].
  - exfalso.
    apply (scan_commands_step run Service.bluetoothctl_line
             Service.bluetoothctl_commands (Service.mkScan [] [] []) eq_refl)
      in Hd1.
    destruct Hd1 as [_ Hno]. exact (Hno cmd Hin Hy).
  - split; [reflexivity|]. now exists d1, ds1.
Qed.

Lemma bluetoothctl_shadows_fallback_witness :
  Service._discover_devices run_one_listed_con =
  Ok [mkDetectedDevice "88:92:CC:11:22:33" "OnePlus Buds 4"].
Proof.
  transitivity (Service._discover_devices run_one_listed); [|reflexivity].
  apply (bluetoothctl_shadows_fallback run_one_listed run_one_listed_con).
  - intros cmd [<- | [<- | [<- | []]]]; reflexivity.
  - exists ["bluetoothctl"; "devices"]. split; [right; now left|].
    exists (Service.mkCompletedProcess 0%Z
              "Device 88:92:cc:11:22:33 OnePlus Buds 4" (Some EmptyString)),
           "Device 88:92:cc:11:22:33 OnePlus Buds 4".
    repeat split; [now left | discriminate].
Defined.

(** ** A line of [bluetoothctl] output *)

Section DeviceLineFacts.
Import Service.

Lemma all_chars_b_eq (f : ascii -> bool) (s : string) :
  all_chars_b f s = all_chars f s.
Proof. induction s as [|c s IH]; cbn; [reflexivity | now rewrite IH]. Qed.

Lemma lstrip_length (s : string) :
  (String.length (PyStr.lstrip s) <= String.length s)%nat.
Proof.
  induction s as [|c s IH]; cbn [PyStr.lstrip String.length]; [lia|].
  destruct (PyStr.is_space c); cbn [String.length]; lia.
Qed.

Lemma rstrip_length (s : string) :
  (String.length (PyStr.rstrip s) <= String.length s)%nat.
Proof.
  induction s as [|c s IH]; cbn [PyStr.rstrip String.length]; [lia|].
  destruct (PyStr.rstrip s) as [|b r].
  - destruct (PyStr.is_space c); cbn [String.length]; lia.
  - cbn [String.length] in *. lia.
Qed.

(** A stripped, non-empty string starts with a character that is not
    white space, and its right strip is itself. *)
Lemma stripped_first (n : string) :
  n <> EmptyString -> PyStr.strip n = n ->
  (exists c n', n = String c n' /\ PyStr.is_space c = false) /\
  PyStr.rstrip n = n.
Proof.
  intros Hne Hs. destruct n as [|c n']; [contradiction|].
  unfold PyStr.strip in Hs. cbn [PyStr.lstrip] in Hs.
  destruct (PyStr.is_space c) eqn:Hc.
  - exfalso.
    pose proof (rstrip_length (PyStr.lstrip n')) as H1.
    pose proof (lstrip_length n') as H2.
    rewrite Hs in H1. cbn [String.length] in H1. lia.
  - split; [now exists c, n' | exact Hs].
Qed.

Lemma rstrip_app_stripped (a n : string) :
  n <> EmptyString -> PyStr.rstrip n = n -> PyStr.rstrip (a ++ n) = a ++ n.
Proof.
  intros Hne Hn. induction a as [|c a IH]; [exact Hn|].
  cbn [append PyStr.rstrip]. rewrite IH.
  destruct (a ++ n) as [|b r] eqn:E; [|reflexivity].
  destruct a; [cbn in E; contradiction | discriminate E].
Qed.

Lemma take_app_length (a b : string) :
  PyStr.take (String.length a) (a ++ b) = a.
Proof. induction a as [|c a IH]; cbn; [now destruct b | now rewrite IH]. Qed.

Lemma drop_app_length (a b : string) :
  PyStr.drop (String.length a) (a ++ b) = b.
Proof. induction a as [|c a IH]; cbn; [now destruct b | exact IH]. Qed.

Lemma mac_char_not_space (c : ascii) :
  is_mac_char c = true -> PyStr.is_space c = false.
Proof.
  destruct c as [[] [] [] [] [] [] [] []]; intros H;
    first [reflexivity | discriminate H].
Qed.

Lemma dot_run_no_newline (s : string) :
  all_chars (fun c => negb (Ascii.eqb c LF)) s = true ->
  dot_run s = (s, EmptyString).
Proof.
  induction s as [|c s IH]; [reflexivity|].
  cbn [all_chars dot_run]. rewrite andb_true_iff. intros [Hc Hs].
  apply negb_true_iff in Hc. unfold LF in Hc. rewrite Hc, (IH Hs). reflexivity.
Qed.

Lemma after_spaces_one (c : ascii) (s : string) :
  PyStr.is_space c = false ->
  after_spaces (String " " (String c s)) = [String c s].
Proof.
  intros Hc. unfold after_spaces. cbn [after_spaces_shortest_first].
  change (PyStr.is_space " ") with true. cbv iota. now rewrite Hc.
Qed.

End DeviceLineFacts.

(** X20. A line that reads Device, a MAC of seventeen hexadecimal digits
    and colons, and a name, with one space between them, is parsed into
    the MAC in uppercase and the whole name, inner spaces included; the
    name is any non-empty string without a line feed that does not start
    or end with white space. *)
Theorem bluetoothctl_line_parses (m n : string) :
  String.length m = 17%nat ->
  all_chars Service.is_mac_char m = true ->
  n <> EmptyString ->
  PyStr.strip n = n ->
  all_chars (fun c => negb (Ascii.eqb c LF)) n = true ->
  Service.bluetoothctl_line ("Device " ++ m ++ " " ++ n) =
  Some (PyStr.upper m, n).
Proof.
  intros Hl Hm Hne Hs Hlf.
  destruct (stripped_first n Hne Hs) as [(c & n' & -> & Hc) Hr].
  destruct m as [|c0 m']; [discriminate Hl|].
  assert (Hc0 : PyStr.is_space c0 = false).
  { apply mac_char_not_space. cbn [all_chars] in Hm.
    now apply andb_true_iff in Hm. }
  unfold Service.bluetoothctl_line.
  assert (Hstrip : PyStr.strip ("Device " ++ String c0 m' ++ " " ++ String c n') =
                   "Device " ++ String c0 m' ++ " " ++ String c n').
  { unfold PyStr.strip.
    change (PyStr.lstrip ("Device " ++ String c0 m' ++ " " ++ String c n'))
      with ("Device " ++ String c0 m' ++ " " ++ String c n').
    rewrite <- !app_assoc_string.
    apply rstrip_app_stripped; assumption. }
  rewrite Hstrip. unfold Service._DEVICE_LINE_RE_match.
  change (PyStr.take 6 ("Device " ++ String c0 m' ++ " " ++ String c n'))
    with "Device".
  change (String.eqb (PyStr.lower "Device") "device") with true. cbv iota.
  change (PyStr.drop 6 ("Device " ++ String c0 m' ++ " " ++ String c n'))
    with (String " " (String c0 (m' ++ " " ++ String c n'))).
  rewrite (after_spaces_one c0 _ Hc0). cbn [Service.first_some].
  change (String c0 (m' ++ " " ++ String c n'))
    with (String c0 m' ++ " " ++ String c n').
  rewrite <- Hl, take_app_length, drop_app_length, Nat.eqb_refl.
  rewrite all_chars_b_eq, Hm. cbn [andb].
  change (" " ++ String c n') with (String " " (String c n')).
  rewrite (after_spaces_one c n' Hc). cbn [Service.first_some].
  unfold Service.dot_plus_end. rewrite (dot_run_no_newline _ Hlf).
  cbn [String.eqb orb]. rewrite Hs. reflexivity.
Qed.

Lemma bluetoothctl_line_parses_witness :
  Service.bluetoothctl_line "Device 88:92:cc:11:22:33 OnePlus Buds 4" =
  Some ("88:92:CC:11:22:33", "OnePlus Buds 4").
Proof.
  apply (bluetoothctl_line_parses "88:92:cc:11:22:33" "OnePlus Buds 4");
    first [reflexivity | discriminate].
Defined.

(** ** The RFCOMM transport *)

(** The cases of membership in a list that is given in full. *)
Ltac in_cases H :=
  cbn [In] in H;
  repeat (destruct H as [H | H]; [try discriminate H|]);
  try contradiction.

Ltac closed_goal :=
  match goal with
  | |- closed_last ?l =>
      exists (removelast l); cbn [removelast app];
      split; [reflexivity | let Hx := fresh in intros Hx; in_cases Hx]
  end.

(** X21. The calls that [RFCOMMTransport.send] makes on the socket layer
    follow one discipline on every path.  Once a connection was attempted
    the socket is closed exactly once, as the last call, whatever failed.
    The payload is sent only after the connection succeeded, to the
    address and channel asked for, and it is the payload given; the
    answer is awaited only after the payload was sent.  With a negative
    timeout nothing is attempted and the socket that was created is not
    closed. *)
Theorem rfcomm_send_discipline
        (show_channel : Z -> string) (layer : Rfcomm.socket_layer)
        (mac : string) (payload : list byte) (channel : Z) (timeout_s : Q) :
  let ops := snd (Rfcomm.send show_channel layer mac payload channel timeout_s) in
  (forall m c, In (Rfcomm.OpConnect m c) ops ->
     m = mac /\ c = channel /\ closed_last ops) /\
  (forall p, In (Rfcomm.OpSendAll p) ops ->
     p = payload /\ Rfcomm.socket_connect layer mac channel = None) /\
  (forall n, In (Rfcomm.OpRecv n) ops ->
     Rfcomm.socket_sendall layer payload = None) /\
  (In Rfcomm.OpClose ops -> In (Rfcomm.OpConnect mac channel) ops) /\
  (Qle_bool 0 timeout_s = false ->
   Rfcomm.has_bluetooth layer = true -> Rfcomm.socket_create layer = None ->
   Rfcomm.send show_channel layer mac payload channel timeout_s =
   (Raise (ValueError "Timeout value out of range"),
    [Rfcomm.OpSocket; Rfcomm.OpSetTimeout timeout_s])).
Proof.
  cbv zeta. unfold Rfcomm.send.
  destruct (Rfcomm.has_bluetooth layer); cbn [negb];
    [destruct (Rfcomm.socket_create layer) as [exc|];
     [|destruct (Qle_bool 0 timeout_s);
       [destruct (Rfcomm.socket_connect layer mac channel) as [[m0 | m0]|];
        [| |destruct (Rfcomm.socket_sendall layer payload) as [exc|];
            [|destruct (Rfcomm.socket_recv layer 1024%Z)
                as [[m1 | m1] | data]]]|]]|];
    cbn [snd];
    (split; [|split; [|split; [|split]]]);
    try (intros H; discriminate H);
    try (intros _ H; discriminate H);
    try (intros _ _ H; discriminate H);
    try solve [intros ? ? H; in_cases H];
    try (intros ? ? H; in_cases H; injection H as <- <-;
         split; [reflexivity|]; split; [reflexivity|]; closed_goal);
    try (intros ? H; in_cases H; try injection H as <-;
         first [split; reflexivity | reflexivity]);
    try (intros H; in_cases H; cbn [In]; right; right; now left);
    try (intros ?; reflexivity).
Qed.

Lemma rfcomm_send_discipline_witness :
  Rfcomm.send (fun _ => "15") silent_layer "88:92:CC:11:22:33" [xaa; x00]%byte
              15%Z (-1 # 1)%Q =
  (Raise (ValueError "Timeout value out of range"),
   [Rfcomm.OpSocket; Rfcomm.OpSetTimeout (-1 # 1)%Q]) /\
  closed_last (snd (Rfcomm.send (fun _ => "15") silent_layer "88:92:CC:11:22:33"
                                [xaa; x00]%byte 15%Z (3 # 1)%Q)).
Proof.
  split.
  - apply (rfcomm_send_discipline (fun _ => "15") silent_layer
             "88:92:CC:11:22:33" [xaa; x00]%byte 15%Z (-1 # 1)%Q);
      reflexivity.
  - apply (proj1 (rfcomm_send_discipline (fun _ => "15") silent_layer
                    "88:92:CC:11:22:33" [xaa; x00]%byte 15%Z (3 # 1)%Q)
                 "88:92:CC:11:22:33" 15%Z).
    cbn. right. right. now left.
Defined.



(** ** More on the YAML loader *)

Lemma find_not_boolean (value : string) (l : list (string * Yaml.regexp)) :
  match List.find (fun '(tag, regexp) => regexp value) l with
  | Some (tag, _) => tag
  | None => Yaml.STR_TAG
  end <> Yaml.BOOL_TAG ->
  match List.find (fun '(tag, regexp) => regexp value)
                  (List.filter not_boolean l) with
  | Some (tag, _) => tag
  | None => Yaml.STR_TAG
  end =
  match List.find (fun '(tag, regexp) => regexp value) l with
  | Some (tag, _) => tag
  | None => Yaml.STR_TAG
  end.
Proof.
  induction l as [|[tag re] l IH]; cbn [find filter]; [reflexivity|].
  destruct (re value) eqn:Hre.
  - intros Hne. unfold not_boolean.
    destruct (String.eqb_spec tag Yaml.BOOL_TAG) as [-> | _];
      [contradiction|].
    cbn [negb find]. now rewrite Hre.
  - intros Hne. destruct (not_boolean (tag, re)); cbn [find];
      [rewrite Hre|]; now apply IH.
Qed.

(** X23. Taking the boolean resolvers out of the table changes nothing
    for a scalar that [yaml.SafeLoader] does not resolve as a boolean:
    numbers, nulls and strings are given by [UniqueKeyLoader] the tag
    they have with [yaml.SafeLoader]. *)
Theorem unique_key_resolvers_keep_other_tags
        (safe : Yaml.implicit_resolvers) (value : string) (is_plain : bool) :
  Yaml.resolve safe value is_plain <> Yaml.BOOL_TAG ->
  Yaml.resolve (Yaml.unique_key_resolvers safe) value is_plain =
  Yaml.resolve safe value is_plain.
Proof.
  unfold Yaml.resolve. destruct is_plain; [|reflexivity].
  rewrite !resolvers_for_unique, <- filter_app.
  apply find_not_boolean.
Qed.

Lemma unique_key_resolvers_keep_other_tags_witness :
  Yaml.resolve (Yaml.unique_key_resolvers safe_resolvers_int) "12" true =
  "tag:yaml.org,2002:int".
Proof.
  rewrite (unique_key_resolvers_keep_other_tags safe_resolvers_int "12" true);
    [reflexivity | discriminate].
Defined.

Section MappingFacts.
Import Yaml.

Variable construct_other : string -> string -> result pyobj.
Variable scalar_eq : pyobj -> pyobj -> bool.
Variable scalar_str : string -> string -> string.

Let construct : node -> result pyobj :=
  construct_object construct_other scalar_eq scalar_str.
Let loop : list (node * node) -> list (pyobj * pyobj) ->
           result (list (pyobj * pyobj)) :=
  _construct_mapping_loop scalar_eq scalar_str construct.
Let built (kv : node * node) (ov : pyobj * pyobj) : Prop :=
  construct (fst kv) = Ok (fst ov) /\ construct (snd kv) = Ok (snd ov).

Lemma loop_exact (value : list (node * node))
      (acc d : list (pyobj * pyobj)) :
  loop value acc = Ok d <->
  exists d', d = (acc ++ d')%list /\ Forall2 built value d' /\
             fresh_from scalar_eq acc d'.
Proof.
  revert acc. induction value as [|[k v] value IH]; intros acc.
  - cbn. split.
    + intros H. injection H as <-. exists []. rewrite app_nil_r.
      repeat split. constructor.
    + intros (d' & -> & Hf & _). inversion Hf. now rewrite app_nil_r.
  - unfold loop. cbn [_construct_mapping_loop]. fold loop. fold construct.
    split.
    + destruct (construct k) as [ok|] eqn:Hk; [|discriminate]. cbn [bind].
      unfold dict_contains.
      destruct (hashable ok) eqn:Hh; [|discriminate]. cbn [bind].
      destruct (existsb _ acc) eqn:He; [discriminate|].
      destruct (construct v) as [ov|] eqn:Hv; [|discriminate]. cbn [bind].
      intros H. apply IH in H. destruct H as (d' & -> & Hf & Hfr).
      exists ((ok, ov) :: d'). rewrite <- app_assoc. split; [reflexivity|].
      split; [constructor; [now split | exact Hf]|].
      cbn [fresh_from fst]. auto.
    + intros (d' & -> & Hf & Hfr).
      inversion Hf as [|kv [ok ov] value' d'' [Hk Hv] Hf']; subst.
      cbn [fst snd] in Hk, Hv. rewrite Hk. cbn [bind].
      cbn [fresh_from fst] in Hfr. destruct Hfr as (Hh & He & Hfr).
      unfold dict_contains. rewrite Hh. cbn [bind]. rewrite He, Hv. cbn [bind].
      apply IH. exists d''. rewrite <- app_assoc. repeat split; assumption.
Qed.

Lemma fresh_from_pairs (acc d : list (pyobj * pyobj)) :
  fresh_from scalar_eq acc d <->
  Forall (fun x : pyobj * pyobj => hashable (fst x) = true) d /\
  Forall (fun x : pyobj * pyobj =>
            Forall (fun a : pyobj * pyobj =>
                      py_eq scalar_eq (fst a) (fst x) = false) acc) d /\
  ForallOrdPairs (fun a b : pyobj * pyobj =>
                    py_eq scalar_eq (fst a) (fst b) = false) d.
Proof.
  assert (Hex : forall l (x : pyobj * pyobj),
            existsb (fun kv => py_eq scalar_eq (fst kv) (fst x)) l = false <->
            Forall (fun a : pyobj * pyobj =>
                      py_eq scalar_eq (fst a) (fst x) = false) l).
  { intros l x. induction l as [|a l IH]; cbn [existsb].
    - split; [constructor | reflexivity].
    - rewrite orb_false_iff, IH. split.
      + intros [H1 H2]. now constructor.
      + intros H. inversion H. now split. }
  revert acc. induction d as [|x d IH]; intros acc; cbn [fresh_from].
  - split; [intros _; repeat split; constructor | reflexivity].
  - rewrite IH, Hex. split.
    + intros (Hh & He & Hd & Ha & Hp). split; [now constructor|]. split.
      * constructor; [exact He|].
        eapply Forall_impl; [|exact Ha]. intros y Hy.
        apply Forall_app in Hy. tauto.
      * constructor; [|exact Hp].
        eapply Forall_impl; [|exact Ha]. intros y Hy.
        apply Forall_app in Hy. destruct Hy as [_ Hy]. now inversion Hy.
    + intros (Hd & Ha & Hp).
      inversion Hd as [|? ? Hh Hd']; subst.
      inversion Ha as [|? ? He Ha']; subst.
      inversion Hp as [|? ? Hx Hp']; subst.
      split; [exact Hh|]. split; [exact He|]. split; [exact Hd'|].
      split; [|exact Hp'].
      rewrite Forall_forall in *. intros y Hy. apply Forall_app. split.
      * now apply Ha'.
      * constructor; [now apply Hx | constructor].
Qed.

End MappingFacts.

(** X24. A mapping node is built into a dictionary exactly when its pairs
    build, one after the other, into the pairs of the dictionary, every
    key is hashable and no key is equal to a key before it: the
    dictionary has every pair of the document, in the order of the
    document, and none was overwritten. *)
Theorem construct_mapping_exact
        (construct_other : string -> string -> result Yaml.pyobj)
        (scalar_eq : Yaml.pyobj -> Yaml.pyobj -> bool)
        (scalar_str : string -> string -> string)
        (value : list (Yaml.node * Yaml.node))
        (d : list (Yaml.pyobj * Yaml.pyobj)) :
  Yaml.construct_object construct_other scalar_eq scalar_str
                        (Yaml.MappingNode value) = Ok (Yaml.PyDict d) <->
  Forall2 (fun kv ov =>
             Yaml.construct_object construct_other scalar_eq scalar_str (fst kv)
             = Ok (fst ov) /\
             Yaml.construct_object construct_other scalar_eq scalar_str (snd kv)
             = Ok (snd ov)) value d /\
  Forall (fun x : Yaml.pyobj * Yaml.pyobj => Yaml.hashable (fst x) = true) d /\
  ForallOrdPairs (fun a b : Yaml.pyobj * Yaml.pyobj =>
                    Yaml.py_eq scalar_eq (fst a) (fst b) = false) d.
Proof.
  rewrite construct_mapping_node.
  pose proof (loop_exact construct_other scalar_eq scalar_str value [] d) as H.
  cbv zeta in H. split.
  - destruct (Yaml._construct_mapping_loop _ _ _ value []) as [d0|] eqn:E;
      [|discriminate].
    cbn [bind]. intros Hd. injection Hd as ->.
    destruct (proj1 H eq_refl) as (d' & Hd' & Hf & Hfr). cbn [app] in Hd'.
    subst d'. apply (fresh_from_pairs construct_other scalar_eq scalar_str) in Hfr.
    destruct Hfr as (Hh & _ & Hp).
    repeat split; assumption.
  - intros (Hf & Hh & Hp).
    rewrite (proj2 H); [reflexivity|].
    exists d. split; [reflexivity|]. split; [exact Hf|].
    apply (fresh_from_pairs construct_other scalar_eq scalar_str).
    split; [exact Hh|]. split; [|exact Hp].
    apply Forall_forall. intros x _. constructor.
Qed.

(** X25. [_read_yaml] returns dictionaries only; a file that holds no
    document at all is refused as one without a mapping at its root.
    Not every failure is a plugin error: when the first key of the root
    mapping is built into an object that cannot be hashed - a sequence or
    a mapping - the [TypeError] of the membership test leaves
    [_read_yaml] as it is. *)
Theorem read_yaml_outcomes
        (construct_other : string -> string -> result Yaml.pyobj)
        (scalar_eq : Yaml.pyobj -> Yaml.pyobj -> bool)
        (scalar_str : string -> string -> string)
        (safe : Yaml.implicit_resolvers)
        (parse : string -> result (option Yaml.document))
        (path content : string) :
  let r := Yaml._read_yaml construct_other scalar_eq scalar_str safe parse path
                           (Ok content) in
  (forall o, r = Ok o -> exists d, o = Yaml.PyDict d) /\
  (parse content = Ok None ->
   r = Raise (PluginValidationError
                ("Plugin file " ++ path ++ " must contain a mapping at root"))) /\
  (forall k v rest key,
     parse content = Ok (Some (Yaml.Mapping ((k, v) :: rest))) ->
     Yaml.load construct_other scalar_eq scalar_str safe k = Ok key ->
     Yaml.hashable key = false ->
     exists msg, r = Raise (TypeError msg)).
Proof.
  cbv zeta. unfold Yaml._read_yaml. cbn [bind]. split; [|split].
  - intros o.
    destruct (match (d <- parse content ;; _) with
              | Raise (YAMLError exc) => _
              | r => r
              end) as [loaded|]; [|discriminate].
    cbn [bind]. destruct loaded; try discriminate.
    intros H. injection H as <-. eexists. reflexivity.
  - intros ->. reflexivity.
  - intros k v rest key -> Hk Hh. unfold Yaml.load in *.
    cbn [bind Yaml.compose List.map fst snd].
    rewrite construct_mapping_node, loop_cons, Hk. cbn [bind].
    unfold Yaml.dict_contains. rewrite Hh. cbn [bind].
    eexists. reflexivity.
Qed.

Lemma read_yaml_outcomes_witness :
  exists msg,
    Yaml._read_yaml Fixtures.keep_other Fixtures.same_text Fixtures.as_written
                    Fixtures.safe_resolvers_yno parse_sequence_key
                    "plugin.yaml" (Ok "[a]: b") = Raise (TypeError msg).
Proof.
  apply (proj2 (proj2 (read_yaml_outcomes
                         Fixtures.keep_other Fixtures.same_text
                         Fixtures.as_written Fixtures.safe_resolvers_yno
                         parse_sequence_key "plugin.yaml" "[a]: b"))
               (Yaml.Sequence [quoted "a"]) (quoted "b") []
               (Yaml.PyList [Yaml.PyStr "a"]));
    reflexivity.
Defined.

(** ** The command line *)

Section CliFacts.

Lemma build_service_stderr (service : Cli.BudsService) :
  Forall on_stderr (Cli._build_service service).
Proof.
  unfold Cli._build_service. apply Forall_app. split;
    apply Forall_forall; intros l Hl; apply in_map_iff in Hl;
    destruct Hl as (w & <- & _); exact I.
Qed.

Lemma handle_reports (written : list Cli.echo) (e : exn) :
  Forall on_stderr written -> reports_failure (Cli.handle written e).
Proof.
  intros Hw. unfold reports_failure, Cli.handle.
  destruct (Cli.is_budsctl_error e) eqn:E; cbn [fst snd].
  - split; [reflexivity|]. split.
    + apply Forall_app. split; [exact Hw | repeat constructor].
    + now exists e, written.
  - now split.
Qed.

End CliFacts.

(** X26. When the command [set] is given a value and returns, one call
    was made to a transport - the one the plugin prescribes for the
    payload of that value, to a discovered device that the plugin
    matches - and the line on the standard output reports that device,
    that plugin and that payload; a line with the response follows
    exactly when the transport answered with data. *)
Theorem cli_set_reports_what_was_sent
        (service : Cli.BudsService) (discovered : result (list DetectedDevice))
        (send : Service.transports) (fname vname : string)
        (device_hint plugin_id : option string)
        (out : list Cli.echo) (calls : list Service.send_call) :
  Cli.set_feature (Ok service) discovered send fname (Some vname)
                  device_hint plugin_id = (out, Cli.Returned, calls) ->
  exists devices t spec payload call response,
    discovered = Ok devices /\
    In (device t) devices /\
    In (plugin t) (PyDict.values (Cli.plugins service)) /\
    (0 < DeviceMatch.match_score (device t) (plugin t))%Z /\
    PyDict.get (features (plugin t)) fname = Some spec /\
    PyDict.get (values spec) vname = Some payload /\
    call_for t payload = Some call /\
    calls = [call] /\
    send call = Ok response /\
    out = (Cli._build_service service ++
           Cli.Out ("Sent " ++ fname ++ "=" ++ vname ++ " to " ++
                    mac (device t) ++ " (" ++ id (plugin t) ++ ") payload=" ++
                    PyBytes.hex payload)
           :: match response with
              | Some (b :: bs) => [Cli.Out ("response=" ++ PyBytes.hex (b :: bs))]
              | _ => []
              end)%list.
Proof.
  unfold Cli.set_feature.
  destruct (Service.set_feature (Cli.plugins service) discovered send fname vname
                                plugin_id device_hint) as [[r|e] calls0] eqn:E.
  - intros H. injection H as <- <-.
    destruct (set_feature_ok _ _ _ _ _ _ _ _ _ E)
      as (spec & payload & call & response &
          Hres & Hf & Hv & Hc & Hcalls & Hsend & Hr).
    destruct (resolve_target_ok _ _ _ _ _ Hres) as (devices & Hd & Hin & Hp & Hs).
    exists devices, (target r), spec, payload, call, response.
    repeat (split; [assumption|]).
    rewrite Hr. cbn [feature value target payload_hex response_hex].
    f_equal. f_equal.
    destruct response as [[|b bs]|]; reflexivity.
  - unfold Cli.handle. destruct (Cli.is_budsctl_error e); discriminate.
Qed.

Lemma cli_set_reports_what_was_sent_witness :
  exists call,
    Cli.set_feature (Ok packaged_service) (Ok [Fixtures.buds_a])
                    (fun _ => Ok (Some [x01]%byte)) "anc" (Some "on") None None =
    ([Cli.Err "Warning: Python runtime missing AF_BLUETOOTH/BTPROTO_RFCOMM; RFCOMM control commands will fail.";
      Cli.Out "Sent anc=on to 88:92:CC:11:22:33 (oneplus_buds4) payload=aa0a00000404480300010102";
      Cli.Out "response=01"],
     Cli.Returned, [call]).
Proof.
  destruct (cli_set_reports_what_was_sent packaged_service (Ok [Fixtures.buds_a])
              (fun _ => Ok (Some [x01]%byte)) "anc" "on" None None _ _ eq_refl)
    as (devices & t & spec & payload & call & response & _ & _ & _ & _ & _ & _ &
        _ & Hcalls & _).
  exists call. cbv in Hcalls. injection Hcalls as <-. reflexivity.
Defined.

(** X27. A command that does not return writes nothing on the standard
    output: [set], [features] and [devices] end with status 1 after the
    one line of the error when the failure is a [BudsctlError], and let
    any other exception pass unreported; the warnings of loading go to
    the standard error in both cases.  [set] without a value makes no
    call to a transport. *)
Theorem cli_failures_leave_stdout_empty
        (service : result Cli.BudsService)
        (discovered : result (list DetectedDevice))
        (send : Service.transports) (fname : string)
        (vname device_hint plugin_id : option string) :
  reports_failure
    (fst (Cli.set_feature service discovered send fname vname
                          device_hint plugin_id)) /\
  reports_failure (Cli.list_features service discovered device_hint plugin_id) /\
  reports_failure (Cli.list_devices service discovered) /\
  (vname = None ->
   snd (Cli.set_feature service discovered send fname vname
                        device_hint plugin_id) = []).
Proof.
  assert (Hnil : Forall on_stderr []) by constructor.
  split; [|split; [|split]].
  - unfold Cli.set_feature. destruct service as [s|e]; cbn [fst];
      [|now apply handle_reports].
    pose proof (build_service_stderr s) as Hw.
    destruct vname as [v|].
    + destruct (Service.set_feature _ _ _ _ _ _ _) as [[r|e] calls]; cbn [fst];
        [exact I | now apply handle_reports].
    + destruct (Service.feature_values _ _ _ _ _) as [[t vs]|e]; cbn [fst];
        [exact I | now apply handle_reports].
  - unfold Cli.list_features. destruct service as [s|e];
      [|now apply handle_reports].
    pose proof (build_service_stderr s) as Hw.
    destruct (Service.feature_catalog _ _ _ _) as [[t c]|e];
      [exact I | now apply handle_reports].
  - unfold Cli.list_devices. destruct service as [s|e];
      [|now apply handle_reports].
    pose proof (build_service_stderr s) as Hw.
    destruct discovered as [ds|e]; [|now apply handle_reports].
    destruct (Service.is_empty ds); exact I.
  - intros ->. unfold Cli.set_feature. destruct service as [s|e]; [|reflexivity].
    destruct (Service.feature_values _ _ _ _ _) as [[t vs]|e]; reflexivity.
Qed.

Lemma cli_failures_leave_stdout_empty_witness :
  Cli.set_feature (Ok packaged_service) (Ok [Fixtures.buds_a])
                  (fun _ => Ok None) "anc" None None None =
  ([Cli.Err "Warning: Python runtime missing AF_BLUETOOTH/BTPROTO_RFCOMM; RFCOMM control commands will fail.";
    Cli.Out "Available values for 'anc' on 88:92:CC:11:22:33 (oneplus_buds4): off, on"],
   Cli.Returned, []).
Proof.
  pose proof (proj2 (proj2 (proj2
                (cli_failures_leave_stdout_empty
                   (Ok packaged_service) (Ok [Fixtures.buds_a])
                   (fun _ => Ok None) "anc" None None None))) eq_refl) as H.
  destruct (Cli.set_feature (Ok packaged_service) (Ok [Fixtures.buds_a])
                            (fun _ => Ok None) "anc" None None None)
    as [[out e] calls] eqn:E.
  cbn [snd] in H. subst calls. rewrite <- E. reflexivity.
Defined.


